(** * m4b_maker: the audiobook conversion pipeline of [app/main.py]

    A shallow embedding of [AudiobookConverter]: Python strings, [pathlib]
    paths, the file system as a directory tree, the external tools as
    oracles, and the methods of the class as functions over that state. *)

From Stdlib Require Import Ascii String ZArith Lia.
From stdpp Require Import base option list sorting strings gmap fin_maps.

Local Open Scope Z_scope.

(** ** Python strings

    A [str] is modelled as a [string] whose characters are the code points
    below 256; [len] is [String.length]. *)
Module PyStr.

(** The characters for which [str.isspace] holds, which are also the ones
    the pattern [\s] matches and the ones [str.strip] removes:
    U+0009..U+000D, U+001C..U+001F, U+0020, U+0085 and U+00A0. *)
Definition is_space (c : ascii) : bool :=
  let n := N_of_ascii c in
  ((9 <=? n) && (n <=? 13) || (28 <=? n) && (n <=? 32)
   || (n =? 133) || (n =? 160))%N.

Definition quote : ascii := ascii_of_nat 34.

Definition is_empty (s : string) : bool :=
  match s with "" => true | String _ _ => false end.

(** Truth value of a [str]: false exactly for the empty string. *)
Definition truthy (s : string) : bool := negb (is_empty s).

Fixpoint filter (keep : ascii → bool) (s : string) : string :=
  match s with
  | "" => ""
  | String c s' => if keep c then String c (filter keep s') else filter keep s'
  end.

Fixpoint all (p : ascii → bool) (s : string) : bool :=
  match s with
  | "" => true
  | String c s' => p c && all p s'
  end.

(** [s.lstrip()], [s.rstrip()] and [s.strip()]. *)
Fixpoint lstrip (s : string) : string :=
  match s with
  | "" => ""
  | String c s' => if is_space c then lstrip s' else s
  end.

Fixpoint rstrip (s : string) : string :=
  match s with
  | "" => ""
  | String c s' =>
      let r := rstrip s' in
      if is_space c && is_empty r then "" else String c r
  end.

Definition strip (s : string) : string := rstrip (lstrip s).

Fixpoint take (n : nat) (s : string) : string :=
  match n, s with
  | S n', String c s' => String c (take n' s')
  | _, _ => ""
  end.

(** The slice [s[:n]] for an [int] [n]: a negative bound counts from the
    end of the string. *)
Definition slice_to (n : Z) (s : string) : string :=
  if 0 <=? n then take (Z.to_nat n) s
  else take (Z.to_nat (Z.of_nat (String.length s) + n)) s.

(** [re.sub(r'\s+', ' ', s)]: every maximal run of white space becomes one
    space.  [in_run] tells that the previous character was white space. *)
Fixpoint collapse_ws_go (in_run : bool) (s : string) : string :=
  match s with
  | "" => ""
  | String c s' =>
      if is_space c
      then (if in_run then collapse_ws_go true s'
            else String " " (collapse_ws_go true s'))
      else String c (collapse_ws_go false s')
  end.

Definition collapse_ws (s : string) : string := collapse_ws_go false s.

(** [s.startswith(p)] and [s.endswith(p)]. *)
Fixpoint startswith (p s : string) : bool :=
  match p, s with
  | "", _ => true
  | String a p', String b s' => bool_decide (a = b) && startswith p' s'
  | String _ _, "" => false
  end.

Fixpoint endswith (p s : string) : bool :=
  bool_decide (s = p)
  || match s with "" => false | String _ s' => endswith p s' end.

(** [s.split(sep)] for a one-character separator; the result is never
    empty. *)
Fixpoint split (sep : ascii) (s : string) : list string :=
  match s with
  | "" => [""]
  | String c s' =>
      if bool_decide (c = sep) then "" :: split sep s'
      else match split sep s' with
           | w :: ws => String c w :: ws
           | [] => [String c ""]
           end
  end.

(** [sep.join(l)]. *)
Fixpoint join (sep : string) (l : list string) : string :=
  match l with
  | [] => ""
  | [x] => x
  | x :: l' => x +:+ sep +:+ join sep l'
  end.

(** [s.replace(old, new)] for a one-character [old]. *)
Fixpoint replace_char (old : ascii) (new : string) (s : string) : string :=
  match s with
  | "" => ""
  | String c s' =>
      if bool_decide (c = old) then new +:+ replace_char old new s'
      else String c (replace_char old new s')
  end.

End PyStr.

(** ** [pathlib] paths

    A [Path] is modelled by its components below the root [/] (absolute POSIX
    paths).  A component is never empty, never [.] and holds no [/]; the
    special root [//] of POSIX is not modelled. *)
Abbreviation path := (list string).

Module PyPath.

Definition no_slash (s : string) : bool :=
  PyStr.all (λ c, negb (bool_decide (c = "/"%char))) s.

Definition valid_name (s : string) : Prop :=
  s ≠ "" ∧ s ≠ "." ∧ no_slash s = true.

Definition wf_path (p : path) : Prop := Forall valid_name p.

(** [p.name]: the last component, [''] for the root. *)
Definition name (p : path) : string := List.last p "".

(** [p.parent]: the root is its own parent. *)
Definition parent (p : path) : path := removelast p.

(** The components of a path string: the pieces between slashes, without
    the empty ones and without [.]. *)
Definition parse_parts (s : string) : list string :=
  filter (λ c, c ≠ "" ∧ c ≠ ".") (PyStr.split "/" s).

(** [p / s]: an absolute [s] replaces [p]. *)
Definition joinpath (p : path) (s : string) : path :=
  if PyStr.startswith "/" s then parse_parts s else p ++ parse_parts s.

(** [str(p)]. *)
Definition to_str (p : path) : string := "/" +:+ PyStr.join "/" p.

(** Neither path is an ancestor of the other, nor equal to it. *)
Definition unrelated (p q : path) : Prop :=
  ¬ p `prefix_of` q ∧ ¬ q `prefix_of` p.

End PyPath.

Infix "/:" := PyPath.joinpath (at level 40, left associativity).

(** ** Configuration: the keys of [self.config] the pipeline reads *)
Record config := {
  input_dir : path;
  output_dir : path;
  temp_dir : path;
  audio_bitrate : string;
  audio_codec : string;
  quality_profile : string;
  enable_audible : bool;
  tag_before_conversion : bool;
  sanitize_names : bool;
  max_filename_length : Z
}.

(** The defaults of [load_config]. *)
Definition default_config : config := {|
  input_dir := ["input"];
  output_dir := ["output"];
  temp_dir := ["temp"];
  audio_bitrate := "64k";
  audio_codec := "libfdk_aac";
  quality_profile := "high";
  enable_audible := true;
  tag_before_conversion := true;
  sanitize_names := true;
  max_filename_length := 200
|}.

(** ** [sanitize_filename] *)

(** The character class of the first substitution: the characters
    < > : / | ? * together with the double quote and the backslash. *)
Definition is_reserved (c : ascii) : bool :=
  bool_decide (c ∈ ["<"; ">"; ":"; PyStr.quote; "/"; "\"; "|"; "?"; "*"]%char).

Definition sanitize_filename (cfg : config) (filename : string) : string :=
  if negb (sanitize_names cfg) then filename
  else
    let filename := PyStr.filter (λ c, negb (is_reserved c)) filename in
    let filename := PyStr.strip (PyStr.collapse_ws filename) in
    let max_length := max_filename_length cfg in
    if Z.of_nat (String.length filename) >? max_length
    then PyStr.rstrip (PyStr.slice_to max_length filename)
    else filename.

(** ** [detect_input_structure] *)
Inductive structure_info :=
| Structured (author book : string)
| Flat (book : string).

Definition detect_input_structure (cfg : config) (input_path : path)
  : structure_info :=
  if bool_decide (PyPath.parent input_path ≠ input_dir cfg)
  then Structured (PyPath.name (PyPath.parent input_path)) (PyPath.name input_path)
  else Flat (PyPath.name input_path).

(** ** Exceptions and results *)
Inductive exn := OSError | TimeoutExpired | OtherException.

Inductive res (A : Type) :=
| Ok (a : A)
| Raise (e : exn).
Arguments Ok {A} a.
Arguments Raise {A} e.

#[global] Instance res_bind : MBind res := λ A B k r,
  match r with Ok a => k a | Raise e => Raise e end.

(** ** The file system: a tree of directories and regular files

    Every component of a path is the name of an entry; how the operating
    system reads the special name [..] is in [OS] below. *)
#[warnings="-register-all"]
Inductive node :=
| File (data : string)
| Dir (entries : gmap string node).

Module FS.

Fixpoint lookup (p : path) (n : node) : option node :=
  match p with
  | [] => Some n
  | c :: p' =>
      match n with
      | Dir es => match es !! c with Some n' => lookup p' n' | None => None end
      | File _ => None
      end
  end.

(** [p.exists()], [p.is_dir()], [p.is_file()]. *)
Definition exists_ (p : path) (fs : node) : bool :=
  match lookup p fs with Some _ => true | None => false end.

Definition is_dir (p : path) (fs : node) : bool :=
  match lookup p fs with Some (Dir _) => true | _ => false end.

Definition is_file (p : path) (fs : node) : bool :=
  match lookup p fs with Some (File _) => true | _ => false end.

(** The names in directory [p]; nothing when [p] is no directory. *)
Definition listdir (p : path) (fs : node) : list string :=
  match lookup p fs with
  | Some (Dir es) => (map_to_list es).*1
  | _ => []
  end.

(** [p.glob(pattern)] for a one-level pattern given by its matcher. *)
Definition glob (matches : string → bool) (p : path) (fs : node) : list path :=
  (λ n, p ++ [n]) <$> filter (λ n, matches n = true) (listdir p fs).

(** Tuple order on the parts of two paths. *)
Fixpoint path_leb (p q : path) : bool :=
  match p, q with
  | [], _ => true
  | _ :: _, [] => false
  | a :: p', b :: q' =>
      if bool_decide (a = b) then path_leb p' q' else String.leb a b
  end.

Definition sorted (l : list path) : list path :=
  merge_sort (λ p q, Is_true (path_leb p q)) l.

(** Set the node at [p]; its parent must be a directory.  [None]: the
    operation raises and nothing changes. *)
Fixpoint put (p : path) (t : node) (n : node) : option node :=
  match p, n with
  | [], _ => None
  | _, File _ => None
  | [c], Dir es => Some (Dir (<[c := t]> es))
  | c :: p', Dir es =>
      n' ← es !! c; n'' ← put p' t n'; Some (Dir (<[c := n'']> es))
  end.

(** Remove the node at [p], which must exist. *)
Fixpoint remove (p : path) (n : node) : option node :=
  match p, n with
  | [], _ => None
  | _, File _ => None
  | [c], Dir es => _ ← es !! c; Some (Dir (delete c es))
  | c :: p', Dir es =>
      n' ← es !! c; n'' ← remove p' n'; Some (Dir (<[c := n'']> es))
  end.

(** [p.mkdir(parents=True, exist_ok=True)]: raises when [p] or one of its
    ancestors is a regular file. *)
Fixpoint mkdir_p (p : path) (n : node) : option node :=
  match p, n with
  | _, File _ => None
  | [], Dir _ => Some n
  | c :: p', Dir es =>
      n' ← mkdir_p p' (default (Dir ∅) (es !! c)); Some (Dir (<[c := n']> es))
  end.

(** [open(p, 'w')] and a write: [p] must not be a directory and its parent
    must be one. *)
Definition write_file (p : path) (data : string) (fs : node) : option node :=
  if is_dir p fs then None else put p (File data) fs.

(** A regular file lies strictly above [p]: resolving [p] fails with
    [NotADirectoryError] rather than [FileNotFoundError]. *)
Fixpoint not_a_directory (p : path) (n : node) : bool :=
  match p, n with
  | [], _ => false
  | _ :: _, File _ => true
  | c :: p', Dir es =>
      match es !! c with Some n' => not_a_directory p' n' | None => false end
  end.

(** [p.unlink(missing_ok=True)]: a missing file is fine; a directory at
    [p], or a regular file on the way to [p], raises. *)
Definition unlink_missing_ok (p : path) (fs : node) : option node :=
  match lookup p fs with
  | Some (File _) => remove p fs
  | Some (Dir _) => None
  | None => if not_a_directory p fs then None else Some fs
  end.

(** [shutil.rmtree(p)]: [p] must be a directory (removing the root is not
    modelled: it raises). *)
Definition rmtree (p : path) (fs : node) : option node :=
  if is_dir p fs then remove p fs else None.

(** [shutil.copytree(src, dst)]: [src] must be a directory and [dst] must
    not exist; the missing ancestors of [dst] are created. *)
Definition copytree (src dst : path) (fs : node) : option node :=
  match lookup src fs with
  | Some (Dir es) =>
      if exists_ dst fs then None
      else fs1 ← mkdir_p dst fs; put dst (Dir es) fs1
  | _ => None
  end.

(** [shutil.move(src, dst)]: into [dst] when that is a directory (raising
    if the name is taken there), else onto [dst]; a directory moves neither
    into itself nor onto a regular file. *)
Definition move (src dst : path) (fs : node) : option node :=
  match lookup src fs with
  | Some t =>
      let real_dst :=
        if is_dir dst fs then dst ++ [PyPath.name src] else dst in
      if is_dir dst fs && exists_ real_dst fs then None
      else if bool_decide (real_dst = src) then Some fs
      else if is_dir src fs
              && (bool_decide (src `prefix_of` real_dst) || is_file real_dst fs)
      then None
      else fs1 ← put real_dst t fs; remove src fs1
  | None => None
  end.

End FS.

(** ** What [mutagen.File] returns

    [File] returns [None] for content of no known type, raises on an I/O or
    parse error, and else returns an object whose [tags] is absent, [None] or
    a tag container.  The containers of mutagen are dict-like; [TagsOpaque]
    stands for a non-empty tag object without a [get] attribute.  A frame is
    modelled by the list of its text values. *)
Inductive tags :=
| TagsOpaque
| TagsDict (frames : gmap string (list string)).

Inductive audio := Audio (audio_tags : option tags).

Definition tags_truthy (t : tags) : bool :=
  match t with
  | TagsOpaque => true
  | TagsDict d => negb (bool_decide (d = ∅))
  end.

(** ** Metadata *)
Record metadata := {
  title : string;
  artist : string;
  album : string;
  year : option string
}.

(** The four variables [title], [artist], [album], [year] of
    [extract_metadata_from_files], each [None] or a [str]. *)
Record tag_fields := {
  t_title : option string;
  t_artist : option string;
  t_album : option string;
  t_year : option string
}.

Definition no_fields : tag_fields :=
  {| t_title := None; t_artist := None; t_album := None; t_year := None |}.

(** Truth value of a variable that holds [None] or a [str]. *)
Definition opt_truthy (o : option string) : bool :=
  match o with Some s => PyStr.truthy s | None => false end.

(** [x.strip() if x else None]. *)
Definition clean (o : option string) : option string :=
  if opt_truthy o then PyStr.strip <$> o else None.

(** [tags.get(key, [''])] and [frame[0]], which raises on an empty frame. *)
Definition tag_get (d : gmap string (list string)) (key : string) : list string :=
  default [""] (d !! key).

Definition first (frame : list string) : res string :=
  match frame with x :: _ => Ok x | [] => Raise OtherException end.

(** The branch under [if hasattr(audio_file, 'tags') and audio_file.tags]:
    the generic branch calls [get] on an object that has none and raises. *)
Definition read_tags (a : audio) : res tag_fields :=
  match a with
  | Audio (Some t) =>
      if tags_truthy t then
        match t with
        | TagsDict d =>
            tit2 ← first (tag_get d "TIT2");
            title ← (if PyStr.truthy tit2 then Ok tit2
                      else first (tag_get d "TALB"));
            artist ← first (tag_get d "TPE1");
            album ← first (tag_get d "TALB");
            year ← (match tag_get d "TDRC" with
                     | [] => Ok None
                     | y :: _ => Ok (Some y)
                     end);
            Ok {| t_title := Some title; t_artist := Some artist;
                  t_album := Some album; t_year := year |}
        | TagsOpaque => Raise OtherException
        end
      else Ok no_fields
  | Audio None => Ok no_fields
  end.

Definition clean_fields (f : tag_fields) : tag_fields :=
  {| t_title := clean (t_title f); t_artist := clean (t_artist f);
     t_album := clean (t_album f); t_year := clean (t_year f) |}.

(** The job outcomes of [process_audiobook], one per final log line. *)
Inductive job_end :=
| NoMetadata          (* error: Could not extract metadata *)
| SkippedDuplicate    (* info: M4B already exists, skipping *)
| Converted           (* info: Conversion complete *)
| ConversionFailed    (* error: Conversion failed *)
| Errored.            (* error: Error processing *)

(** ** Stateful code: a state and exception monad over the file system *)
Definition M (A : Type) : Type := node → res A * node.

Definition ret {A} (a : A) : M A := λ fs, (Ok a, fs).

#[global] Instance M_bind : MBind M := λ A B k m fs,
  match m fs with
  | (Ok a, fs') => k a fs'
  | (Raise e, fs') => (Raise e, fs')
  end.

Definition get_fs : M node := λ fs, (Ok fs, fs).

(** A file-system call: [None] is an [OSError] and leaves the state alone. *)
Definition fs_op (f : node → option node) : M unit :=
  λ fs, match f fs with
        | Some fs' => (Ok tt, fs')
        | None => (Raise OSError, fs)
        end.

(** [try: m except Exception as e: handler e]. *)
Definition catch {A} (m : M A) (handler : exn → M A) : M A :=
  λ fs, match m fs with
        | (Ok a, fs') => (Ok a, fs')
        | (Raise e, fs') => handler e fs'
        end.

(** [try: m finally: cleanup]: an exception of [cleanup] replaces the
    outcome of [m]. *)
Definition finally {A} (m : M A) (cleanup : M unit) : M A :=
  λ fs, match m fs with
        | (r, fs') =>
            match cleanup fs' with
            | (Ok _, fs'') => (r, fs'')
            | (Raise e, fs'') => (Raise e, fs'')
            end
        end.

Definition nl : string := String (ascii_of_nat 10) "".

(** The text [yaml.dump] writes for the transient beets configuration (keys
    in sorted order, block style, plain scalars). *)
Definition beets_config_yaml (directory library : string) : string :=
  PyStr.join nl
    ["audible:"; "  fetch_art: true"; "  source_weight: 0.8"; "  timeout: 30";
     "directory: " +:+ directory;
     "import:"; "  autotag: true"; "  copy: false"; "  move: false";
     "  quiet_fallback: skip"; "  write: true";
     "library: " +:+ library;
     "match:"; "  preferred:"; "    countries:"; "    - US"; "    - GB";
     "    - DE"; "    media:"; "    - Digital Media|File"; "    - CD";
     "plugins:"; "- audible"; ""].

(** ** The methods of [AudiobookConverter] *)
Section Converter.

(** [self.config], [mutagen.File] on a file name and the bytes of the file,
    and [subprocess.run] on a command line: its return code or exception,
    and what the process did to the file system. *)
Context (cfg : config).
Context (mutagen_File : string → string → res (option audio)).
Context (subprocess_run : list string → node → res Z * node).

(** [sorted(list(p.glob("*.mp3")) + list(p.glob("*.m4a")))]. *)
Definition audio_files (fs : node) (p : path) : list path :=
  FS.sorted (FS.glob (PyStr.endswith ".mp3") p fs
             ++ FS.glob (PyStr.endswith ".m4a") p fs).

(** [File(str(p))]: opening a directory or a missing file raises. *)
Definition open_audio (fs : node) (p : path) : res (option audio) :=
  match FS.lookup p fs with
  | Some (File data) => mutagen_File (PyPath.to_str p) data
  | _ => Raise OSError
  end.

(** Lines 179-192: the fallback to the folder structure. *)
Definition structure_fallback (book_path : path) (f : tag_fields) : tag_fields :=
  match detect_input_structure cfg book_path with
  | Structured author book =>
      let artist :=
        if negb (opt_truthy (t_artist f)) then Some author else t_artist f in
      if negb (opt_truthy (t_title f)) && negb (opt_truthy (t_album f))
      then {| t_title := Some book; t_artist := artist;
              t_album := Some book; t_year := t_year f |}
      else {| t_title := t_title f; t_artist := artist;
              t_album := t_album f; t_year := t_year f |}
  | Flat _ =>
      if negb (opt_truthy (t_title f)) && negb (opt_truthy (t_album f))
      then {| t_title := Some (PyPath.name book_path); t_artist := t_artist f;
              t_album := Some (PyPath.name book_path); t_year := t_year f |}
      else f
  end.

(** Lines 194-207: the final defaults and the returned record. *)
Definition final_fallback (book_path : path) (f : tag_fields) : metadata :=
  let artist :=
    if negb (opt_truthy (t_artist f)) then "Unknown Author"
    else default "" (t_artist f) in
  let title :=
    if negb (opt_truthy (t_title f)) then PyPath.name book_path
    else default "" (t_title f) in
  let album :=
    if negb (opt_truthy (t_album f)) then title
    else default "" (t_album f) in
  {| title := title; artist := artist; album := album; year := t_year f |}.

(** The body of the [try] block, lines 147-207. *)
Definition extract_try (fs : node) (book_path first_file : path)
  : res (option metadata) :=
  audio_file ← open_audio fs first_file;
  match audio_file with
  | None => Ok None
  | Some a =>
      f ← read_tags a;
      Ok (Some (final_fallback book_path
                  (structure_fallback book_path (clean_fields f))))
  end.

(** The [except] block, lines 209-227. *)
Definition extract_except (book_path : path) : metadata :=
  match detect_input_structure cfg book_path with
  | Structured author book =>
      {| title := book; artist := author; album := book; year := None |}
  | Flat _ =>
      {| title := PyPath.name book_path; artist := "Unknown Author";
         album := PyPath.name book_path; year := None |}
  end.

Definition extract_metadata_from_files (fs : node) (book_path : path)
  : option metadata :=
  match audio_files fs book_path with
  | [] => None
  | first_file :: _ =>
      match extract_try fs book_path first_file with
      | Ok r => r
      | Raise _ => Some (extract_except book_path)
      end
  end.

(** The directory and the file name [create_output_structure] returns;
    [metadata.get('album', book_title)] is the album, which is always
    present. *)
Definition output_book_dir (md : metadata) : path :=
  output_dir cfg /: sanitize_filename cfg (artist md)
                 /: sanitize_filename cfg (album md).

Definition m4b_filename (md : metadata) : string :=
  sanitize_filename cfg (album md) +:+ ".m4b".

Definition create_output_structure (md : metadata) (book_title : string)
  : M (path * string) :=
  fs_op (FS.mkdir_p (output_book_dir md));;
  ret (output_book_dir md, m4b_filename md).

(** The job-scoped paths under the temp directory. *)
Definition staged_path (book_path : path) : path :=
  temp_dir cfg /: ("processing_" +:+ PyPath.name book_path).

Definition beets_library (book_path : path) : path :=
  temp_dir cfg /: ("beets_" +:+ PyPath.name book_path +:+ ".db").

Definition beets_config_file (book_path : path) : path :=
  temp_dir cfg /: ("beets_config_" +:+ PyPath.name book_path +:+ ".yaml").

Definition file_list_path (book_path : path) : path :=
  temp_dir cfg /: (PyPath.name book_path +:+ "_files.txt").

Definition beets_cmd (book_path : path) : list string :=
  ["beet"; "-c"; PyPath.to_str (beets_config_file book_path); "import"; "-q";
   PyPath.to_str book_path].

Definition tag_with_beets (book_path : path) (initial_metadata : metadata)
  : M metadata :=
  fs_op (FS.write_file (beets_config_file book_path)
           (beets_config_yaml (PyPath.to_str (PyPath.parent book_path))
                              (PyPath.to_str (beets_library book_path))));;
  finally
    (catch
       (returncode ← subprocess_run (beets_cmd book_path);
        if returncode =? 0 then
          fs ← get_fs;
          match extract_metadata_from_files fs book_path with
          | Some updated_metadata => ret updated_metadata
          | None => ret initial_metadata
          end
        else ret initial_metadata)
       (λ _, ret initial_metadata))
    (fs_op (FS.unlink_missing_ok (beets_config_file book_path));;
     fs_op (FS.unlink_missing_ok (beets_library book_path))).

(** One line of the concat list: single quotes are escaped for ffmpeg. *)
Definition file_list_line (audio_file : path) : string :=
  let q := String PyStr.quote "" in
  "file '" +:+ PyStr.replace_char "'" ("'" +:+ q +:+ "'" +:+ q +:+ "'")
                 (PyPath.to_str audio_file) +:+ "'" +:+ nl.

Definition cover_files (fs : node) (book_path : path) : list path :=
  FS.glob (PyStr.startswith "cover.") book_path fs
  ++ FS.glob (PyStr.startswith "folder.") book_path fs
  ++ FS.glob (PyStr.endswith ".jpg") book_path fs
  ++ FS.glob (PyStr.endswith ".png") book_path fs.

Definition ffmpeg_cmd (fs : node) (book_path : path) (md : metadata)
    (output_file : path) : list string :=
  ["ffmpeg"; "-y"; "-f"; "concat"; "-safe"; "0";
   "-i"; PyPath.to_str (file_list_path book_path);
   "-c:a"; audio_codec cfg; "-b:a"; audio_bitrate cfg;
   "-movflags"; "+faststart";
   "-metadata"; "title=" +:+ title md;
   "-metadata"; "artist=" +:+ artist md;
   "-metadata"; "album=" +:+ album md]
  ++ (if opt_truthy (year md)
      then ["-metadata"; "year=" +:+ default "" (year md)] else [])
  ++ (if bool_decide (quality_profile cfg = "high")
      then ["-afterburner"; "1"; "-cutoff"; "20000"; "-profile:a"; "aac_he_v2"]
      else if bool_decide (quality_profile cfg = "medium")
      then ["-cutoff"; "15000"] else [])
  ++ (match cover_files fs book_path with
      | c :: _ => ["-i"; PyPath.to_str c; "-c:v"; "copy";
                   "-disposition:v"; "attached_pic"]
      | [] => []
      end)
  ++ [PyPath.to_str output_file].

(** Lines 393-471.  The concat list is opened and written before the [try]
    block.  Its text is written in one step: after [open] succeeded a write
    fails only on a name that the encoding of the file cannot encode, and
    the names of this model, strings of code points below 256, are not such
    names. *)
Definition convert_to_m4b_ffmpeg712 (book_path : path) (md : metadata)
    (output_filename : string) : M (option path) :=
  fs ← get_fs;
  match audio_files fs book_path with
  | [] => ret None
  | files =>
      let output_file := temp_dir cfg /: output_filename in
      fs_op (FS.write_file (file_list_path book_path)
               (PyStr.join "" (file_list_line <$> files)));;
      fs1 ← get_fs;
      catch
        (returncode ← subprocess_run (ffmpeg_cmd fs1 book_path md output_file);
         fs2 ← get_fs;
         if (returncode =? 0) && FS.exists_ output_file fs2 then
           fs_op (FS.unlink_missing_ok (file_list_path book_path));;
           ret (Some output_file)
         else ret None)
        (λ _, ret None)
  end.

(** The success branch of step 6: move the file to its destination, remove
    the original and the staged copy. *)
Definition commit (book_path temp_book_path temp_m4b_file final_m4b_path : path)
  : M job_end :=
  fs_op (FS.move temp_m4b_file final_m4b_path);;
  fs_op (FS.rmtree book_path);;
  fs_op (FS.rmtree temp_book_path);;
  ret Converted.

(** Steps 5 and 6 of [process_audiobook]: transcode, then commit and clean
    up. *)
Definition convert_and_commit (book_path temp_book_path : path)
    (enhanced_metadata : metadata) (filename : string) (final_m4b_path : path)
  : M job_end :=
  temp_m4b_file ← convert_to_m4b_ffmpeg712 temp_book_path enhanced_metadata
                    filename;
  fs ← get_fs;
  match temp_m4b_file with
  | Some f =>
      if FS.exists_ f fs
      then commit book_path temp_book_path f final_m4b_path
      else ret ConversionFailed
  | None => ret ConversionFailed
  end.

(** Step 3: copy the book to the temp directory, over a stale copy. *)
Definition stage (book_path : path) : M unit :=
  fs ← get_fs;
  (if FS.exists_ (staged_path book_path) fs
   then fs_op (FS.rmtree (staged_path book_path)) else ret tt);;
  fs_op (FS.copytree book_path (staged_path book_path)).

(** Step 4: tagging, when the configuration asks for it. *)
Definition enrich (temp_book_path : path) (md : metadata) : M metadata :=
  if enable_audible cfg && tag_before_conversion cfg
  then tag_with_beets temp_book_path md else ret md.

(** Steps 3 to 6. *)
Definition stage_and_convert (book_path : path) (md : metadata)
    (filename : string) (final_m4b_path : path) : M job_end :=
  stage book_path;;
  enhanced_metadata ← enrich (staged_path book_path) md;
  convert_and_commit book_path (staged_path book_path) enhanced_metadata
    filename final_m4b_path.

(** From the check for an existing output file on: skip, or steps 3 to 6. *)
Definition skip_or_convert (book_path : path) (md : metadata)
    (output_book_dir : path) (filename : string) : M job_end :=
  let final_m4b_path := output_book_dir /: filename in
  fs ← get_fs;
  if FS.exists_ final_m4b_path fs then
    fs_op (FS.rmtree book_path);;
    ret SkippedDuplicate
  else stage_and_convert book_path md filename final_m4b_path.

Definition process_audiobook (book_path : path) : M job_end :=
  catch
    (fs ← get_fs;
     match extract_metadata_from_files fs book_path with
     | None => ret NoMetadata
     | Some md =>
         '(output_book_dir, filename) ←
           create_output_structure md (PyPath.name book_path);
         skip_or_convert book_path md output_book_dir filename
     end)
    (λ _, ret Errored).

End Converter.

(** ** A small concrete world, for evaluating the model *)
Module Demo.

Definition dir_of (l : list (string * node)) : node := Dir (list_to_map l).

(** A stand-in for [mutagen.File]: empty content has no known type, the
    content [corrupt] fails to parse, [titled] carries a title frame only,
    [tagged] carries title, artist and album, anything else has no tags. *)
Definition mutagen_File (fname data : string) : res (option audio) :=
  if bool_decide (data = "") then Ok None
  else if bool_decide (data = "corrupt") then Raise OtherException
  else if bool_decide (data = "titled")
  then Ok (Some (Audio (Some (TagsDict {[ "TIT2" := ["Chapter 1"] ]}))))
  else if bool_decide (data = "tagged")
  then Ok (Some (Audio (Some (TagsDict
         (<[ "TIT2" := ["It"] ]> (<[ "TPE1" := ["Stephen King"] ]>
            {[ "TALB" := ["It"] ]}))))))
  else Ok (Some (Audio None)).

(** Tools that fail: a non-zero exit status, a timeout. *)
Definition run_exit1 (cmd : list string) (fs : node) : res Z * node := (Ok 1, fs).
Definition run_timeout (cmd : list string) (fs : node) : res Z * node :=
  (Raise TimeoutExpired, fs).

(** [beet] fails; [ffmpeg] writes its last argument and succeeds. *)
Definition run_beet_fails (cmd : list string) (fs : node) : res Z * node :=
  if bool_decide (head cmd = Some "ffmpeg") then
    match FS.write_file (PyPath.parse_parts (List.last cmd "")) "m4b" fs with
    | Some fs' => (Ok 0, fs')
    | None => (Ok 1, fs)
    end
  else (Ok 1, fs).

Definition jane : path := ["input"; "Jane Doe"; "My Book"].

(** [input/Jane Doe/My Book] with two tagless tracks. *)
Definition fs_tagless : node :=
  dir_of [("input", dir_of [("Jane Doe", dir_of [("My Book",
             dir_of [("02.mp3", File "x"); ("01.mp3", File "x")])])]);
          ("output", dir_of []); ("temp", dir_of [])].

(** The same book, the first track with a title frame and no album. *)
Definition fs_titled : node :=
  dir_of [("input", dir_of [("Jane Doe", dir_of [("My Book",
             dir_of [("02.mp3", File "x"); ("01.mp3", File "titled")])])]);
          ("output", dir_of []); ("temp", dir_of [])].

(** A book whose only track is an [.m4a] of unknown content. *)
Definition fs_unknown : node :=
  dir_of [("input", dir_of [("Book", dir_of [("01.m4a", File "")])]);
          ("output", dir_of []); ("temp", dir_of [])].

(** A flat book whose first track cannot be parsed. *)
Definition fs_corrupt : node :=
  dir_of [("input", dir_of [("Book One", dir_of [("01.mp3", File "corrupt")])]);
          ("output", dir_of []); ("temp", dir_of [])].

(** A book that was converted before: the output file is there. *)
Definition fs_done : node :=
  dir_of [("input", dir_of [("Stephen King", dir_of [("It",
             dir_of [("01.mp3", File "tagged")])])]);
          ("output", dir_of [("Stephen King", dir_of [("It",
             dir_of [("It.m4b", File "m4b")])])]);
          ("temp", dir_of [("keep.txt", File "k")])].

Definition king : path := ["input"; "Stephen King"; "It"].

Definition cfg_raw : config := {|
  input_dir := ["input"]; output_dir := ["output"]; temp_dir := ["temp"];
  audio_bitrate := "64k"; audio_codec := "libfdk_aac";
  quality_profile := "high"; enable_audible := true;
  tag_before_conversion := true; sanitize_names := false;
  max_filename_length := 3
|}.

Definition cfg_negative : config := {|
  input_dir := ["input"]; output_dir := ["output"]; temp_dir := ["temp"];
  audio_bitrate := "64k"; audio_codec := "libfdk_aac";
  quality_profile := "high"; enable_audible := true;
  tag_before_conversion := true; sanitize_names := true;
  max_filename_length := -1
|}.

(** The record of the tagless book, and the states its job goes through
    when the tools time out: after planning, after staging and tagging, and
    after the failed conversion. *)
Definition md_jane : metadata :=
  {| title := "My Book"; artist := "Jane Doe"; album := "My Book";
     year := None |}.

Definition fs_planned : node :=
  (create_output_structure default_config md_jane "My Book" fs_tagless).2.

Definition fs_staged : node := (stage default_config jane fs_planned).2.

Definition fs_tagged : node :=
  (enrich default_config mutagen_File run_timeout
     (staged_path default_config jane) md_jane fs_staged).2.

Definition fs_failed : node :=
  (convert_to_m4b_ffmpeg712 default_config run_timeout
     (staged_path default_config jane) md_jane "My Book.m4b" fs_tagged).2.

(** The state in which the tagging tool runs: the staged copy and the
    transient beets configuration are in place. *)
Definition fs_configured : node :=
  default fs_staged
    (FS.write_file
       (beets_config_file default_config (staged_path default_config jane))
       (beets_config_yaml
          (PyPath.to_str (PyPath.parent (staged_path default_config jane)))
          (PyPath.to_str
             (beets_library default_config (staged_path default_config jane))))
       fs_staged).

End Demo.

(** ** Vocabulary of the statements *)

(** A supported audio file name, and a directory that holds one. *)
Definition is_audio_name (n : string) : bool :=
  PyStr.endswith ".mp3" n || PyStr.endswith ".m4a" n.

Definition has_audio (fs : node) (p : path) : Prop :=
  ∃ n, is_audio_name n = true ∧ is_Some (FS.lookup (p ++ [n]) fs).

(** An audio file without embedded tags: no [tags], or an empty container. *)
Definition tagless (a : audio) : Prop :=
  match a with
  | Audio None => True
  | Audio (Some t) => tags_truthy t = false
  end.

(** The two states agree everywhere beside [T], its ancestors and what lies
    below it. *)
Definition only_under (T : path) (fs fs' : node) : Prop :=
  ∀ q, PyPath.unrelated T q → FS.lookup q fs' = FS.lookup q fs.

(** The directory [q], if there, is still there; and so for every
    directory. *)
Definition keeps_dir (q : path) (fs fs' : node) : Prop :=
  FS.is_dir q fs = true → FS.is_dir q fs' = true.

Definition keeps_dirs (fs fs' : node) : Prop := ∀ q, keeps_dir q fs fs'.

(** A computation whose every run relates the state before to the state
    after. *)
Definition respects (R : node → node → Prop) {A} (m : M A) : Prop :=
  ∀ fs, R fs (m fs).2.

(** White space in normal form: every white-space character is a single
    space that follows no other white space ([in_run]: the character before
    was white space). *)
Fixpoint ws_normal (in_run : bool) (s : string) : bool :=
  match s with
  | "" => true
  | String c s' =>
      if PyStr.is_space c
      then bool_decide (c = " "%char) && negb in_run && ws_normal true s'
      else ws_normal false s'
  end.
(** No white space at the start. *)
Definition starts_clean (s : string) : bool :=
  match s with "" => true | String c _ => negb (PyStr.is_space c) end.

(** The order [sorted] puts paths in, as a relation. *)
Definition path_le (p q : path) : Prop := Is_true (FS.path_leb p q).

(** A configuration whose temp directory does not exist in the concrete
    world, and the state after a successful conversion of the staged copy. *)
Definition cfg_no_temp : config := {|
  input_dir := ["input"]; output_dir := ["output"]; temp_dir := ["missing"];
  audio_bitrate := "64k"; audio_codec := "libfdk_aac";
  quality_profile := "high"; enable_audible := true;
  tag_before_conversion := true; sanitize_names := true;
  max_filename_length := 200
|}.

Definition fs_converted : node :=
  (convert_to_m4b_ffmpeg712 default_config Demo.run_beet_fails
     (staged_path default_config Demo.jane) Demo.md_jane "My Book.m4b"
     Demo.fs_staged).2.

Definition fs_committed : node :=
  (process_audiobook default_config Demo.mutagen_File Demo.run_beet_fails
     Demo.jane Demo.fs_tagless).2.

(** ** Start-up and the scan of the input directory *)

(** The loop of [__init__]: the input, output and temp directories are made
    when the converter is built. *)
Definition ensure_directories (cfg : config) : M unit :=
  fs_op (FS.mkdir_p (input_dir cfg));;
  fs_op (FS.mkdir_p (output_dir cfg));;
  fs_op (FS.mkdir_p (temp_dir cfg)).

(** A regular file lies at [p] or above it. *)
Definition file_in_the_way (p : path) (fs : node) : bool :=
  FS.not_a_directory p fs || FS.is_file p fs.

(** What a scan did: the directories it handed to [process_audiobook], in
    order, and how each job ended. *)
Definition job_log : Type := list (path * job_end).

Section Scanner.
Context (cfg : config).
Context (mutagen_File : string → string → res (option audio)).
Context (subprocess_run : list string → node → res Z * node).

(** The order in which the operating system lists the names of a
    directory. *)
Context (listing_order : list string → list string).

(** [for x in p.iterdir()]: the directory is listed when the loop starts;
    listing what is no directory raises. *)
Definition iterdir (p : path) : M (list path) :=
  λ fs, if FS.is_dir p fs
        then (Ok ((λ n, p ++ [n]) <$> listing_order (FS.listdir p fs)), fs)
        else (Raise OSError, fs).

(** [list(p.glob("*.mp3")) + list(p.glob("*.m4a"))]. *)
Definition found_audio (fs : node) (p : path) : list path :=
  FS.glob (PyStr.endswith ".mp3") p fs ++ FS.glob (PyStr.endswith ".m4a") p fs.

Definition process_if_audio (p : path) : M job_log :=
  fs ← get_fs;
  match found_audio fs p with
  | [] => ret []
  | _ => o ← process_audiobook cfg mutagen_File subprocess_run p; ret [(p, o)]
  end.

(** The body of the loops of [scan_for_books]. *)
Definition process_if_book (p : path) : M job_log :=
  fs ← get_fs;
  if FS.is_dir p fs then process_if_audio p else ret [].

Fixpoint for_each {A} (body : A → M job_log) (l : list A) : M job_log :=
  match l with
  | [] => ret []
  | a :: l' => r ← body a; rs ← for_each body l'; ret (r ++ rs)
  end.

(** The first loop: [input_dir/Book]. *)
Definition scan_flat : M job_log :=
  items ← iterdir (input_dir cfg);
  for_each process_if_book items.

(** The second loop: [input_dir/Author/Book]. *)
Definition scan_author (author_dir : path) : M job_log :=
  fs ← get_fs;
  if FS.is_dir author_dir fs
  then book_dirs ← iterdir author_dir; for_each process_if_book book_dirs
  else ret [].

Definition scan_nested : M job_log :=
  author_dirs ← iterdir (input_dir cfg);
  for_each scan_author author_dirs.

Definition scan_for_books : M job_log :=
  flat ← scan_flat;
  nested ← scan_nested;
  ret (flat ++ nested).

(** A log entry for a directory [lo] to [hi] levels below the input
    directory. *)
Definition below_input (lo hi : nat) (e : path * job_end) : Prop :=
  ∃ rel, e.1 = input_dir cfg ++ rel ∧ (lo ≤ length rel ≤ hi)%nat.

End Scanner.

(** Worlds for the scan: a flat book beside a structured one, and a
    configuration whose input directory is where the staged copy of the book
    [b] goes. *)
Definition fs_two_books : node :=
  Demo.dir_of
    [("input", Demo.dir_of
        [("Flat Book", Demo.dir_of [("01.mp3", File "x")]);
         ("Jane Doe", Demo.dir_of [("My Book",
            Demo.dir_of [("02.mp3", File "x"); ("01.mp3", File "x")])])]);
     ("output", Demo.dir_of []); ("temp", Demo.dir_of [])].

Definition cfg_input_in_temp : config := {|
  input_dir := ["temp"; "processing_b"]; output_dir := ["output"];
  temp_dir := ["temp"];
  audio_bitrate := "64k"; audio_codec := "libfdk_aac";
  quality_profile := "high"; enable_audible := true;
  tag_before_conversion := true; sanitize_names := true;
  max_filename_length := 200
|}.

Definition fs_input_in_temp : node :=
  Demo.dir_of
    [("temp", Demo.dir_of [("processing_b", Demo.dir_of
        [("b", Demo.dir_of [("01.mp3", File "x")])])]);
     ("output", Demo.dir_of [])].

(** ** [load_config]

    What [yaml.safe_load] returns: scalars, lists and mappings.  Only the
    string keys of a mapping are kept (no other key is equal to a [str]);
    dates, binaries and sets are not modelled, and neither are documents
    with anchors, where two sections are one object. *)
#[warnings="-register-all"]
Inductive yaml :=
| YNull
| YBool (b : bool)
| YInt (n : Z)
| YFloat (repr : string)
| YStr (s : string)
| YSeq (items : list yaml)
| YMap (entries : gmap string yaml).

(** [sub in s] for two [str]. *)
Fixpoint str_contains (sub s : string) : bool :=
  PyStr.startswith sub s
  || match s with "" => false | String _ s' => str_contains sub s' end.

Definition is_str (key : string) (v : yaml) : bool :=
  match v with YStr s => bool_decide (s = key) | _ => false end.

(** [key in container], [container[key] = value] and [container[key]] for a
    [str] key; a [TypeError] or [KeyError] is [OtherException]. *)
Definition py_in (key : string) (container : yaml) : res bool :=
  match container with
  | YMap m => Ok (bool_decide (is_Some (m !! key)))
  | YStr s => Ok (str_contains key s)
  | YSeq l => Ok (existsb (is_str key) l)
  | _ => Raise OtherException
  end.

Definition py_setitem (key : string) (value container : yaml) : res yaml :=
  match container with
  | YMap m => Ok (YMap (<[key := value]> m))
  | _ => Raise OtherException
  end.

Definition py_getitem (key : string) (container : yaml) : res yaml :=
  match container with
  | YMap m =>
      match m !! key with Some v => Ok v | None => Raise OtherException end
  | _ => Raise OtherException
  end.

(** A dict literal. *)
Definition dict_of (l : list (string * yaml)) : yaml := YMap (list_to_map l).

(** The sections of [default_config], in the order of the literal. *)
Definition default_sections : list (string * list (string * yaml)) :=
  [("directories",
    [("input", YStr "/input"); ("output", YStr "/output");
     ("temp", YStr "/temp")]);
   ("conversion",
    [("audio_bitrate", YStr "64k"); ("audio_codec", YStr "libfdk_aac");
     ("max_chapter_length", YInt 900); ("jobs", YInt 4);
     ("quality_profile", YStr "high")]);
   ("beets",
    [("enable_audible", YBool true); ("auto_tag", YBool true);
     ("tag_before_conversion", YBool true); ("fetch_art", YBool true)]);
   ("output_structure",
    [("pattern", YStr "author/book/file"); ("sanitize_names", YBool true);
     ("max_filename_length", YInt 200)]);
   ("logging",
    [("level", YStr "INFO"); ("file", YStr "/logs/converter.log")])].

Definition default_config_dict : yaml :=
  dict_of (prod_map id dict_of <$> default_sections).

(** A [for] loop over a list that updates [config] and stops at the first
    exception. *)
Fixpoint for_items {B} (body : yaml → B → res yaml) (l : list B)
    (config : yaml) : res yaml :=
  match l with
  | [] => Ok config
  | b :: l' => config' ← body config b; for_items body l' config'
  end.

(** The body of the inner loop: [if subkey not in config[key]:
    config[key][subkey] = subvalue]. *)
Definition merge_subkey (key : string) (config : yaml)
    (item : string * yaml) : res yaml :=
  sec ← py_getitem key config;
  present ← py_in item.1 sec;
  if present : bool then Ok config
  else
    sec' ← py_setitem item.1 item.2 sec;
    py_setitem key sec' config.

(** The body of the outer loop; every default value is a dict. *)
Definition merge_key (config : yaml)
    (item : string * list (string * yaml)) : res yaml :=
  present ← py_in item.1 config;
  if present : bool then for_items (merge_subkey item.1) item.2 config
  else py_setitem item.1 (dict_of item.2) config.

Definition merge_with (defaults : list (string * list (string * yaml)))
    (config : yaml) : res yaml :=
  for_items merge_key defaults config.

Definition merge_defaults : yaml → res yaml := merge_with default_sections.

Section LoadConfig.

(** [yaml.safe_load] on the text of a file, and the text [yaml.dump]
    writes. *)
Context (yaml_safe_load : string → res yaml).
Context (yaml_dump : yaml → string).

(** [open(config_path)] raises [FileNotFoundError] when nothing is at the
    path and no regular file is on the way to it; the other failures of
    [open] are not handled. *)
Definition load_config (config_path : path) : M yaml :=
  λ fs,
    match FS.lookup config_path fs with
    | Some (File data) =>
        (config ← yaml_safe_load data; merge_defaults config, fs)
    | Some (Dir _) => (Raise OSError, fs)
    | None =>
        if FS.not_a_directory config_path fs then (Raise OSError, fs)
        else
          (fs_op (FS.mkdir_p (PyPath.parent config_path));;
           fs_op (FS.write_file config_path (yaml_dump default_config_dict));;
           ret default_config_dict) fs
    end.

End LoadConfig.

(** The default section of a key, if there is one. *)
Definition section_defaults (defaults : list (string * list (string * yaml)))
    (key : string) : option (list (string * yaml)) :=
  (list_to_map defaults : gmap string (list (string * yaml))) !! key.

(** What the merge amounts to for one key of the document: a section of
    the user is completed by the defaults of that section, key by key; any
    other value of the user stays; a missing section is the default one. *)
Definition merged_entry (user : option yaml)
    (dflt : option (list (string * yaml))) : option yaml :=
  match user, dflt with
  | Some (YMap u), Some d => Some (YMap (u ∪ list_to_map d))
  | Some v, _ => Some v
  | None, Some d => Some (dict_of d)
  | None, None => None
  end.

(** [subkey] is found in the section [key] of [config]; the merge has
    nothing to add to [config]; and whatever is found in [c] is found in
    [c']. *)
Definition has_subkey (config : yaml) (key subkey : string) : Prop :=
  ∃ sec, py_getitem key config = Ok sec ∧ py_in subkey sec = Ok true.

Definition complete (defaults : list (string * list (string * yaml)))
    (config : yaml) : Prop :=
  ∀ key d, (key, d) ∈ defaults →
    py_in key config = Ok true
    ∧ ∀ sk sv, (sk, sv) ∈ d → has_subkey config key sk.

Definition grows (c c' : yaml) : Prop :=
  (∀ key, py_in key c = Ok true → py_in key c' = Ok true)
  ∧ (∀ key sk, has_subkey c key sk → has_subkey c' key sk).

(** A document that sets one directory and one key of its own, a document
    with an empty section, and a stand-in for the YAML library that reads
    back what it wrote. *)
Definition doc_partial : yaml :=
  dict_of [("directories", dict_of [("input", YStr "/books")]);
           ("custom", YInt 1)].

Definition doc_partial_merged : yaml :=
  dict_of
    ([("directories",
       dict_of [("input", YStr "/books"); ("output", YStr "/output");
                ("temp", YStr "/temp")]);
      ("custom", YInt 1)]
     ++ (prod_map id dict_of <$> tail default_sections)).

Definition doc_null_section : yaml := dict_of [("logging", YNull)].

Definition toy_dump (v : yaml) : string := "defaults".

Definition toy_safe_load (s : string) : res yaml :=
  if bool_decide (s = "defaults") then Ok default_config_dict
  else Raise OtherException.

Definition fs_no_config : node := Demo.dir_of [("input", Demo.dir_of [])].

(** ** The special name [..]

    [pathlib] keeps a component [..] as it is, and the operating system
    reads it as the parent of the directory reached so far.  The operations
    of [FS] take every component as the name of an entry: they are what the
    calls of the program do on a path without a component [..].  [OS] is
    what the calls do on any path; the two agree on the paths without
    [..] (see [resolve_plain], [exists_plain], [mkdir_p_plain]),
    and the statements that depend on where a path leads ask for such a
    path. *)
Definition dotdot_free (p : path) : Prop := ".." ∉ p.

Module OS.

(** The place a path leads to, from the directory [here]: [..] steps back
    to the parent of the directory reached so far, which must be there; the
    parent of the root is the root. *)
Fixpoint resolve_from (here p : path) (fs : node) : option path :=
  match p with
  | [] => Some here
  | c :: p' =>
      if bool_decide (c = "..")
      then if FS.is_dir here fs
           then resolve_from (PyPath.parent here) p' fs else None
      else resolve_from (here ++ [c]) p' fs
  end.

Definition resolve (p : path) (fs : node) : option path :=
  resolve_from [] p fs.

(** [p.exists()]. *)
Definition exists_ (p : path) (fs : node) : bool :=
  match resolve p fs with Some q => FS.exists_ q fs | None => false end.

(** [p.mkdir(parents=True, exist_ok=True)]: the directories on the way are
    made one after the other, and [..] steps back. *)
Fixpoint mkdir_from (here p : path) (fs : node) : option node :=
  match p with
  | [] => Some fs
  | c :: p' =>
      if bool_decide (c = "..") then mkdir_from (PyPath.parent here) p' fs
      else fs' ← FS.mkdir_p (here ++ [c]) fs; mkdir_from (here ++ [c]) p' fs'
  end.

Definition mkdir_p (p : path) (fs : node) : option node :=
  fs' ← FS.mkdir_p [] fs; mkdir_from [] p fs'.

End OS.

(** A record whose artist is [..], which the sanitizer keeps. *)
Definition md_dotdot : metadata :=
  {| title := "Esc"; artist := ".."; album := "Esc"; year := None |}.

(** A stand-in for [mutagen.File] whose tags carry an absolute album, and a
    world in which the output file planned from it is in the temp
    directory. *)
Definition mutagen_absolute_album (fname data : string) : res (option audio) :=
  Ok (Some (Audio (Some (TagsDict
       (<[ "TIT2" := ["T"] ]> (<[ "TPE1" := ["A"] ]>
          {[ "TALB" := ["/temp/a/b"] ]})))))).

Definition fs_absolute_album : node :=
  Demo.dir_of
    [("input", Demo.dir_of [("Book", Demo.dir_of [("01.mp3", File "x")])]);
     ("output", Demo.dir_of []);
     ("temp", Demo.dir_of [("a", Demo.dir_of [("b.m4b", File "old")])])].

(** A configuration whose temp directory is the root, a tagging tool that
    succeeds without doing anything, and the staged copy of a book [b]
    whose first track cannot be parsed. *)
Definition cfg_temp_root : config := {|
  input_dir := ["input"]; output_dir := ["output"]; temp_dir := [];
  audio_bitrate := "64k"; audio_codec := "libfdk_aac";
  quality_profile := "high"; enable_audible := true;
  tag_before_conversion := true; sanitize_names := true;
  max_filename_length := 200
|}.

Definition run_ok (cmd : list string) (fs : node) : res Z * node := (Ok 0, fs).

Definition fs_staged_at_root : node :=
  Demo.dir_of
    [("processing_b", Demo.dir_of [("01.mp3", File "corrupt")]);
     ("input", Demo.dir_of []); ("output", Demo.dir_of [])].

(** The same staged copy with a first track that has no tags. *)
Definition fs_tagless_at_root : node :=
  Demo.dir_of
    [("processing_b", Demo.dir_of [("01.mp3", File "x")]);
     ("input", Demo.dir_of []); ("output", Demo.dir_of [])].

(** * Properties *)

(** ** The model on concrete inputs *)

Example sanitize_filename_example :
  sanitize_filename default_config "  a<b>:  c/d?  " = "ab cd".
Proof. reflexivity. Qed.

Example sanitize_filename_backslash :
  sanitize_filename default_config "a\b|c*" = "abc".
Proof. reflexivity. Qed.

Example joinpath_examples :
  ["a"] /: "b/./c//d" = ["a"; "b"; "c"; "d"]
  ∧ ["a"] /: "/b" = ["b"] ∧ ["a"] /: "" = ["a"] ∧ ["a"] /: ".." = ["a"; ".."].
Proof. by vm_compute. Qed.

Example detect_input_structure_examples :
  detect_input_structure default_config ["input"; "Book One"] = Flat "Book One"
  ∧ detect_input_structure default_config Demo.jane
    = Structured "Jane Doe" "My Book".
Proof. by vm_compute. Qed.

Example audio_files_sorted :
  audio_files Demo.fs_tagless Demo.jane
  = [["input"; "Jane Doe"; "My Book"; "01.mp3"];
     ["input"; "Jane Doe"; "My Book"; "02.mp3"]].
Proof. by vm_compute. Qed.

Example staged_path_example :
  staged_path default_config Demo.jane = ["temp"; "processing_My Book"]
  ∧ beets_library default_config (staged_path default_config Demo.jane)
    = ["temp"; "beets_processing_My Book.db"]
  ∧ file_list_path default_config (staged_path default_config Demo.jane)
    = ["temp"; "processing_My Book_files.txt"].
Proof. by vm_compute. Qed.

(** ** Strings *)
Section PyStrFacts.
Import PyStr.

Lemma str_length_filter keep s : (String.length (filter keep s) ≤ String.length s)%nat.
Proof. induction s as [|c s IH]; simpl; [lia|]. destruct (keep c); simpl; lia. Qed.

Lemma str_all_filter keep s : all keep (filter keep s) = true.
Proof.
induction s as [|c s IH]; simpl; [done|].
destruct (keep c) eqn:E; simpl; [by rewrite E|done].
Qed.

Lemma str_all_lstrip p s : all p s = true → all p (lstrip s) = true.
Proof.
induction s as [|c s IH]; simpl; [done|].
intros [Hc Hs]%andb_prop. destruct (is_space c); [auto|].
simpl. by rewrite Hc, Hs.
Qed.

Lemma str_all_rstrip p s : all p s = true → all p (rstrip s) = true.
Proof.
induction s as [|c s IH]; simpl; [done|].
intros [Hc Hs]%andb_prop.
destruct (is_space c && is_empty (rstrip s)); simpl; [done|].
by rewrite Hc, IH.
Qed.

Lemma str_all_strip p s : all p s = true → all p (strip s) = true.
Proof. intros. by apply str_all_rstrip, str_all_lstrip. Qed.

Lemma str_all_take p n s : all p s = true → all p (take n s) = true.
Proof.
revert n. induction s as [|c s IH]; intros [|n]; simpl; try done.
intros [Hc Hs]%andb_prop. by rewrite Hc, IH.
Qed.

Lemma str_all_slice_to p n s : all p s = true → all p (slice_to n s) = true.
Proof. intros. unfold slice_to. destruct (0 <=? n); by apply str_all_take. Qed.

Lemma str_all_collapse_ws_go p b s :
p " "%char = true → all p s = true → all p (collapse_ws_go b s) = true.
Proof.
intros Hsp. revert b. induction s as [|c s IH]; intros b; simpl; [done|].
intros [Hc Hs]%andb_prop.
destruct (is_space c); [destruct b|]; cbn [all];
  rewrite ?Hsp, ?Hc; cbn [andb]; auto.
Qed.

Lemma str_length_take n s : (String.length (take n s) ≤ n)%nat.
Proof.
revert s. induction n as [|n IH]; intros [|c s]; simpl; try lia.
specialize (IH s). lia.
Qed.

Lemma str_length_rstrip s : (String.length (rstrip s) ≤ String.length s)%nat.
Proof.
induction s as [|c s IH]; simpl; [lia|].
destruct (is_space c && is_empty (rstrip s)); simpl; lia.
Qed.

Lemma str_truthy_nonempty s : truthy s = true ↔ s ≠ "".
Proof. destruct s; simpl; split; (done || congruence). Qed.

Lemma str_append_cons c s t : String c s +:+ t = String c (s +:+ t).
Proof. reflexivity. Qed.

Lemma str_append_nil_r s : s +:+ "" = s.
Proof. induction s as [|c s IH]; [done|]. by rewrite str_append_cons, IH. Qed.

Lemma str_length_append s t :
  String.length (s +:+ t) = (String.length s + String.length t)%nat.
Proof. induction s as [|c s IH]; [done|]. rewrite str_append_cons. simpl. lia. Qed.

(** Appending the same suffix is injective. *)
Lemma str_append_inj_r t s1 s2 : s1 +:+ t = s2 +:+ t → s1 = s2.
Proof.
  revert s2. induction s1 as [|c s1 IH]; intros [|d s2] H.
  - done.
  - apply (f_equal String.length) in H.
    rewrite !str_length_append in H. simpl in H. lia.
  - apply (f_equal String.length) in H.
    rewrite !str_length_append in H. simpl in H. lia.
  - rewrite !str_append_cons in H. injection H as -> H. f_equal. by apply IH.
Qed.

Lemma str_all_append p s t : all p (s +:+ t) = all p s && all p t.
Proof.
  induction s as [|c s IH]; [done|].
  rewrite str_append_cons. simpl. by rewrite IH, andb_assoc.
Qed.

End PyStrFacts.

(** ** Paths *)
Section PyPathFacts.
Import PyPath.

Lemma split_no_slash s : no_slash s = true → PyStr.split "/" s = [s].
Proof.
  induction s as [|c s IH]; simpl; [done|].
  intros [Hc Hs]%andb_prop. rewrite (IH Hs).
  apply negb_true_iff in Hc. by rewrite Hc.
Qed.

Lemma startswith_slash s : no_slash s = true → PyStr.startswith "/" s = false.
Proof.
  destruct s as [|c s]; simpl; [done|].
  intros [Hc _]%andb_prop. apply negb_true_iff in Hc.
  rewrite andb_true_r. apply bool_decide_eq_false.
  apply bool_decide_eq_false in Hc. congruence.
Qed.

Lemma parse_parts_valid s : valid_name s → parse_parts s = [s].
Proof.
  intros (Hne & Hdot & Hs). unfold parse_parts. rewrite (split_no_slash _ Hs).
  rewrite filter_cons_True by done. done.
Qed.

(** Joining a single valid component appends it. *)
Lemma joinpath_valid p s : valid_name s → p /: s = p ++ [s].
Proof.
  intros Hv. unfold joinpath. rewrite parse_parts_valid by done.
  destruct Hv as (_ & _ & Hs). by rewrite startswith_slash.
Qed.

Lemma name_snoc p s : name (p ++ [s]) = s.
Proof. unfold name. apply last_last. Qed.

Lemma parent_snoc p s : parent (p ++ [s]) = p.
Proof. unfold parent. apply removelast_last. Qed.

Lemma no_slash_name p : wf_path p → no_slash (name p) = true.
Proof.
  unfold name. induction 1 as [|s p Hs Hp IH]; [done|].
  destruct p; [apply Hs|apply IH].
Qed.

Lemma no_slash_append s t : no_slash (s +:+ t) = no_slash s && no_slash t.
Proof. apply str_all_append. Qed.

(** [prefix +:+ n +:+ suffix] is a valid component when the prefix is a
    non-empty word of length above one without slashes. *)
Lemma valid_name_wrapped c d pre n suf :
  no_slash (String c (String d pre)) = true → no_slash n = true →
  no_slash suf = true →
  valid_name (String c (String d pre) +:+ n +:+ suf).
Proof.
  intros Hp Hn Hs. split; [|split].
  - by rewrite !str_append_cons.
  - by rewrite !str_append_cons.
  - by rewrite !no_slash_append, Hp, Hn, Hs.
Qed.

Lemma unrelated_sym p q : unrelated p q → unrelated q p.
Proof. intros [??]. by split. Qed.

Lemma unrelated_app_l p r q : unrelated p q → unrelated (p ++ r) q.
Proof.
  intros [H1 H2]. split.
  - intros H. apply H1. by eapply prefix_app_l.
  - intros H.
    destruct (prefix_weak_total q p (p ++ r)) as [?|?]; try done.
    by apply prefix_app_r.
Qed.

Lemma unrelated_app_r p q r : unrelated p q → unrelated p (q ++ r).
Proof. intros. by apply unrelated_sym, unrelated_app_l, unrelated_sym. Qed.

Lemma unrelated_ne p q : unrelated p q → p ≠ q.
Proof. intros [H _] ->. by apply H. Qed.

End PyPathFacts.

(** ** [sanitize_filename] *)

Lemma sanitize_filename_disabled cfg s :
  sanitize_names cfg = false → sanitize_filename cfg s = s.
Proof. unfold sanitize_filename. by intros ->. Qed.

Lemma sanitize_filename_empty cfg : sanitize_filename cfg "" = "".
Proof.
  unfold sanitize_filename. destruct (sanitize_names cfg); [|done].
  cbn [negb PyStr.filter PyStr.collapse_ws PyStr.collapse_ws_go PyStr.strip
       PyStr.lstrip PyStr.rstrip String.length].
  destruct (_ >? _); [|done].
  unfold PyStr.slice_to.
  destruct (0 <=? max_filename_length cfg); by destruct (Z.to_nat _).
Qed.

Lemma sanitize_filename_no_reserved cfg s :
  sanitize_names cfg = true →
  PyStr.all (λ c, negb (is_reserved c)) (sanitize_filename cfg s) = true.
Proof.
  intros Hs. unfold sanitize_filename. rewrite Hs. cbn [negb].
  set (f := PyStr.strip _).
  assert (Hf : PyStr.all (λ c, negb (is_reserved c)) f = true).
  { apply str_all_strip, str_all_collapse_ws_go; [done|apply str_all_filter]. }
  destruct (_ >? _); [|done]. by apply str_all_rstrip, str_all_slice_to.
Qed.

Lemma sanitize_filename_length cfg s :
  sanitize_names cfg = true → 0 ≤ max_filename_length cfg →
  Z.of_nat (String.length (sanitize_filename cfg s)) ≤ max_filename_length cfg.
Proof.
  intros Hs Hmax. unfold sanitize_filename. rewrite Hs. cbn [negb].
  set (f := PyStr.strip _).
  destruct (Z.gtb_spec (Z.of_nat (String.length f)) (max_filename_length cfg));
    [|done].
  unfold PyStr.slice_to. rewrite (proj2 (Z.leb_le _ _) Hmax).
  pose proof (str_length_rstrip (PyStr.take (Z.to_nat (max_filename_length cfg)) f)).
  pose proof (str_length_take (Z.to_nat (max_filename_length cfg)) f). lia.
Qed.

Lemma sanitize_filename_no_slash cfg s :
  sanitize_names cfg = true → PyPath.no_slash (sanitize_filename cfg s) = true.
Proof.
  intros Hs. pose proof (sanitize_filename_no_reserved cfg s Hs) as H.
  revert H. generalize (sanitize_filename cfg s). intros r.
  induction r as [|c r IH]; [done|]. cbn [PyStr.all PyPath.no_slash].
  intros [Hc Hr]%andb_prop. fold (PyPath.no_slash r). rewrite (IH Hr), andb_true_r.
  apply negb_true_iff, bool_decide_eq_false. intros ->. done.
Qed.

(** C7 (amended).  With [sanitize_names] enabled and a non-negative
    [max_filename_length], the result of [sanitize_filename] is no longer than
    the maximum and holds none of the reserved characters; the function is
    total, and the empty string is mapped to itself. *)
Theorem sanitize_filename_bounded cfg s :
  sanitize_names cfg = true → 0 ≤ max_filename_length cfg →
  Z.of_nat (String.length (sanitize_filename cfg s)) ≤ max_filename_length cfg
  ∧ PyStr.all (λ c, negb (is_reserved c)) (sanitize_filename cfg s) = true
  ∧ sanitize_filename cfg "" = "".
Proof.
  intros Hs Hmax. split; [|split].
  - by apply sanitize_filename_length.
  - by apply sanitize_filename_no_reserved.
  - apply sanitize_filename_empty.
Qed.

Lemma sanitize_filename_bounded_witness :
  Z.of_nat (String.length (sanitize_filename default_config "  a<b>:  c/d?  ")) ≤ 200
  ∧ PyStr.all (λ c, negb (is_reserved c))
      (sanitize_filename default_config "  a<b>:  c/d?  ") = true
  ∧ sanitize_filename default_config "" = "".
Proof.
  apply (sanitize_filename_bounded default_config "  a<b>:  c/d?  ");
    [reflexivity | simpl; lia].
Defined.

(** C7 as stated fails: with [sanitize_names] disabled the input comes back
    unchanged, over-long and with its reserved characters; with a negative
    maximum the result is longer than the maximum. *)
Lemma sanitize_filename_unbounded :
  sanitize_filename Demo.cfg_raw "a/b?c" = "a/b?c"
  ∧ ¬ (Z.of_nat (String.length (sanitize_filename Demo.cfg_raw "a/b?c"))
       ≤ max_filename_length Demo.cfg_raw)
  ∧ PyStr.all (λ c, negb (is_reserved c))
      (sanitize_filename Demo.cfg_raw "a/b?c") = false
  ∧ ¬ (Z.of_nat (String.length (sanitize_filename Demo.cfg_negative "ab"))
       ≤ max_filename_length Demo.cfg_negative).
Proof. vm_compute. repeat split; congruence. Qed.

(** ** The job-scoped temp paths *)
Section TempPaths.
Context (cfg : config).
Import PyPath.

Lemma snoc_inj (p : path) (a b : string) : p ++ [a] = p ++ [b] → a = b.
Proof. intros H%(inj (app _)). by injection H. Qed.

Lemma staged_path_eq b :
  no_slash (name b) = true →
  staged_path cfg b = temp_dir cfg ++ ["processing_" +:+ name b].
Proof.
  intros Hb. unfold staged_path. apply joinpath_valid.
  rewrite <-(str_append_nil_r (name b)) at 1.
  by apply (valid_name_wrapped "p" "r" "ocessing_" (name b) "").
Qed.

Lemma beets_library_eq b :
  no_slash (name b) = true →
  beets_library cfg b = temp_dir cfg ++ ["beets_" +:+ name b +:+ ".db"].
Proof.
  intros Hb. unfold beets_library. apply joinpath_valid.
  by apply (valid_name_wrapped "b" "e" "ets_" (name b) ".db").
Qed.

Lemma beets_config_file_eq b :
  no_slash (name b) = true →
  beets_config_file cfg b
  = temp_dir cfg ++ ["beets_config_" +:+ name b +:+ ".yaml"].
Proof.
  intros Hb. unfold beets_config_file. apply joinpath_valid.
  by apply (valid_name_wrapped "b" "e" "ets_config_" (name b) ".yaml").
Qed.

Lemma file_list_path_eq b :
  no_slash (name b) = true →
  file_list_path cfg b = temp_dir cfg ++ [name b +:+ "_files.txt"].
Proof.
  intros Hb. unfold file_list_path. apply joinpath_valid. split; [|split].
  - destruct (name b); by rewrite ?str_append_cons.
  - intros H. apply (f_equal String.length) in H.
    rewrite str_length_append in H. simpl in H. lia.
  - by rewrite no_slash_append, Hb.
Qed.

Lemma name_staged_path b :
  no_slash (name b) = true →
  name (staged_path cfg b) = "processing_" +:+ name b.
Proof. intros. by rewrite staged_path_eq, name_snoc. Qed.

Lemma no_slash_name_staged b :
  no_slash (name b) = true → no_slash (name (staged_path cfg b)) = true.
Proof. intros Hb. by rewrite name_staged_path, no_slash_append, Hb. Qed.

(** C9 (amended).  The job-scoped temp paths are functions of the name of
    the book directory alone: two books get the same staged copy path, the
    same transient beets configuration and database paths and the same
    concat list path exactly when their directory names are equal. *)
Theorem temp_paths_by_name b1 b2 :
  wf_path b1 → wf_path b2 →
  (staged_path cfg b1 = staged_path cfg b2 ↔ name b1 = name b2)
  ∧ (beets_config_file cfg (staged_path cfg b1)
     = beets_config_file cfg (staged_path cfg b2) ↔ name b1 = name b2)
  ∧ (beets_library cfg (staged_path cfg b1)
     = beets_library cfg (staged_path cfg b2) ↔ name b1 = name b2)
  ∧ (file_list_path cfg (staged_path cfg b1)
     = file_list_path cfg (staged_path cfg b2) ↔ name b1 = name b2).
Proof.
  intros H1%no_slash_name H2%no_slash_name.
  pose proof (no_slash_name_staged _ H1) as S1.
  pose proof (no_slash_name_staged _ H2) as S2.
  rewrite !beets_config_file_eq, !beets_library_eq, !file_list_path_eq by done.
  rewrite !name_staged_path by done. rewrite !staged_path_eq by done.
  repeat split; try (by intros ->); intros H%snoc_inj.
  - by apply (inj (String.append _)) in H.
  - apply (inj (String.append _)), str_append_inj_r in H.
    by apply (inj (String.append _)) in H.
  - apply (inj (String.append _)), str_append_inj_r in H.
    by apply (inj (String.append _)) in H.
  - apply str_append_inj_r in H. by apply (inj (String.append _)) in H.
Qed.

End TempPaths.

Lemma temp_paths_by_name_witness :
  staged_path default_config ["input"; "Book One"]
  = staged_path default_config ["input"; "Some Author"; "Book One"] ↔
  PyPath.name ["input"; "Book One"] = PyPath.name ["input"; "Some Author"; "Book One"].
Proof.
  apply (temp_paths_by_name default_config ["input"; "Book One"]
           ["input"; "Some Author"; "Book One"]);
    repeat constructor; vm_compute; congruence.
Defined.

(** C9 as stated fails: two distinct books with the same directory name under
    different authors share every job-scoped temp path. *)
Lemma temp_paths_collide :
  let b1 := ["input"; "Author A"; "Book"] in
  let b2 := ["input"; "Author B"; "Book"] in
  b1 ≠ b2
  ∧ staged_path default_config b1 = staged_path default_config b2
  ∧ beets_config_file default_config (staged_path default_config b1)
    = beets_config_file default_config (staged_path default_config b2)
  ∧ beets_library default_config (staged_path default_config b1)
    = beets_library default_config (staged_path default_config b2)
  ∧ file_list_path default_config (staged_path default_config b1)
    = file_list_path default_config (staged_path default_config b2).
Proof. vm_compute. repeat split; congruence. Qed.

(** ** Directory listings *)
Section Listing.

Lemma lookup_app p q fs : FS.lookup (p ++ q) fs = FS.lookup p fs ≫= FS.lookup q.
Proof.
  revert fs. induction p as [|c p IH]; intros fs; [done|].
  simpl. destruct fs as [|es]; [done|]. destruct (es !! c); [apply IH|done].
Qed.

Lemma lookup_entry n es : FS.lookup [n] (Dir es) = es !! n.
Proof. simpl. by destruct (es !! n). Qed.

Lemma elem_of_listdir n p fs :
  n ∈ FS.listdir p fs ↔ is_Some (FS.lookup (p ++ [n]) fs).
Proof.
  unfold FS.listdir. rewrite lookup_app.
  destruct (FS.lookup p fs) as [[d|es]|]; simpl.
  - rewrite elem_of_nil, <-not_eq_None_Some. naive_solver.
  - destruct (es !! n) as [x|] eqn:E.
    + split; [eauto|]. intros _. apply list_elem_of_fmap.
      exists (n, x). split; [done|]. by apply elem_of_map_to_list.
    + rewrite list_elem_of_fmap. split; [|by intros []].
      intros ([n' x] & -> & H%elem_of_map_to_list). simpl in E. congruence.
  - rewrite elem_of_nil, <-not_eq_None_Some. naive_solver.
Qed.

Lemma elem_of_glob matches p fs f :
  f ∈ FS.glob matches p fs ↔
  ∃ n, f = p ++ [n] ∧ matches n = true ∧ is_Some (FS.lookup (p ++ [n]) fs).
Proof.
  unfold FS.glob. rewrite list_elem_of_fmap.
  setoid_rewrite list_elem_of_filter. setoid_rewrite elem_of_listdir. done.
Qed.

Lemma elem_of_sorted l f : f ∈ FS.sorted l ↔ f ∈ l.
Proof. unfold FS.sorted. by rewrite merge_sort_Permutation. Qed.

Lemma elem_of_audio_files fs p f :
  f ∈ audio_files fs p ↔
  ∃ n, f = p ++ [n] ∧ is_audio_name n = true ∧ is_Some (FS.lookup (p ++ [n]) fs).
Proof.
  unfold audio_files, is_audio_name.
  rewrite elem_of_sorted, elem_of_app, !elem_of_glob.
  setoid_rewrite orb_true_iff. split.
  - intros [(n & ? & ? & ?)|(n & ? & ? & ?)]; exists n; auto.
  - intros (n & ? & [?|?] & ?); [left|right]; exists n; auto.
Qed.

(** No audio file is listed exactly when the directory holds none. *)
Lemma audio_files_nil fs p : audio_files fs p = [] ↔ ¬ has_audio fs p.
Proof.
  split.
  - intros H (n & Hn & Hl).
    assert (p ++ [n] ∈ audio_files fs p) as Hin
      by (apply elem_of_audio_files; eauto).
    rewrite H in Hin. by apply elem_of_nil in Hin.
  - intros H. destruct (audio_files fs p) as [|f l] eqn:E; [done|].
    exfalso. apply H.
    assert (f ∈ audio_files fs p) as Hin by (rewrite E; left).
    apply elem_of_audio_files in Hin as (n & _ & ? & ?). by exists n.
Qed.

Lemma audio_files_cons fs p f l :
  audio_files fs p = f :: l → has_audio fs p ∧ FS.is_dir p fs = true.
Proof.
  intros E. assert (f ∈ audio_files fs p) as Hin by (rewrite E; left).
  apply elem_of_audio_files in Hin as (n & _ & Hn & Hl).
  split; [by exists n|].
  rewrite lookup_app in Hl. unfold FS.is_dir.
  destruct (FS.lookup p fs) as [[d|es]|]; try done; by destruct Hl.
Qed.

End Listing.

(** ** Metadata resolution *)
Section Metadata.
Context (cfg : config).
Context (mutagen_File : string → string → res (option audio)).

Abbreviation extract := (extract_metadata_from_files cfg mutagen_File).

(** C1 (amended).  Metadata resolution returns absent exactly when the
    directory holds no supported audio file or [mutagen.File] returns
    [None] for the first one; in every other case it returns a record. *)
Theorem extract_absent_iff fs book_path :
  extract fs book_path = None ↔
  ¬ has_audio fs book_path
  ∨ ∃ f l, audio_files fs book_path = f :: l
           ∧ open_audio mutagen_File fs f = Ok None.
Proof.
  unfold extract_metadata_from_files.
  destruct (audio_files fs book_path) as [|f l] eqn:E.
  - split; [|done]. intros _. left. by apply audio_files_nil.
  - pose proof (audio_files_cons _ _ _ _ E) as [Ha _]. unfold extract_try.
    destruct (open_audio mutagen_File fs f) as [[a|]|e] eqn:Ho; simpl.
    + destruct (read_tags a); simpl;
        (split; [done|intros [Hn|(f' & l' & [= <- <-] & Ho')];
                      [by destruct Hn|congruence]]).
    + split; [|done]. intros _. right. eauto.
    + split; [done|intros [Hn|(f' & l' & [= <- <-] & Ho')];
                   [by destruct Hn|congruence]].
Qed.

Lemma opt_truthy_Some o : opt_truthy o = true → ∃ s, o = Some s ∧ s ≠ "".
Proof.
  destruct o as [s|]; [|done]. intros H%str_truthy_nonempty. eauto.
Qed.

Lemma final_fallback_artist book_path f :
  artist (final_fallback book_path f) ≠ "".
Proof.
  unfold final_fallback. simpl.
  destruct (opt_truthy (t_artist f)) eqn:E; [|done].
  by apply opt_truthy_Some in E as (s & -> & ?).
Qed.

Lemma final_fallback_title book_path f :
  PyPath.name book_path ≠ "" → title (final_fallback book_path f) ≠ "".
Proof.
  intros Hn. unfold final_fallback. simpl.
  destruct (opt_truthy (t_title f)) eqn:E; [|done].
  by apply opt_truthy_Some in E as (s & -> & ?).
Qed.

Lemma snoc_ne {A} (l : list A) x : l ++ [x] ≠ l.
Proof.
  intros H%(f_equal length). rewrite length_app in H. simpl in H. lia.
Qed.

(** A book directory strictly below the input root: its name is not empty,
    and neither is the name of its parent unless that is the root itself. *)
Lemma names_below_input rel :
  rel ≠ [] → PyPath.wf_path rel →
  PyPath.name (input_dir cfg ++ rel) ≠ ""
  ∧ (PyPath.parent (input_dir cfg ++ rel) ≠ input_dir cfg →
     PyPath.name (PyPath.parent (input_dir cfg ++ rel)) ≠ "").
Proof.
  intros Hne Hwf. unfold PyPath.wf_path in Hwf.
  destruct (exists_last Hne) as (rel' & b & ->).
  rewrite app_assoc, name_snoc, parent_snoc.
  apply Forall_app in Hwf as [Hrel' Hb].
  rewrite Forall_singleton in Hb. split; [apply Hb|].
  destruct rel' as [|a0 rel0] using rev_ind; [by rewrite app_nil_r|].
  intros _. rewrite app_assoc, name_snoc.
  apply Forall_app in Hrel' as [_ Ha]. rewrite Forall_singleton in Ha. apply Ha.
Qed.

Lemma extract_except_nonempty book_path :
  PyPath.name book_path ≠ "" →
  (PyPath.parent book_path ≠ input_dir cfg →
   PyPath.name (PyPath.parent book_path) ≠ "") →
  artist (extract_except cfg book_path) ≠ ""
  ∧ title (extract_except cfg book_path) ≠ "".
Proof.
  intros Hn Hp. unfold extract_except, detect_input_structure.
  case_bool_decide; simpl; auto.
Qed.

(** Where the invariant of C2 holds.  For a book directory with a non-empty
    name whose parent, when it
    is not the input root, has a non-empty name too (every directory below
    the input root is such a one, see [names_below_input]), the artist and
    the title of a resolved record are never empty; the directory
    [Jane Doe/My Book] under the input root with tagless audio files
    resolves to artist [Jane Doe], title [My Book], album [My Book]. *)
Theorem resolved_artist_title_nonempty fs book_path md :
  PyPath.name book_path ≠ "" →
  (PyPath.parent book_path ≠ input_dir cfg →
   PyPath.name (PyPath.parent book_path) ≠ "") →
  extract fs book_path = Some md →
  artist md ≠ "" ∧ title md ≠ ""
  ∧ (book_path = input_dir cfg ++ ["Jane Doe"; "My Book"] →
     (∃ f l a, audio_files fs book_path = f :: l
               ∧ open_audio mutagen_File fs f = Ok (Some a) ∧ tagless a) →
     artist md = "Jane Doe" ∧ title md = "My Book" ∧ album md = "My Book").
Proof.
  intros Hname Hparent Hmd.
  unfold extract_metadata_from_files in Hmd.
  destruct (audio_files fs book_path) as [|f l] eqn:E; [done|].
  unfold extract_try in Hmd.
  destruct (open_audio mutagen_File fs f) as [[a|]|e] eqn:Ho; simpl in Hmd.
  - destruct (read_tags a) as [g|e] eqn:Hr; simpl in Hmd.
    + injection Hmd as <-.
      split; [apply final_fallback_artist|].
      split; [by apply final_fallback_title|].
      intros -> (f' & l' & a' & [= <- <-] & Ho' & Ht).
      rewrite Ho in Ho'. injection Ho' as <-.
      assert (g = no_fields) as ->.
      { destruct a as [[t|]]; simpl in Hr, Ht; [rewrite Ht in Hr|]; congruence. }
      unfold structure_fallback, detect_input_structure.
      change (input_dir cfg ++ ["Jane Doe"; "My Book"])
        with (input_dir cfg ++ ["Jane Doe"] ++ ["My Book"]).
      rewrite app_assoc, parent_snoc, !name_snoc.
      rewrite bool_decide_eq_true_2 by apply snoc_ne. done.
    + injection Hmd as <-.
      destruct (extract_except_nonempty _ Hname Hparent) as [? ?].
      split; [done|]. split; [done|].
      intros _ (f' & l' & a' & [= <- <-] & Ho' & Ht).
      rewrite Ho in Ho'. injection Ho' as <-.
      destruct a as [[t|]]; simpl in Hr, Ht; [rewrite Ht in Hr|]; congruence.
  - done.
  - injection Hmd as <-.
    destruct (extract_except_nonempty _ Hname Hparent) as [? ?].
    split; [done|]. split; [done|].
    intros _ (f' & l' & a' & [= <- <-] & ? & _). congruence.
Qed.

Lemma extract_except_eq book_path :
  extract_except cfg book_path
  = if bool_decide (PyPath.parent book_path ≠ input_dir cfg)
    then {| title := PyPath.name book_path;
            artist := PyPath.name (PyPath.parent book_path);
            album := PyPath.name book_path; year := None |}
    else {| title := PyPath.name book_path; artist := "Unknown Author";
            album := PyPath.name book_path; year := None |}.
Proof. unfold extract_except, detect_input_structure. by case_bool_decide. Qed.

(** C8.  When opening the first audio file or reading its tags raises, the
    record is built from the folder structure and the defaults: the names
    of the book directory and of its parent for a structured directory,
    the directory name and [Unknown Author] for a flat one. *)
Theorem extract_survives_tag_errors fs book_path f l e :
  audio_files fs book_path = f :: l →
  open_audio mutagen_File fs f = Raise e
  ∨ (∃ a, open_audio mutagen_File fs f = Ok (Some a) ∧ read_tags a = Raise e) →
  extract fs book_path
  = Some (if bool_decide (PyPath.parent book_path ≠ input_dir cfg)
          then {| title := PyPath.name book_path;
                  artist := PyPath.name (PyPath.parent book_path);
                  album := PyPath.name book_path; year := None |}
          else {| title := PyPath.name book_path; artist := "Unknown Author";
                  album := PyPath.name book_path; year := None |}).
Proof.
  intros E H. rewrite <-extract_except_eq.
  unfold extract_metadata_from_files, extract_try. rewrite E.
  destruct H as [->|(a & -> & Hr)]; simpl; [done|]. by rewrite Hr.
Qed.

(** C3 (amended).  The structure-based step fills title and album together,
    with the name of the book directory, and only when both are unresolved;
    otherwise it leaves both as they are, so that a still unresolved album
    takes the resolved title in the final defaults.  It fills an unresolved
    artist with the name of the parent directory for a structured
    directory, and leaves the artist alone for a flat one. *)
Theorem structure_fallback_fills book_path f :
  (opt_truthy (t_title f) = false → opt_truthy (t_album f) = false →
   t_title (structure_fallback cfg book_path f) = Some (PyPath.name book_path)
   ∧ t_album (structure_fallback cfg book_path f) = Some (PyPath.name book_path))
  ∧ (opt_truthy (t_title f) = true ∨ opt_truthy (t_album f) = true →
     t_title (structure_fallback cfg book_path f) = t_title f
     ∧ t_album (structure_fallback cfg book_path f) = t_album f)
  ∧ (opt_truthy (t_title f) = true → opt_truthy (t_album f) = false →
     album (final_fallback book_path (structure_fallback cfg book_path f))
     = default "" (t_title f))
  ∧ (opt_truthy (t_artist f) = false →
     PyPath.parent book_path ≠ input_dir cfg →
     t_artist (structure_fallback cfg book_path f)
     = Some (PyPath.name (PyPath.parent book_path)))
  ∧ (opt_truthy (t_artist f) = true ∨ PyPath.parent book_path = input_dir cfg →
     t_artist (structure_fallback cfg book_path f) = t_artist f).
Proof.
  unfold structure_fallback, final_fallback, detect_input_structure.
  destruct (opt_truthy (t_title f)) eqn:Et,
           (opt_truthy (t_album f)) eqn:Ea,
           (opt_truthy (t_artist f)) eqn:Er;
    case_bool_decide; simpl; rewrite ?Et, ?Ea, ?Er; simpl;
    (split; [|split; [|split; [|split]]]); intros; try done;
    try (by destruct_or!); by destruct f.
Qed.

End Metadata.

(** C1 as stated fails: a directory whose only track is an [.m4a] file of
    unknown content holds a supported audio file, and resolution returns
    absent. *)
Lemma extract_absent_with_audio :
  has_audio Demo.fs_unknown ["input"; "Book"]
  ∧ extract_metadata_from_files default_config Demo.mutagen_File
      Demo.fs_unknown ["input"; "Book"] = None.
Proof.
  split; [|by vm_compute].
  exists "01.m4a". split; [done|]. vm_compute. eauto.
Qed.

Lemma resolved_artist_title_nonempty_witness :
  extract_metadata_from_files default_config Demo.mutagen_File Demo.fs_tagless
    Demo.jane = Some Demo.md_jane
  ∧ artist Demo.md_jane ≠ "" ∧ title Demo.md_jane ≠ ""
  ∧ artist Demo.md_jane = "Jane Doe" ∧ title Demo.md_jane = "My Book"
  ∧ album Demo.md_jane = "My Book".
Proof.
  split; [by vm_compute|].
  destruct (resolved_artist_title_nonempty default_config Demo.mutagen_File
              Demo.fs_tagless Demo.jane Demo.md_jane) as (Ha & Ht & Hex).
  - by vm_compute.
  - intros _. by vm_compute.
  - by vm_compute.
  - split; [done|]. split; [done|]. apply Hex; [done|].
    exists ["input"; "Jane Doe"; "My Book"; "01.mp3"],
      [["input"; "Jane Doe"; "My Book"; "02.mp3"]], (Audio None).
    by vm_compute.
Defined.

(** C2 (failing input).  The [except] block takes the artist of a
    structured directory from the name of its parent and has no default for
    an empty one, where the [try] block puts [Unknown Author].  With the
    root as temp directory the staged copy of a book [b] is [/processing_b],
    whose parent has no name: when the tags of its first track cannot be
    read, the record has an empty artist, and [tag_with_beets] returns it
    after a successful run of the tool. *)
Lemma except_block_empty_artist :
  staged_path cfg_temp_root ["input"; "b"] = ["processing_b"]
  ∧ extract_metadata_from_files cfg_temp_root Demo.mutagen_File
      fs_staged_at_root ["processing_b"]
    = Some {| title := "processing_b"; artist := "";
              album := "processing_b"; year := None |}
  ∧ (tag_with_beets cfg_temp_root Demo.mutagen_File run_ok ["processing_b"]
       {| title := "b"; artist := "Unknown Author"; album := "b";
          year := None |} fs_staged_at_root).1
    = Ok {| title := "processing_b"; artist := "";
            album := "processing_b"; year := None |}.
Proof. by vm_compute. Qed.

Lemma extract_survives_tag_errors_witness :
  extract_metadata_from_files default_config Demo.mutagen_File
    Demo.fs_corrupt ["input"; "Book One"]
  = Some {| title := "Book One"; artist := "Unknown Author";
            album := "Book One"; year := None |}.
Proof.
  apply (extract_survives_tag_errors default_config Demo.mutagen_File
           Demo.fs_corrupt ["input"; "Book One"]
           ["input"; "Book One"; "01.mp3"] [] OtherException).
  - by vm_compute.
  - left. by vm_compute.
Defined.

Lemma structure_fallback_fills_witness :
  t_title (structure_fallback default_config Demo.jane no_fields) = Some "My Book"
  ∧ t_album (structure_fallback default_config Demo.jane no_fields) = Some "My Book".
Proof.
  apply (structure_fallback_fills default_config Demo.jane no_fields);
    reflexivity.
Defined.

(** C3 as stated fails: with a title from the tags and no album, the
    structure-based step leaves the album unresolved, and the album of the
    record is the tag title, not the name of the book directory. *)
Lemma album_not_from_structure :
  t_album (structure_fallback default_config Demo.jane
             {| t_title := Some "Chapter 1"; t_artist := None;
                t_album := None; t_year := None |}) = None
  ∧ extract_metadata_from_files default_config Demo.mutagen_File
      Demo.fs_titled Demo.jane
    = Some {| title := "Chapter 1"; artist := "Jane Doe";
              album := "Chapter 1"; year := None |}
  ∧ PyPath.name Demo.jane = "My Book".
Proof. by vm_compute. Qed.

(** ** The file-system operations *)
Section FSFacts.
Import PyPath.

Lemma lookup_cons c p es :
  FS.lookup (c :: p) (Dir es) = es !! c ≫= FS.lookup p.
Proof. simpl. by destruct (es !! c). Qed.

Lemma lookup_file p d : p ≠ [] → FS.lookup p (File d) = None.
Proof. by destruct p. Qed.

Lemma is_dir_nil fs : FS.is_dir [] fs = true → ∃ es, fs = Dir es.
Proof. unfold FS.is_dir. simpl. destruct fs; [done|eauto]. Qed.

Lemma is_dir_cons c p es :
  FS.is_dir (c :: p) (Dir es)
  = match es !! c with Some n => FS.is_dir p n | None => false end.
Proof. unfold FS.is_dir. rewrite lookup_cons. by destruct (es !! c). Qed.

Lemma put_singleton c t es : FS.put [c] t (Dir es) = Some (Dir (<[c:=t]> es)).
Proof. done. Qed.

Lemma put_cons c p t es :
  p ≠ [] →
  FS.put (c :: p) t (Dir es)
  = n' ← es !! c; n'' ← FS.put p t n'; Some (Dir (<[c:=n'']> es)).
Proof. by destruct p. Qed.

Lemma put_file p t d : FS.put p t (File d) = None.
Proof. by destruct p as [|? []]. Qed.

Lemma remove_singleton c es :
  FS.remove [c] (Dir es) = _ ← es !! c; Some (Dir (delete c es)).
Proof. done. Qed.

Lemma remove_cons c p es :
  p ≠ [] →
  FS.remove (c :: p) (Dir es)
  = n' ← es !! c; n'' ← FS.remove p n'; Some (Dir (<[c:=n'']> es)).
Proof. by destruct p. Qed.

Lemma remove_file p d : FS.remove p (File d) = None.
Proof. by destruct p as [|? []]. Qed.

Lemma unrelated_cons c p q : unrelated (c :: p) (c :: q) → unrelated p q.
Proof. intros [H1 H2]. split; intros H; [apply H1|apply H2]; by apply prefix_cons. Qed.

Lemma unrelated_nil_l q : ¬ unrelated [] q.
Proof. intros [H _]. apply H, prefix_nil. Qed.

Lemma unrelated_nil_r p : ¬ unrelated p [].
Proof. intros [_ H]. apply H, prefix_nil. Qed.

(** [put] changes nothing beside its target. *)
Lemma put_frame p t fs fs' q :
  FS.put p t fs = Some fs' → unrelated p q → FS.lookup q fs' = FS.lookup q fs.
Proof.
  revert fs fs' q. induction p as [|c p IH]; intros fs fs' q H U; [done|].
  destruct fs as [d|es]; [by rewrite put_file in H|].
  destruct q as [|c' q]; [by apply unrelated_nil_r in U|].
  destruct (decide (p = [])) as [->|Hp].
  - rewrite put_singleton in H. injection H as <-.
    rewrite !lookup_cons. destruct (decide (c = c')) as [<-|Hc].
    + destruct U as [U _]. exfalso. apply U, prefix_cons, prefix_nil.
    + by rewrite lookup_insert_ne.
  - rewrite put_cons in H by done.
    destruct (es !! c) as [n'|] eqn:E; [|done]. simpl in H.
    destruct (FS.put p t n') as [n''|] eqn:E'; [|done]. injection H as <-.
    rewrite !lookup_cons. destruct (decide (c = c')) as [<-|Hc].
    + rewrite lookup_insert_eq, E. simpl. eapply IH; [done|].
      by eapply unrelated_cons.
    + by rewrite lookup_insert_ne.
Qed.

Lemma put_lookup p t fs fs' : FS.put p t fs = Some fs' → FS.lookup p fs' = Some t.
Proof.
  revert fs fs'. induction p as [|c p IH]; intros fs fs' H; [done|].
  destruct fs as [d|es]; [by rewrite put_file in H|].
  destruct (decide (p = [])) as [->|Hp].
  - rewrite put_singleton in H. injection H as <-.
    by rewrite lookup_cons, lookup_insert_eq.
  - rewrite put_cons in H by done.
    destruct (es !! c) as [n'|] eqn:E; [|done]. simpl in H.
    destruct (FS.put p t n') as [n''|] eqn:E'; [|done]. injection H as <-.
    rewrite lookup_cons, lookup_insert_eq. simpl. by eapply IH.
Qed.

(** The strict ancestors of the target of [put] are, and stay, directories. *)
Lemma put_ancestors p t fs fs' q :
  FS.put p t fs = Some fs' → q `prefix_of` p → q ≠ p →
  FS.is_dir q fs' = true.
Proof.
  revert fs fs' q. induction p as [|c p IH]; intros fs fs' q H Hq Hne; [done|].
  destruct fs as [d|es]; [by rewrite put_file in H|].
  assert (∃ es', fs' = Dir es' ∧ (p ≠ [] → ∃ n' n'', es !! c = Some n'
            ∧ FS.put p t n' = Some n'' ∧ es' = <[c:=n'']> es)) as (es' & -> & Hes').
  { destruct (decide (p = [])) as [->|Hp].
    - rewrite put_singleton in H. injection H as <-.
      eexists. split; [done|]. by intros ?.
    - rewrite put_cons in H by done.
      destruct (es !! c) as [n'|] eqn:E; [|done]. simpl in H.
      destruct (FS.put p t n') as [n''|] eqn:E'; [|done]. injection H as <-.
      eexists. split; [done|]. eauto. }
  destruct q as [|c' q]; [done|].
  pose proof (prefix_cons_inv_1 _ _ _ _ Hq) as ->.
  apply prefix_cons_inv_2 in Hq.
  assert (p ≠ []) as Hp by (intros ->; apply prefix_nil_inv in Hq; congruence).
  destruct (Hes' Hp) as (n' & n'' & E & E' & ->).
  rewrite is_dir_cons, lookup_insert_eq. eapply IH; [done..|congruence].
Qed.

(** [remove] changes nothing beside its target, which is gone afterwards. *)
Lemma remove_frame p fs fs' q :
  FS.remove p fs = Some fs' → unrelated p q → FS.lookup q fs' = FS.lookup q fs.
Proof.
  revert fs fs' q. induction p as [|c p IH]; intros fs fs' q H U; [done|].
  destruct fs as [d|es]; [by rewrite remove_file in H|].
  destruct q as [|c' q]; [by apply unrelated_nil_r in U|].
  destruct (decide (p = [])) as [->|Hp].
  - rewrite remove_singleton in H.
    destruct (es !! c) as [n'|] eqn:E; [|done]. injection H as <-.
    rewrite !lookup_cons. destruct (decide (c = c')) as [<-|Hc].
    + destruct U as [U _]. exfalso. apply U, prefix_cons, prefix_nil.
    + by rewrite lookup_delete_ne.
  - rewrite remove_cons in H by done.
    destruct (es !! c) as [n'|] eqn:E; [|done]. simpl in H.
    destruct (FS.remove p n') as [n''|] eqn:E'; [|done]. injection H as <-.
    rewrite !lookup_cons. destruct (decide (c = c')) as [<-|Hc].
    + rewrite lookup_insert_eq, E. simpl. eapply IH; [done|].
      by eapply unrelated_cons.
    + by rewrite lookup_insert_ne.
Qed.

Lemma remove_lookup p fs fs' : FS.remove p fs = Some fs' → FS.lookup p fs' = None.
Proof.
  revert fs fs'. induction p as [|c p IH]; intros fs fs' H; [done|].
  destruct fs as [d|es]; [by rewrite remove_file in H|].
  destruct (decide (p = [])) as [->|Hp].
  - rewrite remove_singleton in H.
    destruct (es !! c) as [n'|] eqn:E; [|done]. injection H as <-.
    by rewrite lookup_cons, lookup_delete_eq.
  - rewrite remove_cons in H by done.
    destruct (es !! c) as [n'|] eqn:E; [|done]. simpl in H.
    destruct (FS.remove p n') as [n''|] eqn:E'; [|done]. injection H as <-.
    rewrite lookup_cons, lookup_insert_eq. simpl. by eapply IH.
Qed.

Lemma remove_ancestors p fs fs' q :
  FS.remove p fs = Some fs' → q `prefix_of` p → q ≠ p →
  FS.is_dir q fs' = true.
Proof.
  revert fs fs' q. induction p as [|c p IH]; intros fs fs' q H Hq Hne; [done|].
  destruct fs as [d|es]; [by rewrite remove_file in H|].
  assert (∃ es', fs' = Dir es' ∧ (p ≠ [] → ∃ n' n'', es !! c = Some n'
            ∧ FS.remove p n' = Some n'' ∧ es' = <[c:=n'']> es)) as (es' & -> & Hes').
  { destruct (decide (p = [])) as [->|Hp].
    - rewrite remove_singleton in H.
      destruct (es !! c) as [n'|] eqn:E; [|done]. injection H as <-.
      eexists. split; [done|]. by intros ?.
    - rewrite remove_cons in H by done.
      destruct (es !! c) as [n'|] eqn:E; [|done]. simpl in H.
      destruct (FS.remove p n') as [n''|] eqn:E'; [|done]. injection H as <-.
      eexists. split; [done|]. eauto. }
  destruct q as [|c' q]; [done|].
  pose proof (prefix_cons_inv_1 _ _ _ _ Hq) as ->.
  apply prefix_cons_inv_2 in Hq.
  assert (p ≠ []) as Hp by (intros ->; apply prefix_nil_inv in Hq; congruence).
  destruct (Hes' Hp) as (n' & n'' & E & E' & ->).
  rewrite is_dir_cons, lookup_insert_eq. eapply IH; [done..|congruence].
Qed.

(** Whatever exists below the root can be removed. *)
Lemma remove_exists p fs :
  p ≠ [] → is_Some (FS.lookup p fs) → is_Some (FS.remove p fs).
Proof.
  revert fs. induction p as [|c p IH]; intros fs Hp Hl; [done|].
  destruct fs as [d|es]; [by destruct Hl|].
  rewrite lookup_cons in Hl. destruct (es !! c) as [n'|] eqn:E; [|by destruct Hl].
  simpl in Hl. destruct (decide (p = [])) as [->|Hp'].
  - rewrite remove_singleton, E. simpl. eauto.
  - rewrite remove_cons, E by done. simpl.
    destruct (IH n' Hp' Hl) as [n'' ->]. simpl. eauto.
Qed.

(** Every regular file after a [remove] was there before. *)
Lemma remove_files p fs fs' q d :
  FS.remove p fs = Some fs' →
  FS.lookup q fs' = Some (File d) → FS.lookup q fs = Some (File d).
Proof.
  revert fs fs' q. induction p as [|c p IH]; intros fs fs' q H Hq; [done|].
  destruct fs as [d'|es]; [by rewrite remove_file in H|].
  destruct (decide (p = [])) as [->|Hp].
  - rewrite remove_singleton in H.
    destruct (es !! c) as [n'|] eqn:E; [|done]. injection H as <-.
    destruct q as [|c' q]; [done|]. rewrite lookup_cons in Hq |- *.
    destruct (decide (c = c')) as [<-|Hc].
    + by rewrite lookup_delete_eq in Hq.
    + by rewrite lookup_delete_ne in Hq.
  - rewrite remove_cons in H by done.
    destruct (es !! c) as [n'|] eqn:E; [|done]. simpl in H.
    destruct (FS.remove p n') as [n''|] eqn:E'; [|done]. injection H as <-.
    destruct q as [|c' q]; [done|]. rewrite lookup_cons in Hq |- *.
    destruct (decide (c = c')) as [<-|Hc].
    + rewrite lookup_insert_eq in Hq. rewrite E. simpl in *. by eapply IH.
    + by rewrite lookup_insert_ne in Hq.
Qed.

Lemma mkdir_p_cons c p es :
  FS.mkdir_p (c :: p) (Dir es)
  = n' ← FS.mkdir_p p (default (Dir ∅) (es !! c)); Some (Dir (<[c:=n']> es)).
Proof. done. Qed.

Lemma mkdir_p_file p d : FS.mkdir_p p (File d) = None.
Proof. by destruct p. Qed.

(** [mkdir_p] leaves alone whatever is not on the way to its target. *)
Lemma mkdir_p_frame p fs fs' q :
  FS.mkdir_p p fs = Some fs' → ¬ q `prefix_of` p →
  FS.lookup q fs' = FS.lookup q fs.
Proof.
  revert fs fs' q. induction p as [|c p IH]; intros fs fs' q H Hq.
  - destruct fs; simpl in H; congruence.
  - destruct fs as [d|es]; [done|]. rewrite mkdir_p_cons in H.
    destruct (FS.mkdir_p p _) as [n'|] eqn:E; [|done]. injection H as <-.
    destruct q as [|c' q]; [exfalso; apply Hq, prefix_nil|].
    rewrite !lookup_cons. destruct (decide (c = c')) as [<-|Hc].
    + rewrite lookup_insert_eq. simpl.
      assert (¬ q `prefix_of` p) as Hq' by (intros ?; by apply Hq, prefix_cons).
      rewrite (IH _ _ _ E Hq').
      destruct (es !! c); [done|]. simpl.
      destruct q as [|c'' q]; [exfalso; apply Hq', prefix_nil|].
      by rewrite lookup_cons, lookup_empty.
    + by rewrite lookup_insert_ne.
Qed.

(** After [mkdir_p] the target and its ancestors are directories. *)
Lemma mkdir_p_dirs p fs fs' q :
  FS.mkdir_p p fs = Some fs' → q `prefix_of` p → FS.is_dir q fs' = true.
Proof.
  revert fs fs' q. induction p as [|c p IH]; intros fs fs' q H Hq.
  - apply prefix_nil_inv in Hq as ->. destruct fs; simpl in H; [done|].
    by injection H as <-.
  - destruct fs as [d|es]; [done|]. rewrite mkdir_p_cons in H.
    destruct (FS.mkdir_p p _) as [n'|] eqn:E; [|done]. injection H as <-.
    destruct q as [|c' q]; [done|].
    pose proof (prefix_cons_inv_1 _ _ _ _ Hq) as ->.
    apply prefix_cons_inv_2 in Hq.
    rewrite is_dir_cons, lookup_insert_eq. by eapply IH.
Qed.

(** On an existing directory [mkdir_p] does nothing. *)
Lemma mkdir_p_id p fs : FS.is_dir p fs = true → FS.mkdir_p p fs = Some fs.
Proof.
  revert fs. induction p as [|c p IH]; intros fs H.
  - by apply is_dir_nil in H as [es ->].
  - destruct fs as [d|es]; [done|]. rewrite is_dir_cons in H.
    rewrite mkdir_p_cons. destruct (es !! c) as [n|] eqn:E; [|done]. simpl.
    rewrite (IH _ H). simpl. by rewrite insert_id.
Qed.

(** [mkdir_p] creates no regular file and touches none. *)
Lemma mkdir_p_files p fs fs' q d :
  FS.mkdir_p p fs = Some fs' →
  FS.lookup q fs' = Some (File d) → FS.lookup q fs = Some (File d).
Proof.
  intros H Hq. destruct (decide (q `prefix_of` p)) as [Hp|Hp].
  - pose proof (mkdir_p_dirs _ _ _ _ H Hp) as Hd.
    unfold FS.is_dir in Hd. by rewrite Hq in Hd.
  - by rewrite <-(mkdir_p_frame _ _ _ _ H Hp).
Qed.

Lemma mkdir_p_keeps_dirs p fs fs' :
  FS.mkdir_p p fs = Some fs' → keeps_dirs fs fs'.
Proof.
  intros H q Hq. destruct (decide (q `prefix_of` p)) as [Hp|Hp].
  - by eapply mkdir_p_dirs.
  - unfold FS.is_dir in *. by rewrite (mkdir_p_frame _ _ _ _ H Hp).
Qed.

End FSFacts.

(** ** Relations every step of a computation respects *)
Section Respects.
Context (R : node → node → Prop) `{!Reflexive R, !Transitive R}.

Lemma respects_ret {A} (a : A) : respects R (ret a).
Proof. intros fs. simpl. reflexivity. Qed.

Lemma respects_get_fs : respects R get_fs.
Proof. intros fs. simpl. reflexivity. Qed.

Lemma respects_bind {A B} (m : M A) (k : A → M B) :
  respects R m → (∀ a, respects R (k a)) → respects R (m ≫= k).
Proof.
  intros Hm Hk fs. unfold mbind, M_bind. specialize (Hm fs).
  destruct (m fs) as [[a|e] fs1]; simpl in *; [|done].
  etrans; [done|]. apply Hk.
Qed.

Lemma respects_catch {A} (m : M A) (h : exn → M A) :
  respects R m → (∀ e, respects R (h e)) → respects R (catch m h).
Proof.
  intros Hm Hh fs. unfold catch. specialize (Hm fs).
  destruct (m fs) as [[a|e] fs1]; simpl in *; [done|].
  etrans; [done|]. apply Hh.
Qed.

Lemma respects_finally {A} (m : M A) (c : M unit) :
  respects R m → respects R c → respects R (finally m c).
Proof.
  intros Hm Hc fs. unfold finally. specialize (Hm fs).
  destruct (m fs) as [r fs1]; simpl in *. specialize (Hc fs1).
  destruct (c fs1) as [[[]|e] fs2]; simpl in *; by etrans.
Qed.

Lemma respects_fs_op (f : node → option node) :
  (∀ fs fs', f fs = Some fs' → R fs fs') → respects R (fs_op f).
Proof.
  intros Hf fs. unfold fs_op. destruct (f fs) eqn:E; simpl; [by apply Hf|].
  reflexivity.
Qed.

Lemma respects_if {A} (b : bool) (m1 m2 : M A) :
  respects R m1 → respects R m2 → respects R (if b then m1 else m2).
Proof. by destruct b. Qed.

(** The steps of the pipeline respect [R] when the file-system calls on the
    paths they touch do, and the external tools do. *)
Context (ok : path → Prop).
Context (R_put : ∀ p t fs fs', ok p → FS.put p t fs = Some fs' → R fs fs').
Context (R_remove : ∀ p fs fs', ok p → FS.remove p fs = Some fs' → R fs fs').
Context (R_mkdir : ∀ p fs fs', ok p → FS.mkdir_p p fs = Some fs' → R fs fs').

Lemma respects_write_file p data :
  ok p → respects R (fs_op (FS.write_file p data)).
Proof.
  intros Hp. apply respects_fs_op. intros fs fs'. unfold FS.write_file.
  destruct (FS.is_dir p fs); [done|]. by apply R_put.
Qed.

Lemma respects_unlink p :
  ok p → respects R (fs_op (FS.unlink_missing_ok p)).
Proof.
  intros Hp. apply respects_fs_op. intros fs fs'. unfold FS.unlink_missing_ok.
  destruct (FS.lookup p fs) as [[d|es]|]; [by apply R_remove|done|].
  destruct (FS.not_a_directory p fs); [done|]. by intros [= <-].
Qed.

Lemma respects_rmtree p : ok p → respects R (fs_op (FS.rmtree p)).
Proof.
  intros Hp. apply respects_fs_op. intros fs fs'. unfold FS.rmtree.
  destruct (FS.is_dir p fs); [|done]. by apply R_remove.
Qed.

Lemma respects_copytree src dst :
  ok dst → respects R (fs_op (FS.copytree src dst)).
Proof.
  intros Hp. apply respects_fs_op. intros fs fs'. unfold FS.copytree.
  destruct (FS.lookup src fs) as [[d|es]|]; [done| |done].
  destruct (FS.exists_ dst fs); [done|].
  destruct (FS.mkdir_p dst fs) as [fs1|] eqn:E; [|done]. simpl. intros Hput.
  trans fs1; [by apply (R_mkdir dst)|]. by apply (R_put dst (Dir es)).
Qed.

Lemma respects_move src dst :
  ok src → ok dst → ok (dst ++ [PyPath.name src]) →
  respects R (fs_op (FS.move src dst)).
Proof.
  intros Hs Hd Hd'. apply respects_fs_op. intros fs fs'. unfold FS.move.
  destruct (FS.lookup src fs) as [t|]; [|done].
  set (real_dst := if FS.is_dir dst fs then _ else _).
  assert (ok real_dst) as Hr by (unfold real_dst; by destruct (FS.is_dir dst fs)).
  destruct (_ && FS.exists_ real_dst fs); [done|].
  case_bool_decide; [by intros [= <-]|].
  destruct (_ && _); [done|].
  destruct (FS.put real_dst t fs) as [fs1|] eqn:E; [|done]. simpl. intros Hput.
  trans fs1; [by apply (R_put real_dst t)|]. by apply (R_remove src).
Qed.

Context (cfg : config).
Context (mutagen_File : string → string → res (option audio)).
Context (subprocess_run : list string → node → res Z * node).
Context (R_run : ∀ cmd, respects R (subprocess_run cmd)).

Lemma respects_stage book_path :
  ok (staged_path cfg book_path) → respects R (stage cfg book_path).
Proof.
  intros Hp. unfold stage. apply respects_bind; [apply respects_get_fs|].
  intros fs. apply respects_bind; [|intros _; by apply respects_copytree].
  apply respects_if; [by apply respects_rmtree|apply respects_ret].
Qed.

Lemma respects_tag_with_beets p md :
  ok (beets_config_file cfg p) → ok (beets_library cfg p) →
  respects R (tag_with_beets cfg mutagen_File subprocess_run p md).
Proof.
  intros Hc Hl. unfold tag_with_beets.
  apply respects_bind; [by apply respects_write_file|]. intros _.
  apply respects_finally.
  - apply respects_catch; [|intros _; apply respects_ret].
    apply respects_bind; [apply R_run|]. intros rc.
    apply respects_if; [|apply respects_ret].
    apply respects_bind; [apply respects_get_fs|]. intros fs.
    destruct (extract_metadata_from_files _ _ _ _); apply respects_ret.
  - apply respects_bind; [by apply respects_unlink|]. intros _.
    by apply respects_unlink.
Qed.

Lemma respects_enrich p md :
  ok (beets_config_file cfg p) → ok (beets_library cfg p) →
  respects R (enrich cfg mutagen_File subprocess_run p md).
Proof.
  intros. unfold enrich.
  apply respects_if; [by apply respects_tag_with_beets|apply respects_ret].
Qed.

Lemma respects_convert p md f :
  ok (file_list_path cfg p) →
  respects R (convert_to_m4b_ffmpeg712 cfg subprocess_run p md f).
Proof.
  intros Hl. unfold convert_to_m4b_ffmpeg712.
  apply respects_bind; [apply respects_get_fs|]. intros fs.
  destruct (audio_files fs p) as [|a l]; [apply respects_ret|].
  apply respects_bind; [by apply respects_write_file|]. intros _.
  apply respects_bind; [apply respects_get_fs|]. intros fs1.
  apply respects_catch; [|intros _; apply respects_ret].
  apply respects_bind; [apply R_run|]. intros rc.
  apply respects_bind; [apply respects_get_fs|]. intros fs2.
  apply respects_if; [|apply respects_ret].
  apply respects_bind; [by apply respects_unlink|]. intros _. apply respects_ret.
Qed.

End Respects.

(** ** The two relations of the pipeline statements *)
Section Relations.
Import PyPath.

#[global] Instance only_under_refl T : Reflexive (only_under T).
Proof. by intros fs q _. Qed.

#[global] Instance only_under_trans T : Transitive (only_under T).
Proof. intros fs1 fs2 fs3 H12 H23 q U. by rewrite H23, H12. Qed.

#[global] Instance keeps_dir_refl q : Reflexive (keeps_dir q).
Proof. intros fs H. exact H. Qed.

#[global] Instance keeps_dir_trans q : Transitive (keeps_dir q).
Proof. intros fs1 fs2 fs3 H12 H23 H. by apply H23, H12. Qed.

Lemma unrelated_below T p q : T `prefix_of` p → unrelated T q → unrelated p q.
Proof.
  intros [r ->] U. by apply unrelated_app_l.
Qed.

Lemma only_under_put T p t fs fs' :
  T `prefix_of` p → FS.put p t fs = Some fs' → only_under T fs fs'.
Proof. intros HT H q U. eapply put_frame; [done|]. by eapply unrelated_below. Qed.

Lemma only_under_remove T p fs fs' :
  T `prefix_of` p → FS.remove p fs = Some fs' → only_under T fs fs'.
Proof. intros HT H q U. eapply remove_frame; [done|]. by eapply unrelated_below. Qed.

Lemma only_under_mkdir_p T p fs fs' :
  T `prefix_of` p → FS.mkdir_p p fs = Some fs' → only_under T fs fs'.
Proof.
  intros HT H q U. eapply mkdir_p_frame; [done|].
  apply (unrelated_below _ _ _ HT U).
Qed.

(** A path that is not above-or-at [q] is beside [q] or strictly below it. *)
Lemma not_prefix_cases p q :
  ¬ p `prefix_of` q → unrelated p q ∨ (q `prefix_of` p ∧ q ≠ p).
Proof.
  intros Hp. destruct (decide (q `prefix_of` p)) as [Hq|Hq].
  - right. split; [done|]. by intros ->.
  - by left.
Qed.

Lemma keeps_dir_put q p t fs fs' :
  ¬ p `prefix_of` q → FS.put p t fs = Some fs' → keeps_dir q fs fs'.
Proof.
  intros Hp H Hd. destruct (not_prefix_cases _ _ Hp) as [U|[Hq Hne]].
  - unfold FS.is_dir in *. by rewrite (put_frame _ _ _ _ _ H U).
  - by eapply put_ancestors.
Qed.

Lemma keeps_dir_remove q p fs fs' :
  ¬ p `prefix_of` q → FS.remove p fs = Some fs' → keeps_dir q fs fs'.
Proof.
  intros Hp H Hd. destruct (not_prefix_cases _ _ Hp) as [U|[Hq Hne]].
  - unfold FS.is_dir in *. by rewrite (remove_frame _ _ _ _ H U).
  - by eapply remove_ancestors.
Qed.

Lemma keeps_dir_mkdir_p q p fs fs' :
  FS.mkdir_p p fs = Some fs' → keeps_dir q fs fs'.
Proof. intros H. by apply (mkdir_p_keeps_dirs p). Qed.

Lemma sibling_prefix (T : path) (x y : string) :
  T ++ [x] `prefix_of` T ++ [y] → x = y.
Proof.
  intros H%prefix_app_inv. destruct H as [k H]. by injection H.
Qed.

Lemma not_prefix_below (T r q : path) : ¬ T `prefix_of` q → ¬ T ++ r `prefix_of` q.
Proof. intros H H'. apply H. by eapply prefix_app_l. Qed.

End Relations.

(** ** The planned output file lies beside or below the planned directory *)
Section PlannedFile.
Import PyPath.

(** Appending a suffix without slashes changes the last piece only. *)
Lemma split_append s t :
  no_slash t = true →
  ∃ front lst, PyStr.split "/" s = front ++ [lst]
               ∧ PyStr.split "/" (s +:+ t) = front ++ [lst +:+ t].
Proof.
  intros Ht. induction s as [|c s (front & lst & E1 & E2)].
  - exists [], "". split; [done|]. by apply split_no_slash.
  - rewrite str_append_cons. cbn [PyStr.split]. case_bool_decide.
    + exists ("" :: front), lst. by rewrite E1, E2.
    + rewrite E1, E2. destruct front as [|w front]; simpl.
      * by exists [], (String c lst).
      * by exists (String c w :: front), lst.
Qed.

Lemma parse_parts_append s t :
  no_slash t = true → t ≠ "" → (1 < String.length t)%nat →
  ∃ F lst, parse_parts (s +:+ t) = F ++ [lst +:+ t]
           ∧ (parse_parts s = F ∨ parse_parts s = F ++ [lst]).
Proof.
  intros Ht Hne Hlen. destruct (split_append s t Ht) as (front & lst & E1 & E2).
  unfold parse_parts. rewrite E1, E2, !filter_app.
  exists (filter (λ c, c ≠ "" ∧ c ≠ ".") front), lst. split.
  - rewrite filter_cons_True; [done|]. split.
    + intros H%(f_equal String.length). rewrite str_length_append in H.
      simpl in H. lia.
    + intros H%(f_equal String.length). rewrite str_length_append in H.
      simpl in H. lia.
  - destruct (decide (lst ≠ "" ∧ lst ≠ ".")) as [Hl|Hl].
    + right. by rewrite filter_cons_True.
    + left. rewrite filter_cons_False by done. by rewrite app_nil_r.
Qed.

Lemma startswith_append_slash s t :
  PyStr.startswith "/" t = false →
  PyStr.startswith "/" (s +:+ t) = PyStr.startswith "/" s.
Proof.
  intros Ht. destruct s as [|c s]; [|by rewrite str_append_cons].
  by destruct t.
Qed.

Lemma app_not_prefix (p r : path) : r ≠ [] → ¬ p ++ r `prefix_of` p.
Proof.
  intros Hr H%prefix_length. rewrite length_app in H.
  destruct r; [done|]. simpl in H. lia.
Qed.

(** [p /: b /: (b +:+ ext)] is never at or above [p /: b]. *)
Lemma planned_file_not_above p b ext :
  no_slash ext = true → (1 < String.length ext)%nat →
  ¬ (p /: b /: (b +:+ ext)) `prefix_of` (p /: b).
Proof.
  intros Hext Hlen.
  assert (ext ≠ "") as Hne by (intros ->; simpl in Hlen; lia).
  destruct (parse_parts_append b ext Hext Hne Hlen) as (F & lst & E & Hb).
  assert (PyStr.startswith "/" ext = false) as Hs by by apply startswith_slash.
  unfold joinpath. rewrite (startswith_append_slash _ _ Hs), E.
  destruct (PyStr.startswith "/" b).
  - destruct Hb as [->| ->].
    + by apply app_not_prefix.
    + intros H%prefix_app_inv. destruct H as [k H]. injection H as H _.
      apply (f_equal String.length) in H. rewrite str_length_append in H. lia.
  - apply app_not_prefix. by destruct F.
Qed.

End PlannedFile.

(** ** Removing scratch files *)
Section Unlink.
Import PyPath.

Lemma not_a_directory_child (T : path) (x : string) fs :
  FS.is_dir T fs = true → FS.not_a_directory (T ++ [x]) fs = false.
Proof.
  revert fs. induction T as [|c T IH]; intros fs H.
  - apply is_dir_nil in H as [es ->]. simpl. by destruct (es !! x).
  - destruct fs as [d|es]; [done|]. rewrite is_dir_cons in H.
    simpl. destruct (es !! c); [by apply IH|done].
Qed.

Lemma unrelated_siblings (T : path) (x y : string) :
  x ≠ y → unrelated (T ++ [x]) (T ++ [y]).
Proof. intros Hne. split; intros H%sibling_prefix; congruence. Qed.

(** Unlinking a non-directory in an existing directory succeeds and leaves
    the directory and the other entries alone. *)
Lemma unlink_in_dir (T : path) (x : string) fs :
  FS.is_dir T fs = true → FS.is_dir (T ++ [x]) fs = false →
  ∃ fs', FS.unlink_missing_ok (T ++ [x]) fs = Some fs'
         ∧ FS.is_dir T fs' = true
         ∧ FS.lookup (T ++ [x]) fs' = None
         ∧ ∀ y, y ≠ x → FS.lookup (T ++ [y]) fs' = FS.lookup (T ++ [y]) fs.
Proof.
  intros HT Hx. unfold FS.unlink_missing_ok, FS.is_dir in *.
  destruct (FS.lookup (T ++ [x]) fs) as [[d|es]|] eqn:E; [|done|].
  - destruct (remove_exists (T ++ [x]) fs) as [fs' Hrm].
    { by destruct T. } { rewrite E. eauto. }
    exists fs'. split; [done|]. split; [|split].
    + apply (remove_ancestors _ _ _ T Hrm); [by apply prefix_app_r|].
      intros H%(f_equal length). rewrite length_app in H. simpl in H. lia.
    + by eapply remove_lookup.
    + intros y Hy. eapply remove_frame; [done|]. by apply unrelated_siblings.
  - exists fs. rewrite not_a_directory_child; [done|].
    unfold FS.is_dir. by destruct (FS.lookup T fs) as [[]|].
Qed.

End Unlink.

(** ** Paths without [..]: the model is what the operating system does *)
Section Plain.
Import PyPath.

Lemma dotdot_free_cons c p : dotdot_free (c :: p) ↔ c ≠ ".." ∧ dotdot_free p.
Proof.
  unfold dotdot_free. rewrite not_elem_of_cons.
  split; intros [H1 H2]; (split; [congruence|done]).
Qed.

Lemma dotdot_free_app p q : dotdot_free (p ++ q) ↔ dotdot_free p ∧ dotdot_free q.
Proof. unfold dotdot_free. rewrite elem_of_app. tauto. Qed.

Lemma resolve_from_plain here p fs :
  dotdot_free p → OS.resolve_from here p fs = Some (here ++ p).
Proof.
  revert here. induction p as [|c p IH]; intros here Hp.
  - by rewrite app_nil_r.
  - apply dotdot_free_cons in Hp as [Hc Hp]. cbn [OS.resolve_from].
    rewrite bool_decide_eq_false_2 by done. rewrite (IH _ Hp).
    by rewrite <-app_assoc.
Qed.

Lemma resolve_plain p fs : dotdot_free p → OS.resolve p fs = Some p.
Proof. apply resolve_from_plain. Qed.

Lemma exists_plain p fs : dotdot_free p → OS.exists_ p fs = FS.exists_ p fs.
Proof. intros Hp. unfold OS.exists_. by rewrite resolve_plain. Qed.

Lemma mkdir_p_app s q fs :
  FS.mkdir_p (s ++ q) fs = fs' ← FS.mkdir_p s fs; FS.mkdir_p (s ++ q) fs'.
Proof.
  destruct (FS.mkdir_p s fs) as [fs1|] eqn:E; simpl.
  - revert fs fs1 E. induction s as [|c s IH]; intros fs fs1 E.
    + destruct fs; simpl in E; [done|]. by injection E as <-.
    + destruct fs as [d|es]; [done|]. rewrite mkdir_p_cons in E.
      destruct (FS.mkdir_p s _) as [n1|] eqn:E1; [|done]. injection E as <-.
      rewrite <-!app_comm_cons, !mkdir_p_cons, lookup_insert_eq. simpl.
      rewrite (IH _ _ E1). destruct (FS.mkdir_p (s ++ q) n1); [|done].
      simpl. by rewrite insert_insert_eq.
  - revert fs E. induction s as [|c s IH]; intros fs E.
    + destruct fs; [by destruct q|done].
    + destruct fs as [d|es]; [done|]. rewrite mkdir_p_cons in E.
      rewrite <-app_comm_cons, mkdir_p_cons.
      destruct (FS.mkdir_p s _) as [n1|] eqn:E1; [done|].
      by rewrite (IH _ E1).
Qed.

Lemma mkdir_from_plain here p fs :
  dotdot_free p → FS.is_dir here fs = true →
  OS.mkdir_from here p fs = FS.mkdir_p (here ++ p) fs.
Proof.
  revert here fs. induction p as [|c p IH]; intros here fs Hp Hd.
  - by rewrite app_nil_r, mkdir_p_id.
  - apply dotdot_free_cons in Hp as [Hc Hp]. cbn [OS.mkdir_from].
    rewrite bool_decide_eq_false_2 by done.
    replace (here ++ c :: p) with ((here ++ [c]) ++ p)
      by by rewrite <-app_assoc.
    rewrite (mkdir_p_app (here ++ [c]) p).
    destruct (FS.mkdir_p (here ++ [c]) fs) as [fs1|] eqn:E; [|done]. simpl.
    apply IH; [done|]. by eapply mkdir_p_dirs.
Qed.

(** On a path without [..], [mkdir(parents=True, exist_ok=True)] is
    [FS.mkdir_p]. *)
Lemma mkdir_p_plain p fs : dotdot_free p → OS.mkdir_p p fs = FS.mkdir_p p fs.
Proof.
  intros Hp. unfold OS.mkdir_p.
  destruct (FS.mkdir_p [] fs) as [fs1|] eqn:E; simpl.
  - assert (fs1 = fs) as -> by (destruct fs; simpl in E; congruence).
    apply (mkdir_from_plain [] p fs Hp). by destruct fs.
  - destruct fs; [by destruct p|done].
Qed.

End Plain.

(** ** Tool failures and successes *)

(** A conversion tool that exits with a non-zero status, times out or raises
    makes the converter return no output file. *)
Lemma convert_none_on_tool_failure cfg
    (subprocess_run : list string → node → res Z * node)
    p md f fs a l fs_a r fs_b :
  audio_files fs p = a :: l →
  FS.write_file (file_list_path cfg p)
    (PyStr.join "" (file_list_line <$> a :: l)) fs = Some fs_a →
  subprocess_run (ffmpeg_cmd cfg fs_a p md (temp_dir cfg /: f)) fs_a = (r, fs_b) →
  r ≠ Ok 0 →
  convert_to_m4b_ffmpeg712 cfg subprocess_run p md f fs = (Ok None, fs_b).
Proof.
  intros Ha Hw Hrun Hr.
  unfold convert_to_m4b_ffmpeg712, mbind, M_bind, get_fs, catch, fs_op.
  rewrite Ha, Hw, Hrun. destruct r as [rc|e]; [|done].
  destruct (Z.eqb_spec rc 0) as [->|]; done.
Qed.

Lemma convert_some_on_tool_success cfg
    (subprocess_run : list string → node → res Z * node)
    p md f fs a l fs_a fs_b fs_c :
  audio_files fs p = a :: l →
  FS.write_file (file_list_path cfg p)
    (PyStr.join "" (file_list_line <$> a :: l)) fs = Some fs_a →
  subprocess_run (ffmpeg_cmd cfg fs_a p md (temp_dir cfg /: f)) fs_a
  = (Ok 0, fs_b) →
  FS.exists_ (temp_dir cfg /: f) fs_b = true →
  FS.unlink_missing_ok (file_list_path cfg p) fs_b = Some fs_c →
  convert_to_m4b_ffmpeg712 cfg subprocess_run p md f fs
  = (Ok (Some (temp_dir cfg /: f)), fs_c).
Proof.
  intros Ha Hw Hrun Hex Hu.
  unfold convert_to_m4b_ffmpeg712, mbind, M_bind, get_fs, catch, fs_op.
  rewrite Ha, Hw, Hrun. cbn [Z.eqb andb]. by rewrite Hex, Hu.
Qed.

(** ** The pipeline *)
Section Pipeline.
Import PyPath.
Context (cfg : config).
Context (mutagen_File : string → string → res (option audio)).
Context (subprocess_run : list string → node → res Z * node).

Abbreviation extract := (extract_metadata_from_files cfg mutagen_File).
Abbreviation process := (process_audiobook cfg mutagen_File subprocess_run).
Abbreviation on_error := (λ _ : exn, ret (A:=job_end) Errored).

Lemma create_output_structure_inv md t fs d f fs1 :
  create_output_structure cfg md t fs = (Ok (d, f), fs1) →
  FS.mkdir_p (output_book_dir cfg md) fs = Some fs1
  ∧ d = output_book_dir cfg md ∧ f = m4b_filename cfg md.
Proof.
  unfold create_output_structure, mbind, M_bind, fs_op, ret.
  destruct (FS.mkdir_p _ fs); [|done]. by intros [= <- <- <-].
Qed.

(** Once the metadata is resolved and the output directory made, the job
    goes on from the check for an existing output file. *)
Lemma process_after_planning fs book_path md d f fs1 :
  extract fs book_path = Some md →
  create_output_structure cfg md (name book_path) fs = (Ok (d, f), fs1) →
  process book_path fs
  = catch (skip_or_convert cfg mutagen_File subprocess_run book_path md d f)
      on_error fs1.
Proof.
  intros He Hc. unfold process_audiobook, catch, mbind, M_bind, get_fs.
  rewrite He. unfold mbind, M_bind. by rewrite Hc.
Qed.

Lemma extract_Some_is_dir fs book_path md :
  extract fs book_path = Some md → FS.is_dir book_path fs = true.
Proof.
  unfold extract_metadata_from_files.
  destruct (audio_files fs book_path) eqn:E; [done|]. intros _.
  by eapply audio_files_cons.
Qed.

(** With sanitized names the planned file lies in the planned directory, so
    when the file exists the directory did before planning, and planning
    changed nothing. *)
Lemma planning_noop md fs fs1 :
  sanitize_names cfg = true →
  FS.mkdir_p (output_book_dir cfg md) fs = Some fs1 →
  FS.exists_ (output_book_dir cfg md /: m4b_filename cfg md) fs1 = true →
  fs1 = fs.
Proof.
  intros Hs Hmk Hex.
  assert (valid_name (m4b_filename cfg md)) as Hv.
  { unfold m4b_filename. split; [|split].
    - intros H%(f_equal String.length). rewrite str_length_append in H.
      simpl in H. lia.
    - intros H%(f_equal String.length). rewrite str_length_append in H.
      simpl in H. lia.
    - by rewrite no_slash_append, sanitize_filename_no_slash. }
  rewrite joinpath_valid in Hex by done. unfold FS.exists_ in Hex.
  rewrite (mkdir_p_frame _ _ _ _ Hmk) in Hex by apply prefix_snoc_not.
  rewrite lookup_app in Hex.
  assert (FS.is_dir (output_book_dir cfg md) fs = true) as Hd.
  { unfold FS.is_dir.
    destruct (FS.lookup (output_book_dir cfg md) fs) as [[?|?]|]; done. }
  rewrite (mkdir_p_id _ _ Hd) in Hmk. congruence.
Qed.

(** Whatever the names are: when the planned output file exists at the
    time of the check, the job ends as a skipped duplicate and all it did
    since the check is to remove the source directory. *)
Lemma skip_after_planning fs book_path md d f fs1 :
  extract fs book_path = Some md →
  create_output_structure cfg md (name book_path) fs = (Ok (d, f), fs1) →
  FS.exists_ (d /: f) fs1 = true →
  book_path ≠ [] →
  ∃ fs', process book_path fs = (Ok SkippedDuplicate, fs')
    ∧ FS.rmtree book_path fs1 = Some fs'
    ∧ FS.exists_ book_path fs' = false
    ∧ (∀ q, unrelated book_path q → FS.lookup q fs' = FS.lookup q fs1)
    ∧ (∀ q data, FS.lookup q fs' = Some (File data) →
                 FS.lookup q fs = Some (File data))
    ∧ (sanitize_names cfg = true → fs1 = fs).
Proof.
  intros He Hc Hex Hne.
  rewrite (process_after_planning _ _ _ _ _ _ He Hc).
  apply create_output_structure_inv in Hc as (Hmk & -> & ->).
  pose proof (extract_Some_is_dir _ _ _ He) as Hd.
  apply (mkdir_p_keeps_dirs _ _ _ Hmk) in Hd.
  destruct (remove_exists book_path fs1 Hne) as [fs' Hrm].
  { unfold FS.is_dir in Hd. destruct (FS.lookup book_path fs1); [eauto|done]. }
  exists fs'.
  assert (FS.rmtree book_path fs1 = Some fs') as Hrt
    by (unfold FS.rmtree; by rewrite Hd).
  split; [|split; [done|split; [|split; [|split]]]].
  - unfold catch, skip_or_convert, mbind, M_bind, get_fs. rewrite Hex.
    unfold mbind, M_bind, fs_op. by rewrite Hrt.
  - unfold FS.exists_. by rewrite (remove_lookup _ _ _ Hrm).
  - intros q U. by eapply remove_frame.
  - intros q data Hq. eapply mkdir_p_files; [done|]. by eapply remove_files.
  - intros Hs. by eapply planning_noop.
Qed.

(** With sanitized names the planned file is an entry of the planned
    directory, under a name that is not [..]. *)
Lemma planned_file_plain md :
  sanitize_names cfg = true →
  dotdot_free (output_book_dir cfg md) →
  output_book_dir cfg md /: m4b_filename cfg md
  = output_book_dir cfg md ++ [m4b_filename cfg md]
  ∧ dotdot_free (output_book_dir cfg md /: m4b_filename cfg md).
Proof.
  intros Hs Hd.
  assert (valid_name (m4b_filename cfg md)) as Hv.
  { unfold m4b_filename. split; [|split].
    - intros H%(f_equal String.length). rewrite str_length_append in H.
      simpl in H. lia.
    - intros H%(f_equal String.length). rewrite str_length_append in H.
      simpl in H. lia.
    - by rewrite no_slash_append, sanitize_filename_no_slash. }
  rewrite joinpath_valid by done. split; [done|].
  apply dotdot_free_app. split; [done|].
  apply dotdot_free_cons. split; [|by apply not_elem_of_nil].
  unfold m4b_filename. intros H%(f_equal String.length).
  rewrite str_length_append in H. simpl in H. lia.
Qed.


(** The contract of the external tools: a tool changes the file system
    under the temp directory only, and removes no directory. *)
Context (run_in_temp :
  ∀ cmd, respects (only_under (temp_dir cfg)) (subprocess_run cmd)).
Context (run_keeps_dirs :
  ∀ cmd q, respects (keeps_dir q) (subprocess_run cmd)).

Lemma bind_inv {A B} (m : M A) (k : A → M B) fs b fs' :
  (m ≫= k) fs = (Ok b, fs') →
  ∃ a fs1, m fs = (Ok a, fs1) ∧ k a fs1 = (Ok b, fs').
Proof.
  unfold mbind, M_bind. destruct (m fs) as [[a|e] fs1]; [eauto|done].
Qed.

Lemma temp_prefix_snoc x : temp_dir cfg `prefix_of` temp_dir cfg ++ [x].
Proof. by apply prefix_app_r. Qed.

Lemma stage_only_under book_path :
  no_slash (name book_path) = true →
  respects (only_under (temp_dir cfg)) (stage cfg book_path).
Proof.
  intros Hn.
  apply (respects_stage _ (λ p, temp_dir cfg `prefix_of` p));
    eauto using only_under_put, only_under_remove, only_under_mkdir_p.
  rewrite staged_path_eq by done. apply temp_prefix_snoc.
Qed.

Lemma enrich_only_under book_path md :
  no_slash (name book_path) = true →
  respects (only_under (temp_dir cfg))
    (enrich cfg mutagen_File subprocess_run (staged_path cfg book_path) md).
Proof.
  intros Hn%(no_slash_name_staged cfg).
  apply (respects_enrich _ (λ p, temp_dir cfg `prefix_of` p));
    eauto using only_under_put, only_under_remove.
  - rewrite beets_config_file_eq by done. apply temp_prefix_snoc.
  - rewrite beets_library_eq by done. apply temp_prefix_snoc.
Qed.

Lemma convert_only_under book_path md f :
  no_slash (name book_path) = true →
  respects (only_under (temp_dir cfg))
    (convert_to_m4b_ffmpeg712 cfg subprocess_run (staged_path cfg book_path) md f).
Proof.
  intros Hn%(no_slash_name_staged cfg).
  apply (respects_convert _ (λ p, temp_dir cfg `prefix_of` p));
    eauto using only_under_put, only_under_remove.
  rewrite file_list_path_eq by done. apply temp_prefix_snoc.
Qed.

(** The scratch files of a job lie beside its staged copy. *)
Lemma scratch_beside_staged book_path :
  no_slash (name book_path) = true →
  ¬ beets_config_file cfg (staged_path cfg book_path)
      `prefix_of` staged_path cfg book_path
  ∧ ¬ beets_library cfg (staged_path cfg book_path)
      `prefix_of` staged_path cfg book_path
  ∧ ¬ file_list_path cfg (staged_path cfg book_path)
      `prefix_of` staged_path cfg book_path.
Proof.
  intros Hn. pose proof (no_slash_name_staged cfg _ Hn) as Hs.
  rewrite beets_config_file_eq, beets_library_eq, file_list_path_eq by done.
  rewrite name_staged_path by done. rewrite staged_path_eq by done.
  repeat split; intros H%sibling_prefix; apply (f_equal String.length) in H;
    rewrite ?str_length_append in H; simpl in H; lia.
Qed.

Lemma enrich_keeps_staged book_path md :
  no_slash (name book_path) = true →
  respects (keeps_dir (staged_path cfg book_path))
    (enrich cfg mutagen_File subprocess_run (staged_path cfg book_path) md).
Proof.
  intros Hn. destruct (scratch_beside_staged _ Hn) as (? & ? & ?).
  apply (respects_enrich _ (λ p, ¬ p `prefix_of` staged_path cfg book_path));
    eauto using keeps_dir_put, keeps_dir_remove.
Qed.

Lemma convert_keeps_staged book_path md f :
  no_slash (name book_path) = true →
  respects (keeps_dir (staged_path cfg book_path))
    (convert_to_m4b_ffmpeg712 cfg subprocess_run (staged_path cfg book_path) md f).
Proof.
  intros Hn. destruct (scratch_beside_staged _ Hn) as (? & ? & ?).
  apply (respects_convert _ (λ p, ¬ p `prefix_of` staged_path cfg book_path));
    eauto using keeps_dir_put, keeps_dir_remove.
Qed.

(** After a successful staging the staged copy is a directory. *)
Lemma stage_is_dir book_path fs fs' :
  stage cfg book_path fs = (Ok (), fs') →
  FS.is_dir (staged_path cfg book_path) fs' = true.
Proof.
  unfold stage. intros (fs0 & fs1 & [= <- <-] & H)%bind_inv.
  apply bind_inv in H as ([] & fs2 & _ & H).
  unfold fs_op, FS.copytree in H.
  destruct (FS.lookup book_path fs2) as [[?|es]|]; try done.
  destruct (FS.exists_ _ fs2); [done|].
  destruct (FS.mkdir_p _ fs2) as [fs3|]; [|done]. simpl in H.
  destruct (FS.put _ _ fs3) as [fs4|] eqn:E; [|done]. injection H as <-.
  unfold FS.is_dir. by rewrite (put_lookup _ _ _ _ E).
Qed.


(** A failing tagging tool leaves [tag_with_beets] with the initial
    metadata, provided the cleanup can unlink its two scratch files. *)
Lemma tag_with_beets_failure p md fs fs_a r fs_b :
  no_slash (name p) = true →
  FS.write_file (beets_config_file cfg p)
    (beets_config_yaml (to_str (parent p)) (to_str (beets_library cfg p))) fs
  = Some fs_a →
  subprocess_run (beets_cmd cfg p) fs_a = (r, fs_b) →
  r ≠ Ok 0 →
  FS.is_dir (temp_dir cfg) fs_b = true →
  FS.is_dir (beets_config_file cfg p) fs_b = false →
  FS.is_dir (beets_library cfg p) fs_b = false →
  ∃ fs_c, tag_with_beets cfg mutagen_File subprocess_run p md fs = (Ok md, fs_c)
          ∧ FS.exists_ (beets_config_file cfg p) fs_c = false
          ∧ FS.exists_ (beets_library cfg p) fs_c = false.
Proof.
  intros Hn Hw Hrun Hr HT Hc Hl.
  pose proof (beets_config_file_eq cfg p Hn) as Ec.
  pose proof (beets_library_eq cfg p Hn) as Ex.
  set (c := "beets_config_" +:+ name p +:+ ".yaml") in *.
  set (x := "beets_" +:+ name p +:+ ".db") in *.
  assert (c ≠ x) as Hcx.
  { intros H%(f_equal String.length). unfold c, x in H.
    rewrite !str_length_append in H. simpl in H. lia. }
  rewrite Ec in Hc. rewrite Ex in Hl.
  destruct (unlink_in_dir _ _ _ HT Hc) as (fs1 & Hu1 & HT1 & Hg1 & Hsib).
  assert (FS.is_dir (temp_dir cfg ++ [x]) fs1 = false) as Hl1.
  { unfold FS.is_dir in *. rewrite Hsib; [done|]. congruence. }
  destruct (unlink_in_dir _ _ _ HT1 Hl1) as (fs2 & Hu2 & _ & Hg2 & Hsib2).
  rewrite <-Ec in Hu1. rewrite <-Ex in Hu2. exists fs2.
  split; [|split].
  - unfold tag_with_beets, mbind at 1, M_bind at 1, fs_op at 1. rewrite Hw.
    unfold finally, catch, mbind at 1, M_bind at 1. rewrite Hrun.
    assert ((match r with
             | Ok a =>
                 (if a =? 0 then
                    fs0 ← get_fs;
                    match extract_metadata_from_files cfg mutagen_File fs0 p with
                    | Some updated_metadata => ret updated_metadata
                    | None => ret md
                    end
                  else ret md) fs_b
             | Raise e => (Raise e, fs_b)
             end) = (Ok md, fs_b) ∨ ∃ e, r = Raise e) as [->|[e ->]].
    { destruct r as [rc|e]; [left|eauto].
      destruct (Z.eqb_spec rc 0) as [->|]; [done|]. done. }
    + unfold mbind, M_bind, fs_op. by rewrite Hu1, Hu2.
    + unfold ret, mbind, M_bind, fs_op. by rewrite Hu1, Hu2.
  - unfold FS.exists_. by rewrite Ec, Hsib2, Hg1.
  - unfold FS.exists_. by rewrite Ex, Hg2.
Qed.

(** C6.  When the tagging tool exits with a non-zero status, times out or
    raises, [tag_with_beets] returns the initial metadata, and the job goes
    on to transcoding with that metadata: the concat list is written, the
    transcoding tool is run on the command line built from the initial
    metadata, and the outcome of the job is the outcome of transcoding and
    commit.  When the tool then succeeds and its output is moved to the
    planned place, the job ends with [Conversion complete]; it fails only
    when transcoding does.  The scratch files of the tagging tool must be
    unlinkable: when the tool returns, the temp directory is a directory and
    neither scratch path is one. *)
Theorem tagging_failure_is_soft fs book_path md d f fs1 fs2 fs_a r fs_b :
  wf_path book_path →
  enable_audible cfg && tag_before_conversion cfg = true →
  extract fs book_path = Some md →
  create_output_structure cfg md (name book_path) fs = (Ok (d, f), fs1) →
  FS.exists_ (d /: f) fs1 = false →
  stage cfg book_path fs1 = (Ok (), fs2) →
  FS.write_file (beets_config_file cfg (staged_path cfg book_path))
    (beets_config_yaml (to_str (parent (staged_path cfg book_path)))
       (to_str (beets_library cfg (staged_path cfg book_path)))) fs2
  = Some fs_a →
  subprocess_run (beets_cmd cfg (staged_path cfg book_path)) fs_a = (r, fs_b) →
  r ≠ Ok 0 →
  FS.is_dir (temp_dir cfg) fs_b = true →
  FS.is_dir (beets_config_file cfg (staged_path cfg book_path)) fs_b = false →
  FS.is_dir (beets_library cfg (staged_path cfg book_path)) fs_b = false →
  ∃ fs_c,
    tag_with_beets cfg mutagen_File subprocess_run (staged_path cfg book_path)
      md fs2 = (Ok md, fs_c)
    ∧ process book_path fs
      = catch (convert_and_commit cfg subprocess_run book_path
                 (staged_path cfg book_path) md f (d /: f)) on_error fs_c
    ∧ (∀ a l fs_l fs_t fs_u fs_m fs_n fs',
         audio_files fs_c (staged_path cfg book_path) = a :: l →
         FS.write_file (file_list_path cfg (staged_path cfg book_path))
           (PyStr.join "" (file_list_line <$> a :: l)) fs_c = Some fs_l →
         subprocess_run
           (ffmpeg_cmd cfg fs_l (staged_path cfg book_path) md
              (temp_dir cfg /: f)) fs_l = (Ok 0, fs_t) →
         FS.exists_ (temp_dir cfg /: f) fs_t = true →
         FS.unlink_missing_ok
           (file_list_path cfg (staged_path cfg book_path)) fs_t = Some fs_u →
         FS.exists_ (temp_dir cfg /: f) fs_u = true →
         FS.move (temp_dir cfg /: f) (d /: f) fs_u = Some fs_m →
         FS.rmtree book_path fs_m = Some fs_n →
         FS.rmtree (staged_path cfg book_path) fs_n = Some fs' →
         process book_path fs = (Ok Converted, fs'))
    ∧ (∀ a l fs_l r' fs_t,
         audio_files fs_c (staged_path cfg book_path) = a :: l →
         FS.write_file (file_list_path cfg (staged_path cfg book_path))
           (PyStr.join "" (file_list_line <$> a :: l)) fs_c = Some fs_l →
         subprocess_run
           (ffmpeg_cmd cfg fs_l (staged_path cfg book_path) md
              (temp_dir cfg /: f)) fs_l = (r', fs_t) →
         r' ≠ Ok 0 →
         process book_path fs = (Ok ConversionFailed, fs_t)).
Proof.
  intros Hn%no_slash_name%(no_slash_name_staged cfg) Hflags He Hc Hex Hst Hw
    Hrun Hr HT Hcf Hlib.
  destruct (tag_with_beets_failure _ md _ _ _ _ Hn Hw Hrun Hr HT Hcf Hlib)
    as (fs_c & Htag & _).
  exists fs_c. split; [done|].
  assert (process book_path fs
          = catch (convert_and_commit cfg subprocess_run book_path
                     (staged_path cfg book_path) md f (d /: f)) on_error fs_c)
    as Hgo.
  { rewrite (process_after_planning _ _ _ _ _ _ He Hc).
    unfold catch, skip_or_convert, mbind at 1, M_bind at 1, get_fs.
    rewrite Hex.
    unfold stage_and_convert, mbind at 1, M_bind at 1. rewrite Hst.
    unfold mbind at 1, M_bind at 1, enrich. by rewrite Hflags, Htag. }
  split; [done|]. split.
  - intros a l fs_l fs_t fs_u fs_m fs_n fs' Ha Hl Ht Hout Hu Hout' Hm Hb Hs.
    rewrite Hgo.
    unfold catch, convert_and_commit, mbind at 1, M_bind at 1.
    rewrite (convert_some_on_tool_success cfg subprocess_run _ md f fs_c
               a l fs_l fs_t fs_u Ha Hl Ht Hout Hu).
    unfold commit, mbind, M_bind, get_fs, fs_op, ret.
    by rewrite Hout', Hm, Hb, Hs.
  - intros a l fs_l r' fs_t Ha Hl Ht Hr'. rewrite Hgo.
    unfold catch, convert_and_commit, mbind at 1, M_bind at 1.
    by rewrite (convert_none_on_tool_failure cfg subprocess_run _ md f fs_c
                  a l fs_l r' fs_t Ha Hl Ht Hr').
Qed.

Lemma convert_result p md f fs x fs' :
  convert_to_m4b_ffmpeg712 cfg subprocess_run p md f fs = (Ok (Some x), fs') →
  x = temp_dir cfg /: f.
Proof.
  unfold convert_to_m4b_ffmpeg712, mbind, M_bind, get_fs, catch, fs_op, ret.
  destruct (audio_files fs p); [done|].
  destruct (FS.write_file _ _ fs) as [fs1|]; [|done].
  destruct (subprocess_run _ fs1) as [[rc|e] fs2]; [|done].
  destruct (_ && _); [|done].
  destruct (FS.unlink_missing_ok _ fs2); [|done]. by intros [= <- _].
Qed.

Lemma commit_keeps_dir q book_path temp_book_path x final :
  ¬ x `prefix_of` q → ¬ final `prefix_of` q →
  ¬ book_path `prefix_of` q → ¬ temp_book_path `prefix_of` q →
  respects (keeps_dir q) (commit book_path temp_book_path x final).
Proof.
  intros Hx Hf Hb Ht. unfold commit.
  pose (ok := λ p : path, ¬ p `prefix_of` q).
  apply respects_bind; [apply _| |intros _].
  { apply (respects_move _ ok); eauto using keeps_dir_put, keeps_dir_remove.
    by apply not_prefix_below. }
  apply respects_bind; [apply _| |intros _].
  { apply (respects_rmtree _ ok); eauto using keeps_dir_remove. }
  apply respects_bind; [apply _| |intros _; apply respects_ret; apply _].
  apply (respects_rmtree _ ok); eauto using keeps_dir_remove.
Qed.

(** Whatever is at or above the planned output directory stays a directory
    through everything that follows planning. *)
Lemma skip_or_convert_keeps_dir book_path md q :
  no_slash (name book_path) = true →
  ¬ book_path `prefix_of` q → ¬ temp_dir cfg `prefix_of` q →
  q `prefix_of` output_book_dir cfg md →
  respects (keeps_dir q)
    (skip_or_convert cfg mutagen_File subprocess_run book_path md
       (output_book_dir cfg md) (m4b_filename cfg md)).
Proof.
  intros Hn Hb HT Hq.
  pose proof (no_slash_name_staged cfg _ Hn) as Hs.
  pose (ok := λ p : path, ¬ p `prefix_of` q).
  assert (ok (output_book_dir cfg md /: m4b_filename cfg md)) as Hfinal.
  { intros H. apply (planned_file_not_above
      (output_dir cfg /: sanitize_filename cfg (artist md))
      (sanitize_filename cfg (album md)) ".m4b"); [done|simpl; lia|].
    by etrans. }
  assert (ok (temp_dir cfg /: m4b_filename cfg md)) as Hsrc.
  { unfold ok, joinpath in *.
    destruct (PyStr.startswith "/" (m4b_filename cfg md)); [done|].
    by apply not_prefix_below. }
  assert (ok (staged_path cfg book_path)) as Hst.
  { unfold ok. rewrite staged_path_eq by done. by apply not_prefix_below. }
  assert (ok (beets_config_file cfg (staged_path cfg book_path))) as Hcf.
  { unfold ok. rewrite beets_config_file_eq by done. by apply not_prefix_below. }
  assert (ok (beets_library cfg (staged_path cfg book_path))) as Hlib.
  { unfold ok. rewrite beets_library_eq by done. by apply not_prefix_below. }
  assert (ok (file_list_path cfg (staged_path cfg book_path))) as Hfl.
  { unfold ok. rewrite file_list_path_eq by done. by apply not_prefix_below. }
  unfold skip_or_convert.
  apply respects_bind; [apply _|apply respects_get_fs; apply _|intros fs0].
  apply respects_if.
  { apply respects_bind; [apply _| |intros _; apply respects_ret; apply _].
    apply (respects_rmtree _ ok); eauto using keeps_dir_remove. }
  unfold stage_and_convert.
  apply respects_bind; [apply _| |intros _].
  { apply (respects_stage _ ok);
      eauto using keeps_dir_put, keeps_dir_remove, keeps_dir_mkdir_p. }
  apply respects_bind; [apply _| |intros enhanced].
  { apply (respects_enrich _ ok); eauto using keeps_dir_put, keeps_dir_remove. }
  intros fs. unfold convert_and_commit, mbind, M_bind.
  pose proof (respects_convert (keeps_dir q) ok
                ltac:(eauto using keeps_dir_put)
                ltac:(eauto using keeps_dir_remove)
                cfg subprocess_run (λ cmd, run_keeps_dirs cmd q)
                (staged_path cfg book_path) enhanced (m4b_filename cfg md)
                Hfl fs) as Hconv.
  destruct (convert_to_m4b_ffmpeg712 _ _ _ _ _ fs) as [[[x|]|e] fs1] eqn:E;
    simpl in *; try done.
  apply convert_result in E as ->.
  destruct (FS.exists_ _ fs1); [|done].
  etrans; [done|]. by apply commit_keeps_dir.
Qed.


End Pipeline.



(** ** The pipeline on the concrete world *)

Lemma run_timeout_in_temp T cmd :
  respects (only_under T) (Demo.run_timeout cmd).
Proof. by intros fs q U. Qed.

Lemma run_timeout_keeps_dirs cmd q :
  respects (keeps_dir q) (Demo.run_timeout cmd).
Proof. intros fs H. exact H. Qed.

Lemma unrelated_demo (a b : string) (p q : path) :
  a ≠ b → PyPath.unrelated (a :: p) (b :: q).
Proof. intros Hab. split; intros H%prefix_cons_inv_1; congruence. Qed.


Lemma tagging_failure_is_soft_witness :
  tag_with_beets default_config Demo.mutagen_File Demo.run_beet_fails
    (staged_path default_config Demo.jane) Demo.md_jane Demo.fs_staged
  = (Ok Demo.md_jane, Demo.fs_staged)
  ∧ process_audiobook default_config Demo.mutagen_File Demo.run_beet_fails
      Demo.jane Demo.fs_tagless = (Ok Converted, fs_committed)
  ∧ FS.lookup ["output"; "Jane Doe"; "My Book"; "My Book.m4b"] fs_committed
    = Some (File "m4b").
Proof.
  assert (tag_with_beets default_config Demo.mutagen_File Demo.run_beet_fails
            (staged_path default_config Demo.jane) Demo.md_jane Demo.fs_staged
          = (Ok Demo.md_jane, Demo.fs_staged)) as E by by vm_compute.
  destruct (tagging_failure_is_soft default_config Demo.mutagen_File
              Demo.run_beet_fails Demo.fs_tagless Demo.jane Demo.md_jane
              ["output"; "Jane Doe"; "My Book"] "My Book.m4b" Demo.fs_planned
              Demo.fs_staged Demo.fs_configured (Ok 1) Demo.fs_configured)
    as (fs_c & Htag & _ & Hok & _).
  - repeat constructor; by vm_compute.
  - done.
  - by vm_compute.
  - by vm_compute.
  - by vm_compute.
  - by vm_compute.
  - by vm_compute.
  - by vm_compute.
  - done.
  - by vm_compute.
  - by vm_compute.
  - by vm_compute.
  - rewrite E in Htag. injection Htag as <-.
    split; [done|]. split; [|by vm_compute].
    eapply Hok; vm_compute; reflexivity.
Defined.



(** The scenarios of the specification, evaluated. *)

(** A failing tagging tool: the job still ends with the converted file in
    the output tree, the source and the staged copy removed. *)
Example tagging_fails_output_produced :
  ∃ fs', process_audiobook default_config Demo.mutagen_File Demo.run_beet_fails
           Demo.jane Demo.fs_tagless = (Ok Converted, fs')
    ∧ FS.lookup ["output"; "Jane Doe"; "My Book"; "My Book.m4b"] fs'
      = Some (File "m4b")
    ∧ FS.exists_ Demo.jane fs' = false
    ∧ FS.listdir ["temp"] fs' = [].
Proof. eexists. split; [by vm_compute|]. by vm_compute. Qed.

(** A flat book without tags goes under [Unknown Author]. *)
Example flat_untagged_plan :
  extract_metadata_from_files default_config Demo.mutagen_File
    Demo.fs_corrupt ["input"; "Book One"]
  = Some {| title := "Book One"; artist := "Unknown Author";
            album := "Book One"; year := None |}
  ∧ output_book_dir default_config
      {| title := "Book One"; artist := "Unknown Author";
         album := "Book One"; year := None |}
    = ["output"; "Unknown Author"; "Book One"].
Proof. by vm_compute. Qed.

(** ** More on [sanitize_filename] *)
Section SanitizeNormalForm.
Import PyStr.

Lemma ws_normal_collapse b s : ws_normal b (collapse_ws_go b s) = true.
Proof.
  revert b. induction s as [|c s IH]; intros b; [done|]. cbn [collapse_ws_go].
  destruct (is_space c) eqn:E.
  - destruct b; [apply IH|]. cbn [ws_normal]. by rewrite IH.
  - cbn [ws_normal]. rewrite E. apply IH.
Qed.

Lemma collapse_ws_go_fixed b s : ws_normal b s = true → collapse_ws_go b s = s.
Proof.
  revert b. induction s as [|c s IH]; intros b; [done|].
  cbn [ws_normal collapse_ws_go]. destruct (is_space c).
  - intros [[->%bool_decide_eq_true Hb%negb_true_iff]%andb_prop Hs]%andb_prop.
    rewrite Hb. by rewrite IH.
  - intros Hs. by rewrite IH.
Qed.

Lemma ws_normal_lstrip b b' s : ws_normal b s = true → ws_normal b' (lstrip s) = true.
Proof.
  revert b. induction s as [|c s IH]; intros b; [done|].
  cbn [ws_normal lstrip]. destruct (is_space c) eqn:E.
  - intros [_ Hs]%andb_prop. by eapply IH.
  - intros Hs. cbn [ws_normal]. by rewrite E.
Qed.

Lemma ws_normal_rstrip b s : ws_normal b s = true → ws_normal b (rstrip s) = true.
Proof.
  revert b. induction s as [|c s IH]; intros b; [done|].
  cbn [ws_normal rstrip]. destruct (is_space c) eqn:E.
  - intros [Hc Hs]%andb_prop. destruct (is_empty (rstrip s)); [done|].
    cbn [andb ws_normal]. by rewrite E, Hc, IH.
  - intros Hs. cbn [andb ws_normal]. by rewrite E, IH.
Qed.

Lemma ws_normal_take b n s : ws_normal b s = true → ws_normal b (take n s) = true.
Proof.
  revert b n. induction s as [|c s IH]; intros b [|n]; try done.
  cbn [ws_normal take]. destruct (is_space c).
  - intros [Hc Hs]%andb_prop. by rewrite Hc, IH.
  - intros Hs. by rewrite IH.
Qed.

Lemma starts_clean_lstrip s : starts_clean (lstrip s) = true.
Proof.
  induction s as [|c s IH]; [done|]. cbn [lstrip].
  destruct (is_space c) eqn:E; [done|]. simpl. by rewrite E.
Qed.

Lemma lstrip_fixed s : starts_clean s = true → lstrip s = s.
Proof. destruct s as [|c s]; [done|]. simpl. by intros ->%negb_true_iff. Qed.

Lemma starts_clean_rstrip s : starts_clean s = true → starts_clean (rstrip s) = true.
Proof.
  destruct s as [|c s]; [done|]. cbn [starts_clean rstrip].
  intros H. rewrite (proj1 (negb_true_iff _) H). simpl. done.
Qed.

Lemma starts_clean_take n s : starts_clean s = true → starts_clean (take n s) = true.
Proof. by destruct s, n. Qed.

Lemma ws_normal_take_slice b n s :
  ws_normal b s = true → ws_normal b (slice_to n s) = true.
Proof. intros. unfold slice_to. destruct (0 <=? n); by apply ws_normal_take. Qed.

Lemma starts_clean_slice n s :
  starts_clean s = true → starts_clean (slice_to n s) = true.
Proof. intros. unfold slice_to. destruct (0 <=? n); by apply starts_clean_take. Qed.

Lemma rstrip_rstrip s : rstrip (rstrip s) = rstrip s.
Proof.
  induction s as [|c s IH]; [done|]. cbn [rstrip].
  destruct (is_space c && is_empty (rstrip s)) eqn:E; [done|].
  cbn [rstrip]. by rewrite IH, E.
Qed.

Lemma filter_fixed keep s : all keep s = true → filter keep s = s.
Proof.
  induction s as [|c s IH]; [done|]. simpl.
  intros [-> Hs]%andb_prop. by rewrite IH.
Qed.

(** A string without white space at its ends is a fixed point of [strip]
    when [rstrip] leaves it alone. *)
Lemma strip_fixed s : starts_clean s = true → rstrip s = s → strip s = s.
Proof. intros Hs Hr. unfold strip. by rewrite lstrip_fixed. Qed.

End SanitizeNormalForm.

Lemma sanitize_normal_form cfg s :
  sanitize_names cfg = true →
  PyStr.strip (sanitize_filename cfg s) = sanitize_filename cfg s
  ∧ ws_normal false (sanitize_filename cfg s) = true.
Proof.
  intros Hs. unfold sanitize_filename. rewrite Hs. cbn [negb].
  set (g := PyStr.collapse_ws _).
  assert (ws_normal false g = true) as Hg by apply ws_normal_collapse.
  assert (ws_normal false (PyStr.strip g) = true) as Hn.
  { unfold PyStr.strip. by apply ws_normal_rstrip, (ws_normal_lstrip false). }
  assert (starts_clean (PyStr.strip g) = true) as Hc.
  { unfold PyStr.strip. apply starts_clean_rstrip, starts_clean_lstrip. }
  destruct (_ >? _).
  - split; [|by apply ws_normal_rstrip, ws_normal_take_slice].
    apply strip_fixed; [|apply rstrip_rstrip].
    by apply starts_clean_rstrip, starts_clean_slice.
  - split; [|done]. apply strip_fixed; [done|]. apply rstrip_rstrip.
Qed.

(** The result of [sanitize_filename] is in normal form: it neither starts
    nor ends with white space, and its white space is single spaces between
    other characters (whatever the maximal length). *)
Theorem sanitize_filename_normal cfg s :
  sanitize_names cfg = true →
  PyStr.strip (sanitize_filename cfg s) = sanitize_filename cfg s
  ∧ ws_normal false (sanitize_filename cfg s) = true.
Proof. apply sanitize_normal_form. Qed.

Lemma sanitize_filename_normal_witness :
  PyStr.strip (sanitize_filename default_config "  a<b>:  c/d?  ")
  = sanitize_filename default_config "  a<b>:  c/d?  "
  ∧ ws_normal false (sanitize_filename default_config "  a<b>:  c/d?  ") = true.
Proof. by apply (sanitize_filename_normal default_config). Defined.

Lemma sanitize_clean_name cfg s :
  sanitize_names cfg = true →
  PyStr.all (λ c, negb (is_reserved c)) s = true →
  ws_normal false s = true →
  PyStr.strip s = s →
  Z.of_nat (String.length s) ≤ max_filename_length cfg →
  sanitize_filename cfg s = s.
Proof.
  intros Hs Hr Hn Hst Hl. unfold sanitize_filename. rewrite Hs. cbn [negb].
  rewrite filter_fixed by done. unfold PyStr.collapse_ws.
  rewrite collapse_ws_go_fixed, Hst by done.
  destruct (Z.gtb_spec (Z.of_nat (String.length s)) (max_filename_length cfg));
    [lia|done].
Qed.

(** A name that needs no sanitizing comes back unchanged: no reserved
    character, white space in normal form, no white space at the ends, and
    not longer than the maximum. *)
Theorem sanitize_filename_fixed cfg s :
  sanitize_names cfg = true →
  PyStr.all (λ c, negb (is_reserved c)) s = true →
  ws_normal false s = true →
  PyStr.strip s = s →
  Z.of_nat (String.length s) ≤ max_filename_length cfg →
  sanitize_filename cfg s = s.
Proof. apply sanitize_clean_name. Qed.

Lemma sanitize_filename_fixed_witness :
  sanitize_filename default_config "Unknown Author" = "Unknown Author".
Proof.
  apply (sanitize_filename_fixed default_config "Unknown Author");
    [reflexivity..|simpl; lia].
Defined.

(** [sanitize_filename] is idempotent (with sanitizing enabled and a
    non-negative maximal length). *)
Theorem sanitize_filename_idempotent cfg s :
  sanitize_names cfg = true → 0 ≤ max_filename_length cfg →
  sanitize_filename cfg (sanitize_filename cfg s) = sanitize_filename cfg s.
Proof.
  intros Hs Hmax. destruct (sanitize_normal_form cfg s Hs) as [Hst Hn].
  apply sanitize_clean_name; try done.
  - by apply sanitize_filename_no_reserved.
  - by apply sanitize_filename_length.
Qed.

Lemma sanitize_filename_idempotent_witness :
  sanitize_filename default_config
    (sanitize_filename default_config "  a<b>:  c/d?  ")
  = sanitize_filename default_config "  a<b>:  c/d?  ".
Proof.
  apply (sanitize_filename_idempotent default_config);
    [reflexivity|simpl; lia].
Defined.

(** With a negative maximal length idempotence can fail: [abc] is cut to
    [ab], and [ab] to [a]. *)
Example sanitize_filename_negative_not_idempotent :
  sanitize_filename Demo.cfg_negative "abc" = "ab"
  ∧ sanitize_filename Demo.cfg_negative "ab" = "a".
Proof. by vm_compute. Qed.

(** ** The list of audio files *)
Section AudioFiles.

#[local] Instance path_le_dec p q : Decision (path_le p q).
Proof. unfold path_le. apply _. Defined.

Lemma string_leb_le a b : Is_true (String.leb a b) ↔ (a ≤ b)%string.
Proof. done. Qed.

#[local] Instance path_le_trans : Transitive path_le.
Proof.
  unfold path_le. intros p. induction p as [|a p IH]; intros [|b q] [|c r];
    simpl; try done.
  repeat case_bool_decide; subst; try congruence; try (by apply IH);
    try (by intros); intros L1 L2.
  - exfalso. apply string_leb_le in L1, L2.
    by match goal with H : _ ≠ _ |- _ => apply H, (anti_symm (≤)%string) end.
  - apply string_leb_le in L1, L2. apply string_leb_le. by etrans.
Qed.

#[local] Instance path_le_total : Total path_le.
Proof.
  unfold path_le. intros p. induction p as [|a p IH]; intros [|b q];
    simpl; auto.
  repeat case_bool_decide; subst; try congruence;
    first [apply IH | destruct (total (≤)%string a b); auto].
Qed.

Lemma endswith_mp3_m4a s :
  PyStr.endswith ".mp3" s = true → PyStr.endswith ".m4a" s = true → False.
Proof.
  induction s as [|c s IH]; [done|]. cbn [PyStr.endswith].
  intros [H1|H1]%orb_prop [H2|H2]%orb_prop.
  - apply bool_decide_eq_true in H1, H2. congruence.
  - apply bool_decide_eq_true in H1. injection H1 as -> ->. done.
  - apply bool_decide_eq_true in H2. injection H2 as -> ->. done.
  - by apply IH.
Qed.

Lemma NoDup_listdir p fs : NoDup (FS.listdir p fs).
Proof.
  unfold FS.listdir. destruct (FS.lookup p fs) as [[?|es]|];
    try apply NoDup_nil_2. apply NoDup_fst_map_to_list.
Qed.

Lemma NoDup_glob matches p fs : NoDup (FS.glob matches p fs).
Proof.
  unfold FS.glob. apply NoDup_fmap_2.
  - intros x y H. by apply snoc_inj in H.
  - apply NoDup_filter, NoDup_listdir.
Qed.

Lemma audio_files_ordered fs p :
  StronglySorted path_le (audio_files fs p)
  ∧ NoDup (audio_files fs p)
  ∧ ∀ f, f ∈ audio_files fs p ↔
         ∃ n, f = p ++ [n] ∧ is_audio_name n = true
              ∧ is_Some (FS.lookup (p ++ [n]) fs).
Proof.
  split; [|split].
  - unfold audio_files, FS.sorted. apply (StronglySorted_merge_sort path_le).
  - unfold audio_files, FS.sorted. rewrite merge_sort_Permutation.
    apply NoDup_app. split; [apply NoDup_glob|]. split; [|apply NoDup_glob].
    intros f (n & -> & Hn & _)%elem_of_glob (n' & Heq & Hn' & _)%elem_of_glob.
    apply snoc_inj in Heq as <-. by eapply endswith_mp3_m4a.
  - apply elem_of_audio_files.
Qed.

(** The audio files of a directory are listed in path order, each once, and
    they are exactly the entries of the directory whose name ends in [.mp3]
    or [.m4a]. *)
Theorem audio_files_sorted_nodup fs p :
  StronglySorted path_le (audio_files fs p)
  ∧ NoDup (audio_files fs p)
  ∧ ∀ f, f ∈ audio_files fs p ↔
         ∃ n, f = p ++ [n] ∧ is_audio_name n = true
              ∧ is_Some (FS.lookup (p ++ [n]) fs).
Proof. apply audio_files_ordered. Qed.

(** The file the tags are read from is the least audio file. *)
Corollary first_audio_file_least fs p f l g :
  audio_files fs p = f :: l → g ∈ audio_files fs p → path_le f g.
Proof.
  intros E Hg. destruct (audio_files_ordered fs p) as (Hs & _ & _).
  rewrite E in Hs, Hg. apply StronglySorted_inv in Hs as [_ Hall].
  apply elem_of_cons in Hg as [->|Hg]; [by destruct (total path_le f f)|].
  by eapply Forall_forall in Hall.
Qed.

End AudioFiles.

(** ** More on structure detection and metadata resolution *)
Section MoreMetadata.
Import PyPath.
Context (cfg : config).
Context (mutagen_File : string → string → res (option audio)).

Abbreviation extract := (extract_metadata_from_files cfg mutagen_File).

(** The classification depends on the depth below the input root alone: a
    directory directly in the input root is flat, a directory two or more
    levels below it is structured, with its parent as the author. *)
Theorem detect_by_depth :
  (∀ b, detect_input_structure cfg (input_dir cfg ++ [b]) = Flat b)
  ∧ (∀ rel a b, detect_input_structure cfg (input_dir cfg ++ rel ++ [a; b])
                = Structured a b).
Proof.
  unfold detect_input_structure. split.
  - intros b. rewrite parent_snoc, name_snoc.
    by rewrite bool_decide_eq_false_2 by (intros H; by apply H).
  - intros rel a b.
    replace (input_dir cfg ++ rel ++ [a; b])
      with ((input_dir cfg ++ rel ++ [a]) ++ [b])
      by (by rewrite <-!app_assoc).
    rewrite parent_snoc, name_snoc, !app_assoc, name_snoc.
    rewrite bool_decide_eq_true_2; [done|].
    intros H%(f_equal length). rewrite !length_app in H. simpl in H. lia.
Qed.

Lemma clean_Some s : PyStr.strip s ≠ "" → clean (Some s) = Some (PyStr.strip s).
Proof.
  intros H. unfold clean. destruct s as [|c s]; [done|]. done.
Qed.

Lemma opt_truthy_Some_ne s : s ≠ "" → opt_truthy (Some s) = true.
Proof. by destruct s. Qed.

Lemma read_tags_dict d t a b :
  first (tag_get d "TIT2") = Ok t → t ≠ "" →
  first (tag_get d "TPE1") = Ok a →
  first (tag_get d "TALB") = Ok b →
  read_tags (Audio (Some (TagsDict d)))
  = Ok {| t_title := Some t; t_artist := Some a; t_album := Some b;
          t_year := head (tag_get d "TDRC") |}.
Proof.
  intros Ht Tne Ha Hb. unfold read_tags.
  assert (tags_truthy (TagsDict d) = true) as ->.
  { simpl. apply negb_true_iff, bool_decide_eq_false. intros ->.
    unfold tag_get in Ht. rewrite lookup_empty in Ht. simpl in Ht. congruence. }
  rewrite Ht, Ha, Hb. unfold mbind, res_bind.
  rewrite (proj2 (str_truthy_nonempty t) Tne). by destruct (tag_get d "TDRC").
Qed.

(** Embedded tags take priority: when the first audio file carries
    title, artist and album frames that are not blank, the record holds
    their stripped values, wherever the directory lies. *)
Theorem tags_take_priority fs book_path f l d t a b :
  audio_files fs book_path = f :: l →
  open_audio mutagen_File fs f = Ok (Some (Audio (Some (TagsDict d)))) →
  first (tag_get d "TIT2") = Ok t →
  first (tag_get d "TPE1") = Ok a →
  first (tag_get d "TALB") = Ok b →
  PyStr.strip t ≠ "" → PyStr.strip a ≠ "" → PyStr.strip b ≠ "" →
  extract fs book_path
  = Some {| title := PyStr.strip t; artist := PyStr.strip a;
            album := PyStr.strip b;
            year := clean (head (tag_get d "TDRC")) |}.
Proof.
  intros E Ho Ht Ha Hb St Sa Sb.
  assert (t ≠ "") as Tne by (by intros ->).
  unfold extract_metadata_from_files, extract_try. rewrite E, Ho.
  unfold mbind, res_bind. rewrite (read_tags_dict d t a b) by done.
  f_equal.
  unfold final_fallback, structure_fallback, clean_fields.
  cbn [t_title t_artist t_album t_year]. rewrite !clean_Some by done.
  destruct (PyStr.strip t) as [|c1 x1]; [done|].
  destruct (PyStr.strip a) as [|c2 x2]; [done|].
  destruct (PyStr.strip b) as [|c3 x3]; [done|].
  by destruct (detect_input_structure cfg book_path).
Qed.

Lemma extract_tagless_eq fs book_path f l a :
  (parent book_path ≠ input_dir cfg → name (parent book_path) ≠ "") →
  audio_files fs book_path = f :: l →
  open_audio mutagen_File fs f = Ok (Some a) → tagless a →
  extract fs book_path = Some (extract_except cfg book_path).
Proof.
  intros Hp E Ho Ht.
  unfold extract_metadata_from_files, extract_try. rewrite E, Ho. simpl.
  assert (read_tags a = Ok no_fields) as ->.
  { destruct a as [[t|]]; simpl in *; [by rewrite Ht|done]. }
  simpl. f_equal.
  unfold final_fallback, structure_fallback, extract_except,
    detect_input_structure.
  case_bool_decide as Hd.
  - specialize (Hp Hd). destruct (name (parent book_path)); [done|].
    by destruct (name book_path).
  - by destruct (name book_path).
Qed.

(** A first file without tags resolves like one that cannot be read: both
    give the record of the [except] block (for a directory whose parent, when
    it is not the input root, has a name). *)
Theorem tagless_like_unreadable fs book_path f l a :
  (parent book_path ≠ input_dir cfg → name (parent book_path) ≠ "") →
  audio_files fs book_path = f :: l →
  open_audio mutagen_File fs f = Ok (Some a) → tagless a →
  extract fs book_path = Some (extract_except cfg book_path).
Proof. apply extract_tagless_eq. Qed.

(** Re-resolution after tagging reads the staged copy, whose parent is the
    temp directory: if its first file still has no tags, the record is named
    after the temp directory and the staged copy, not after the book. *)
Theorem reresolve_staged_tagless fs book_path f l a :
  no_slash (name book_path) = true →
  temp_dir cfg ≠ input_dir cfg → name (temp_dir cfg) ≠ "" →
  audio_files fs (staged_path cfg book_path) = f :: l →
  open_audio mutagen_File fs f = Ok (Some a) → tagless a →
  extract fs (staged_path cfg book_path)
  = Some {| title := "processing_" +:+ name book_path;
            artist := name (temp_dir cfg);
            album := "processing_" +:+ name book_path; year := None |}.
Proof.
  intros Hn Hti Htn E Ho Ht.
  rewrite (extract_tagless_eq fs _ f l a); try done.
  - rewrite extract_except_eq, staged_path_eq, parent_snoc, name_snoc by done.
    by rewrite bool_decide_eq_true_2.
  - rewrite staged_path_eq, parent_snoc by done. done.
Qed.

End MoreMetadata.

Lemma tags_take_priority_witness :
  extract_metadata_from_files default_config Demo.mutagen_File Demo.fs_done
    Demo.king
  = Some {| title := "It"; artist := "Stephen King"; album := "It";
            year := None |}.
Proof.
  etrans.
  - apply (tags_take_priority default_config Demo.mutagen_File Demo.fs_done
             Demo.king ["input"; "Stephen King"; "It"; "01.mp3"] []
             (<[ "TIT2" := ["It"] ]> (<[ "TPE1" := ["Stephen King"] ]>
                {[ "TALB" := ["It"] ]})) "It" "Stephen King" "It");
      by vm_compute.
  - by vm_compute.
Defined.

Lemma tagless_like_unreadable_witness :
  extract_metadata_from_files default_config Demo.mutagen_File Demo.fs_tagless
    Demo.jane
  = Some (extract_except default_config Demo.jane).
Proof.
  apply (tagless_like_unreadable default_config Demo.mutagen_File
           Demo.fs_tagless Demo.jane
           ["input"; "Jane Doe"; "My Book"; "01.mp3"]
           [["input"; "Jane Doe"; "My Book"; "02.mp3"]] (Audio None));
    [intros _|..]; by vm_compute.
Defined.

(** Where the parent has no name the two records differ: a first file
    without tags gives the artist [Unknown Author], one that cannot be read
    gives an empty artist. *)
Example tagless_unlike_unreadable_at_root :
  extract_metadata_from_files cfg_temp_root Demo.mutagen_File
    fs_tagless_at_root ["processing_b"]
  = Some {| title := "processing_b"; artist := "Unknown Author";
            album := "processing_b"; year := None |}
  ∧ extract_except cfg_temp_root ["processing_b"]
    = {| title := "processing_b"; artist := "";
         album := "processing_b"; year := None |}.
Proof. by vm_compute. Qed.

Lemma reresolve_staged_tagless_witness :
  extract_metadata_from_files default_config Demo.mutagen_File Demo.fs_staged
    (staged_path default_config Demo.jane)
  = Some {| title := "processing_My Book"; artist := "temp";
            album := "processing_My Book"; year := None |}.
Proof.
  etrans.
  - apply (reresolve_staged_tagless default_config Demo.mutagen_File
             Demo.fs_staged Demo.jane
             ["temp"; "processing_My Book"; "01.mp3"]
             [["temp"; "processing_My Book"; "02.mp3"]] (Audio None));
      by vm_compute.
  - by vm_compute.
Defined.

(** ** What removal never does *)
Section RemoveOnly.
Import PyPath.

(** Whatever exists after a [remove] existed before. *)
Lemma remove_no_create p fs fs' q :
  FS.remove p fs = Some fs' → FS.lookup q fs = None → FS.lookup q fs' = None.
Proof.
  revert fs fs' q. induction p as [|c p IH]; intros fs fs' q H Hq; [done|].
  destruct fs as [d'|es]; [by rewrite remove_file in H|].
  destruct q as [|c' q]; [done|]. rewrite lookup_cons in Hq.
  destruct (decide (p = [])) as [->|Hp].
  - rewrite remove_singleton in H.
    destruct (es !! c) as [n'|] eqn:E; [|done]. injection H as <-.
    rewrite lookup_cons. destruct (decide (c = c')) as [<-|Hc].
    + by rewrite lookup_delete_eq.
    + by rewrite lookup_delete_ne.
  - rewrite remove_cons in H by done.
    destruct (es !! c) as [n'|] eqn:E; [|done]. simpl in H.
    destruct (FS.remove p n') as [n''|] eqn:E'; [|done]. injection H as <-.
    rewrite lookup_cons. destruct (decide (c = c')) as [<-|Hc].
    + rewrite lookup_insert_eq. rewrite E in Hq. simpl in *. by eapply IH.
    + by rewrite lookup_insert_ne.
Qed.

(** What is not at or below the removed path still exists. *)
Lemma remove_keeps_exists p fs fs' q :
  FS.remove p fs = Some fs' → ¬ p `prefix_of` q →
  FS.exists_ q fs = true → FS.exists_ q fs' = true.
Proof.
  intros H Hp Hq. destruct (not_prefix_cases _ _ Hp) as [U|[Hpre Hne]].
  - unfold FS.exists_ in *. by rewrite (remove_frame _ _ _ _ H U).
  - pose proof (remove_ancestors _ _ _ _ H Hpre Hne) as Hd.
    unfold FS.is_dir, FS.exists_ in *. by destruct (FS.lookup q fs').
Qed.

Lemma unlink_gone p fs fs' :
  FS.unlink_missing_ok p fs = Some fs' → FS.lookup p fs' = None.
Proof.
  unfold FS.unlink_missing_ok.
  destruct (FS.lookup p fs) as [[d|es]|] eqn:E; [|done|].
  - apply remove_lookup.
  - destruct (FS.not_a_directory p fs); [done|]. by intros [= <-].
Qed.

Lemma unlink_no_create p fs fs' q :
  FS.unlink_missing_ok p fs = Some fs' →
  FS.lookup q fs = None → FS.lookup q fs' = None.
Proof.
  unfold FS.unlink_missing_ok.
  destruct (FS.lookup p fs) as [[d|es]|] eqn:E; [|done|].
  - apply remove_no_create.
  - destruct (FS.not_a_directory p fs); [done|]. by intros [= <-].
Qed.

Lemma lookup_below_file p r d fs :
  FS.lookup p fs = Some (File d) → r ≠ [] → FS.lookup (p ++ r) fs = None.
Proof. intros H Hr. rewrite lookup_app, H. simpl. by destruct r. Qed.

(** Unlinking a file leaves every other path in existence. *)
Lemma unlink_keeps_exists p fs fs' q :
  FS.unlink_missing_ok p fs = Some fs' → q ≠ p →
  FS.exists_ q fs = true → FS.exists_ q fs' = true.
Proof.
  unfold FS.unlink_missing_ok. intros H Hne Hq.
  destruct (FS.lookup p fs) as [[d|es]|] eqn:E; [|done|].
  - eapply remove_keeps_exists; [done| |done].
    intros [r ->]. destruct r as [|c r]; [by rewrite app_nil_r in Hne|].
    unfold FS.exists_ in Hq. by rewrite (lookup_below_file _ _ _ _ E) in Hq.
  - destruct (FS.not_a_directory p fs); [done|]. by injection H as <-.
Qed.

End RemoveOnly.

(** ** Tagging and transcoding, step by step *)
Section Steps.
Import PyPath.
Context (cfg : config).
Context (mutagen_File : string → string → res (option audio)).
Context (subprocess_run : list string → node → res Z * node).

Abbreviation extract := (extract_metadata_from_files cfg mutagen_File).
Abbreviation process := (process_audiobook cfg mutagen_File subprocess_run).

Lemma fs_op_inv f fs fs' : fs_op f fs = (Ok (), fs') → f fs = Some fs'.
Proof. unfold fs_op. destruct (f fs); [|done]. by intros [= <-]. Qed.

Lemma finally_inv {A} (m : M A) c fs (a : A) fs' :
  finally m c fs = (Ok a, fs') →
  ∃ fs1, m fs = (Ok a, fs1) ∧ c fs1 = (Ok (), fs').
Proof.
  unfold finally. destruct (m fs) as [r fs1].
  destruct (c fs1) as [[[]|e] fs2] eqn:Ec; [|done]. intros [= -> <-]. eauto.
Qed.

(** Whenever [tag_with_beets] returns, whatever the tagging tool did, the
    transient configuration file and the transient database are gone. *)
Theorem tag_with_beets_cleans_up p md fs m fs' :
  tag_with_beets cfg mutagen_File subprocess_run p md fs = (Ok m, fs') →
  FS.exists_ (beets_config_file cfg p) fs' = false
  ∧ FS.exists_ (beets_library cfg p) fs' = false.
Proof.
  unfold tag_with_beets. intros ([] & fs1 & _ & H)%bind_inv.
  apply finally_inv in H as (fs2 & _ & H).
  apply bind_inv in H as ([] & fs3 & H1%fs_op_inv & H2%fs_op_inv).
  unfold FS.exists_. rewrite (unlink_gone _ _ _ H2).
  by rewrite (unlink_no_create _ _ _ _ H2 (unlink_gone _ _ _ H1)).
Qed.

(** Without audio files the converter returns no output file, runs no tool
    and leaves the file system alone. *)
Theorem convert_without_audio p md f fs :
  ¬ has_audio fs p →
  convert_to_m4b_ffmpeg712 cfg subprocess_run p md f fs = (Ok None, fs).
Proof.
  intros H%audio_files_nil. unfold convert_to_m4b_ffmpeg712, mbind, M_bind.
  simpl. by rewrite H.
Qed.

(** Writing the concat list is the one step of the converter that is not
    inside its [try] block.  When there is no audio file, or once the list
    is written, the converter returns, whatever the tool does: a non-zero
    exit status, a timeout, an exception of the tool and an exception of the
    removal of the list all end in a result, none in an exception. *)
Theorem convert_raises_only_on_list p md f fs :
  audio_files fs p = []
  ∨ is_Some (FS.write_file (file_list_path cfg p)
               (PyStr.join "" (file_list_line <$> audio_files fs p)) fs) →
  ∃ r fs', convert_to_m4b_ffmpeg712 cfg subprocess_run p md f fs = (Ok r, fs').
Proof.
  unfold convert_to_m4b_ffmpeg712, mbind, M_bind, get_fs, catch, fs_op, ret.
  destruct (audio_files fs p) as [|a l] eqn:E; [by eexists _, _|].
  intros [?|[fs1 Hw]]; [done|]. rewrite Hw.
  destruct (subprocess_run _ fs1) as [[rc|e1] fs2]; [|by eexists _, _].
  destruct (_ && _); [|by eexists _, _].
  destruct (FS.unlink_missing_ok _ fs2); by eexists _, _.
Qed.

(** A returned output file is the planned file in the temp directory; it
    exists when the converter returns, and the concat list is gone. *)
Theorem convert_success p md f fs x fs' :
  convert_to_m4b_ffmpeg712 cfg subprocess_run p md f fs = (Ok (Some x), fs') →
  x = temp_dir cfg /: f
  ∧ FS.exists_ (file_list_path cfg p) fs' = false
  ∧ (x ≠ file_list_path cfg p → FS.exists_ x fs' = true).
Proof.
  intros H. pose proof (convert_result _ _ _ _ _ _ _ _ H) as ->.
  split; [done|]. revert H.
  unfold convert_to_m4b_ffmpeg712, mbind, M_bind, get_fs, catch, fs_op, ret.
  destruct (audio_files fs p) as [|a l] eqn:E; [done|].
  destruct (FS.write_file _ _ fs) as [fs1|] eqn:Hw; [|done].
  destruct (subprocess_run _ fs1) as [[rc|e1] fs2]; [|done].
  destruct (_ && _) eqn:Hc; [|done].
  apply andb_prop in Hc as [_ Hex].
  destruct (FS.unlink_missing_ok _ fs2) as [fs3|] eqn:Hu; [|done].
  intros [= <-]. split.
  - unfold FS.exists_. by rewrite (unlink_gone _ _ _ Hu).
  - intros Hne. by eapply unlink_keeps_exists.
Qed.

(** A directory without audio files is not a book: the job ends with
    [Could not extract metadata] and nothing is touched. *)
Theorem process_without_audio book_path fs :
  ¬ has_audio fs book_path →
  process book_path fs = (Ok NoMetadata, fs).
Proof.
  intros H%audio_files_nil.
  unfold process_audiobook, catch, mbind, M_bind, get_fs,
    extract_metadata_from_files. by rewrite H.
Qed.

Lemma move_inv src dst fs fs1 :
  FS.move src dst fs = Some fs1 →
  fs1 = fs ∧ (FS.is_dir dst fs = true ∨ dst = src)
  ∨ ∃ t real_dst fs_a,
      (real_dst = dst ∨ FS.is_dir dst fs = true ∧ real_dst = dst ++ [name src])
      ∧ FS.put real_dst t fs = Some fs_a ∧ FS.remove src fs_a = Some fs1.
Proof.
  unfold FS.move. destruct (FS.lookup src fs) as [t|]; [|done].
  destruct (FS.is_dir dst fs) eqn:Hd; cbn [andb].
  - destruct (FS.exists_ _ fs); [done|]. case_bool_decide.
    + intros [= <-]. left. auto.
    + destruct (_ && _); [done|].
      destruct (FS.put _ t fs) as [fs_a|] eqn:Hp; [|done]. simpl. intros Hr.
      right. exists t, (dst ++ [name src]), fs_a. auto.
  - case_bool_decide.
    + intros [= <-]. left. auto.
    + destruct (_ && _); [done|].
      destruct (FS.put _ t fs) as [fs_a|] eqn:Hp; [|done]. simpl. intros Hr.
      right. exists t, dst, fs_a. auto.
Qed.

(** After a move the destination exists, unless the moved file was above
    it. *)
Lemma move_exists src dst fs fs1 :
  FS.move src dst fs = Some fs1 → ¬ src `prefix_of` dst →
  FS.exists_ dst fs1 = true.
Proof.
  intros H Hs.
  destruct (move_inv _ _ _ _ H) as [[-> [Hd| ->]]|(t & rd & fs_a & Hrd & Hp & Hr)].
  - unfold FS.is_dir, FS.exists_ in *. by destruct (FS.lookup dst fs).
  - by destruct Hs.
  - eapply remove_keeps_exists; [done..|].
    destruct Hrd as [->|[Hd ->]].
    + unfold FS.exists_. by rewrite (put_lookup _ _ _ _ Hp).
    + assert (FS.is_dir dst fs_a = true) as Hd'.
      { eapply put_ancestors; [done|by apply prefix_app_r|].
        intros E%(f_equal length). rewrite length_app in E. simpl in E. lia. }
      unfold FS.is_dir, FS.exists_ in *. by destruct (FS.lookup dst fs_a).
Qed.

Lemma rmtree_inv p fs fs' : FS.rmtree p fs = Some fs' → FS.remove p fs = Some fs'.
Proof. unfold FS.rmtree. by destruct (FS.is_dir p fs). Qed.

Lemma commit_inv book_path temp_book_path x final fs o fs' :
  commit book_path temp_book_path x final fs = (Ok o, fs') →
  ∃ fs1 fs2, FS.move x final fs = Some fs1
             ∧ FS.remove book_path fs1 = Some fs2
             ∧ FS.remove temp_book_path fs2 = Some fs'.
Proof.
  unfold commit.
  intros ([] & fs1 & H1%fs_op_inv & H)%bind_inv.
  apply bind_inv in H as ([] & fs2 & H2%fs_op_inv%rmtree_inv & H).
  apply bind_inv in H as ([] & fs3 & H3%fs_op_inv%rmtree_inv & [= _ <-]).
  eauto.
Qed.

Lemma catch_Ok_inv (m : M job_end) fs fs' :
  catch m (λ _, ret Errored) fs = (Ok Converted, fs') →
  m fs = (Ok Converted, fs').
Proof.
  unfold catch. destruct (m fs) as [[o|e] fs1]; [done|]. by intros [= _].
Qed.

(** A job that ends with [Conversion complete] went through the commit. *)
Lemma process_Converted_inv book_path fs fs' :
  process book_path fs = (Ok Converted, fs') →
  ∃ md fs_k,
    extract fs book_path = Some md
    ∧ commit book_path (staged_path cfg book_path)
        (temp_dir cfg /: m4b_filename cfg md)
        (output_book_dir cfg md /: m4b_filename cfg md) fs_k
      = (Ok Converted, fs').
Proof.
  unfold process_audiobook. intros H%catch_Ok_inv.
  apply bind_inv in H as (fs0 & ? & [= <- <-] & H).
  destruct (extract fs book_path) as [md|] eqn:He; [|done].
  exists md. apply bind_inv in H as ([d f] & fs1 & Hc & H).
  apply create_output_structure_inv in Hc as (_ & -> & ->).
  unfold skip_or_convert in H. apply bind_inv in H as (? & ? & [= <- <-] & H).
  destruct (FS.exists_ _ fs1).
  { apply bind_inv in H as ([] & ? & _ & [= ]). }
  unfold stage_and_convert in H.
  apply bind_inv in H as ([] & fs2 & _ & H).
  apply bind_inv in H as (enh & fs3 & _ & H).
  unfold convert_and_commit in H.
  apply bind_inv in H as (x & fs4 & Hx & H).
  apply bind_inv in H as (? & ? & [= <- <-] & H).
  destruct x as [x|]; [|done]. apply convert_result in Hx as ->.
  destruct (FS.exists_ _ fs4); [|done]. eauto.
Qed.

(** A job that ends with [Conversion complete] has removed the source
    directory and the staged copy, and the planned output file exists, as
    long as neither of the two directories nor the converted file in the
    temp directory lies above the planned output file. *)
Theorem converted_job book_path fs fs' :
  process book_path fs = (Ok Converted, fs') →
  ∃ md, extract fs book_path = Some md
    ∧ FS.exists_ book_path fs' = false
    ∧ FS.exists_ (staged_path cfg book_path) fs' = false
    ∧ (¬ book_path `prefix_of` output_book_dir cfg md /: m4b_filename cfg md →
       ¬ staged_path cfg book_path
           `prefix_of` output_book_dir cfg md /: m4b_filename cfg md →
       ¬ temp_dir cfg /: m4b_filename cfg md
           `prefix_of` output_book_dir cfg md /: m4b_filename cfg md →
       FS.exists_ (output_book_dir cfg md /: m4b_filename cfg md) fs' = true).
Proof.
  intros (md & fs_k & He & Hc)%process_Converted_inv.
  apply commit_inv in Hc as (fs1 & fs2 & Hm & Hb & Hs).
  exists md. split; [done|]. split; [|split].
  - unfold FS.exists_.
    by rewrite (remove_no_create _ _ _ _ Hs (remove_lookup _ _ _ Hb)).
  - unfold FS.exists_. by rewrite (remove_lookup _ _ _ Hs).
  - intros Nb Ns Nx.
    eapply remove_keeps_exists; [done..|].
    eapply remove_keeps_exists; [done..|]. by eapply move_exists.
Qed.

(** Staging makes the staged copy an exact copy of the source directory,
    whatever was at the staged path before, and leaves the source as it
    was. *)
Theorem stage_copies book_path fs fs' :
  unrelated (staged_path cfg book_path) book_path →
  stage cfg book_path fs = (Ok (), fs') →
  FS.is_dir book_path fs = true
  ∧ FS.lookup (staged_path cfg book_path) fs' = FS.lookup book_path fs
  ∧ FS.lookup book_path fs' = FS.lookup book_path fs.
Proof.
  intros U. unfold stage. intros (fs0 & ? & [= <- <-] & H)%bind_inv.
  apply bind_inv in H as ([] & fs1 & Hrm & Hcp%fs_op_inv).
  assert (FS.lookup book_path fs1 = FS.lookup book_path fs) as E1.
  { destruct (FS.exists_ _ fs).
    - apply fs_op_inv, rmtree_inv in Hrm. by eapply remove_frame.
    - by injection Hrm as <-. }
  unfold FS.copytree in Hcp. rewrite E1 in Hcp.
  destruct (FS.lookup book_path fs) as [[?|es]|] eqn:Es; try done.
  destruct (FS.exists_ _ fs1); [done|].
  destruct (FS.mkdir_p _ fs1) as [fs2|] eqn:Hmk; [|done]. simpl in Hcp.
  split; [unfold FS.is_dir; by rewrite Es|]. split.
  - by rewrite (put_lookup _ _ _ _ Hcp).
  - rewrite (put_frame _ _ _ _ _ Hcp U).
    rewrite (mkdir_p_frame _ _ _ _ Hmk) by apply U. done.
Qed.

End Steps.

Lemma tag_with_beets_cleans_up_witness :
  FS.exists_ (beets_config_file default_config
                (staged_path default_config Demo.jane)) Demo.fs_tagged = false
  ∧ FS.exists_ (beets_library default_config
                  (staged_path default_config Demo.jane)) Demo.fs_tagged = false.
Proof.
  apply (tag_with_beets_cleans_up default_config Demo.mutagen_File
           Demo.run_timeout (staged_path default_config Demo.jane)
           Demo.md_jane Demo.fs_staged Demo.md_jane).
  by vm_compute.
Defined.

Lemma convert_without_audio_witness :
  convert_to_m4b_ffmpeg712 default_config Demo.run_beet_fails ["output"]
    Demo.md_jane "My Book.m4b" Demo.fs_tagless = (Ok None, Demo.fs_tagless).
Proof.
  apply (convert_without_audio default_config Demo.run_beet_fails ["output"]
           Demo.md_jane "My Book.m4b" Demo.fs_tagless).
  apply audio_files_nil. by vm_compute.
Defined.

Lemma convert_raises_only_on_list_witness :
  ∃ r fs', convert_to_m4b_ffmpeg712 default_config Demo.run_timeout
             (staged_path default_config Demo.jane) Demo.md_jane "My Book.m4b"
             Demo.fs_tagged = (Ok r, fs').
Proof.
  apply (convert_raises_only_on_list default_config Demo.run_timeout
           (staged_path default_config Demo.jane) Demo.md_jane "My Book.m4b"
           Demo.fs_tagged).
  right. apply (bool_decide_unpack _). by vm_compute.
Defined.

(** Without a temp directory the list cannot be written, and the converter
    raises before the tool is run. *)
Example convert_raises_without_temp_dir :
  convert_to_m4b_ffmpeg712 cfg_no_temp Demo.run_beet_fails Demo.jane
    Demo.md_jane "My Book.m4b" Demo.fs_tagless
  = (Raise OSError, Demo.fs_tagless).
Proof. by vm_compute. Qed.

Lemma convert_success_witness :
  ["temp"; "My Book.m4b"] = temp_dir default_config /: "My Book.m4b"
  ∧ FS.exists_ (file_list_path default_config
                  (staged_path default_config Demo.jane)) fs_converted = false
  ∧ (["temp"; "My Book.m4b"]
     ≠ file_list_path default_config (staged_path default_config Demo.jane) →
     FS.exists_ ["temp"; "My Book.m4b"] fs_converted = true).
Proof.
  apply (convert_success default_config Demo.run_beet_fails
           (staged_path default_config Demo.jane) Demo.md_jane "My Book.m4b"
           Demo.fs_staged ["temp"; "My Book.m4b"] fs_converted).
  by vm_compute.
Defined.

Lemma process_without_audio_witness :
  process_audiobook default_config Demo.mutagen_File Demo.run_beet_fails
    ["output"] Demo.fs_tagless = (Ok NoMetadata, Demo.fs_tagless).
Proof.
  apply (process_without_audio default_config Demo.mutagen_File
           Demo.run_beet_fails ["output"] Demo.fs_tagless).
  apply audio_files_nil. by vm_compute.
Defined.

Lemma converted_job_witness :
  ∃ md,
    extract_metadata_from_files default_config Demo.mutagen_File
      Demo.fs_tagless Demo.jane = Some md
    ∧ FS.exists_ Demo.jane fs_committed = false
    ∧ FS.exists_ (staged_path default_config Demo.jane) fs_committed = false
    ∧ (¬ Demo.jane `prefix_of`
           output_book_dir default_config md /: m4b_filename default_config md →
       ¬ staged_path default_config Demo.jane `prefix_of`
           output_book_dir default_config md /: m4b_filename default_config md →
       ¬ temp_dir default_config /: m4b_filename default_config md `prefix_of`
           output_book_dir default_config md /: m4b_filename default_config md →
       FS.exists_
         (output_book_dir default_config md /: m4b_filename default_config md)
         fs_committed = true).
Proof.
  apply (converted_job default_config Demo.mutagen_File Demo.run_beet_fails
           Demo.jane Demo.fs_tagless fs_committed).
  by vm_compute.
Defined.

Lemma stage_copies_witness :
  FS.is_dir Demo.jane Demo.fs_planned = true
  ∧ FS.lookup (staged_path default_config Demo.jane) Demo.fs_staged
    = FS.lookup Demo.jane Demo.fs_planned
  ∧ FS.lookup Demo.jane Demo.fs_staged = FS.lookup Demo.jane Demo.fs_planned.
Proof.
  apply (stage_copies default_config Demo.jane Demo.fs_planned Demo.fs_staged).
  - split; intros [k Hk]; discriminate Hk.
  - by vm_compute.
Defined.

(** ** The planned layout *)
Section Layout.
Import PyPath.
Context (cfg : config).

Lemma split_pieces_no_slash s :
  Forall (λ c, no_slash c = true) (PyStr.split "/" s).
Proof.
  induction s as [|c s IH]; simpl; [by constructor|].
  case_bool_decide as Hc; [by constructor|].
  assert (negb (bool_decide (c = "/"%char)) = true) as Hc'
    by by apply negb_true_iff, bool_decide_eq_false.
  destruct (PyStr.split "/" s) as [|w ws].
  - constructor; [|done]. unfold no_slash. cbn [PyStr.all]. by rewrite Hc'.
  - inversion IH as [|? ? Hw Hws]; subst. constructor; [|done].
    unfold no_slash in *. cbn [PyStr.all]. by rewrite Hc', Hw.
Qed.

Lemma parse_parts_wf s : wf_path (parse_parts s).
Proof.
  apply Forall_forall. intros c [[Hne Hdot] Hin]%list_elem_of_filter.
  split; [done|]. split; [done|].
  by apply (proj1 (Forall_forall _ _) (split_pieces_no_slash s)).
Qed.

Lemma joinpath_wf p s : wf_path p → wf_path (p /: s).
Proof.
  intros Hp. unfold joinpath. destruct (PyStr.startswith "/" s).
  - apply parse_parts_wf.
  - apply Forall_app. split; [done|apply parse_parts_wf].
Qed.

Lemma joinpath_relative p s :
  PyStr.startswith "/" s = false → p `prefix_of` p /: s.
Proof. intros H. unfold joinpath. rewrite H. by apply prefix_app_r. Qed.

(** Joining a string without slashes appends it, unless it is empty or a
    dot. *)
Lemma joinpath_no_slash p s :
  no_slash s = true → p /: s = p ++ filter (λ c, c ≠ "" ∧ c ≠ ".") [s].
Proof.
  intros Hs. unfold joinpath, parse_parts.
  by rewrite startswith_slash, split_no_slash.
Qed.

Lemma m4b_filename_valid md :
  sanitize_names cfg = true → valid_name (m4b_filename cfg md).
Proof.
  intros Hs. unfold m4b_filename. split; [|split].
  - intros H%(f_equal String.length). rewrite str_length_append in H.
    simpl in H. lia.
  - intros H%(f_equal String.length). rewrite str_length_append in H.
    simpl in H. lia.
  - by rewrite no_slash_append, sanitize_filename_no_slash.
Qed.

Lemma planned_layout_eq md :
  sanitize_names cfg = true →
  output_book_dir cfg md /: m4b_filename cfg md
  = output_dir cfg
    ++ filter (λ c, c ≠ "" ∧ c ≠ ".")
         [sanitize_filename cfg (artist md); sanitize_filename cfg (album md)]
    ++ [sanitize_filename cfg (album md) +:+ ".m4b"].
Proof.
  intros Hs. rewrite (joinpath_valid _ _ (m4b_filename_valid md Hs)).
  unfold output_book_dir.
  rewrite !joinpath_no_slash by by apply sanitize_filename_no_slash.
  rewrite <-!app_assoc. f_equal. rewrite app_assoc. f_equal.
  by rewrite <-filter_app.
Qed.

(** With sanitized names the path planned for the output file is, component
    by component, [output/artist/album/album.m4b] for the sanitized artist
    and album, where a sanitized name that is empty or a dot gives no
    component of its own.  This is the path as [pathlib] holds it: the
    sanitizer keeps the name [..], and a path with that component leads out
    of the output directory. *)
Theorem planned_layout md :
  sanitize_names cfg = true →
  output_book_dir cfg md /: m4b_filename cfg md
  = output_dir cfg
    ++ filter (λ c, c ≠ "" ∧ c ≠ ".")
         [sanitize_filename cfg (artist md); sanitize_filename cfg (album md)]
    ++ [sanitize_filename cfg (album md) +:+ ".m4b"].
Proof. apply planned_layout_eq. Qed.

End Layout.

Lemma planned_layout_witness :
  output_book_dir default_config
    {| title := "T"; artist := "???"; album := "A: B"; year := None |}
    /: m4b_filename default_config
         {| title := "T"; artist := "???"; album := "A: B"; year := None |}
  = ["output"; "A B"; "A B.m4b"].
Proof.
  etrans; [by apply (planned_layout default_config)|]. by vm_compute.
Defined.

(** Without sanitizing, an artist that is an absolute path takes the plan
    out of the output directory. *)
Example unsanitized_plan_escapes :
  output_book_dir Demo.cfg_raw
    {| title := "T"; artist := "/etc"; album := "A"; year := None |}
  = ["etc"; "A"].
Proof. by vm_compute. Qed.

(** ** Start-up *)
Section Startup.
Import PyPath.

Lemma file_in_the_way_empty p : file_in_the_way p (Dir ∅) = false.
Proof.
  unfold file_in_the_way, FS.is_file. destruct p as [|c p]; [done|].
  simpl. by rewrite lookup_empty.
Qed.

(** [mkdir_p] fails exactly when a regular file is in the way. *)
Lemma mkdir_p_None p fs :
  FS.mkdir_p p fs = None ↔ file_in_the_way p fs = true.
Proof.
  revert fs. induction p as [|c p IH]; intros fs.
  - destruct fs; simpl; unfold file_in_the_way; simpl; by split.
  - destruct fs as [d|es]; [by split|]. rewrite mkdir_p_cons.
    unfold file_in_the_way, FS.is_file in *. simpl.
    destruct (es !! c) as [n|] eqn:E; simpl.
    + rewrite <-IH. destruct (FS.mkdir_p p n); simpl; by split.
    + pose proof (IH (Dir ∅)) as H.
      pose proof (file_in_the_way_empty p) as He.
      unfold file_in_the_way, FS.is_file in He. rewrite He in H.
      destruct (FS.mkdir_p p (Dir ∅)); simpl; [by split|].
      destruct H as [H _]. by specialize (H eq_refl).
Qed.

Lemma file_in_the_way_iff p fs :
  file_in_the_way p fs = true
  ↔ ∃ q d, q `prefix_of` p ∧ FS.lookup q fs = Some (File d).
Proof.
  revert fs. induction p as [|c p IH]; intros fs.
  - unfold file_in_the_way, FS.is_file. simpl. split.
    + destruct fs as [d|]; [|done]. intros _. exists [], d. by split.
    + intros (q & d & ->%prefix_nil_inv & H). simpl in H. by injection H as ->.
  - destruct fs as [d|es].
    + split; [|intros _; by unfold file_in_the_way].
      intros _. exists [], d. split; [apply prefix_nil|done].
    + unfold file_in_the_way, FS.is_file in *. simpl.
      destruct (es !! c) as [n|] eqn:E.
      * rewrite IH. split.
        -- intros (q & d & Hq & Hl). exists (c :: q), d.
           split; [by apply prefix_cons|]. by rewrite lookup_cons, E.
        -- intros (q & d & Hq & Hl). destruct q as [|c' q]; [done|].
           pose proof (prefix_cons_inv_1 _ _ _ _ Hq) as ->.
           apply prefix_cons_inv_2 in Hq. rewrite lookup_cons, E in Hl. eauto.
      * split; [done|]. intros (q & d & Hq & Hl).
        destruct q as [|c' q]; [done|].
        pose proof (prefix_cons_inv_1 _ _ _ _ Hq) as ->.
        by rewrite lookup_cons, E in Hl.
Qed.

(** [mkdir_p] keeps every regular file. *)
Lemma mkdir_p_keeps_files p fs fs' q d :
  FS.mkdir_p p fs = Some fs' →
  FS.lookup q fs = Some (File d) → FS.lookup q fs' = Some (File d).
Proof.
  intros H Hq. destruct (decide (q `prefix_of` p)) as [Hp|Hp].
  - assert (FS.mkdir_p p fs = None) as Hn
      by (apply mkdir_p_None, file_in_the_way_iff; eauto). congruence.
  - by rewrite (mkdir_p_frame _ _ _ _ H Hp).
Qed.

Lemma mkdir_p_same_files p fs fs' :
  FS.mkdir_p p fs = Some fs' →
  ∀ q d, FS.lookup q fs' = Some (File d) ↔ FS.lookup q fs = Some (File d).
Proof.
  intros H q d. split; [by eapply mkdir_p_files|by eapply mkdir_p_keeps_files].
Qed.

Lemma file_in_the_way_same fs fs' p :
  (∀ q d, FS.lookup q fs' = Some (File d) ↔ FS.lookup q fs = Some (File d)) →
  file_in_the_way p fs' = file_in_the_way p fs.
Proof.
  intros H. apply eq_true_iff_eq. rewrite !file_in_the_way_iff.
  split; intros (q & d & Hq & Hl); exists q, d; (split; [done|]); by apply H.
Qed.


End Startup.

(** ** The scan of the input directory *)
Section Scan.
Import PyPath.
Context (cfg : config).
Context (mutagen_File : string → string → res (option audio)).
Context (subprocess_run : list string → node → res Z * node).
Context (listing_order : list string → list string).

Abbreviation process := (process_audiobook cfg mutagen_File subprocess_run).
Abbreviation scan :=
  (scan_for_books cfg mutagen_File subprocess_run listing_order).
Abbreviation if_book := (process_if_book cfg mutagen_File subprocess_run).

(** A job never raises. *)
Lemma process_returns book_path fs :
  ∃ o fs', process book_path fs = (Ok o, fs').
Proof.
  unfold process_audiobook, catch.
  match goal with
  | |- context [match ?m fs with _ => _ end] =>
      destruct (m fs) as [[o|e] fs1]
  end; unfold ret; eauto.
Qed.

Lemma respects_bind_post (R : node → node → Prop) `{!Transitive R}
    {A B} (P : A → Prop) (m : M A) (k : A → M B) :
  respects R m → (∀ fs a fs', m fs = (Ok a, fs') → P a) →
  (∀ a, P a → respects R (k a)) → respects R (m ≫= k).
Proof.
  intros Hm HP Hk fs. unfold mbind, M_bind. specialize (Hm fs).
  destruct (m fs) as [[a|e] fs1] eqn:E; simpl in *; [|done].
  etrans; [done|]. by eapply Hk, HP.
Qed.

(** What a job may remove or replace: with sanitized names, nothing at or
    above a directory [q] that neither the temp directory, nor the output
    directory, nor the book itself is at or above. *)
Lemma process_keeps_dir q book_path :
  sanitize_names cfg = true → wf_path (temp_dir cfg) →
  (∀ cmd, respects (keeps_dir q) (subprocess_run cmd)) →
  ¬ temp_dir cfg `prefix_of` q → ¬ output_dir cfg `prefix_of` q →
  ¬ book_path `prefix_of` q →
  respects (keeps_dir q) (process book_path).
Proof.
  intros Hs Hwf Hrun HT HO HB.
  pose (ok := λ p : path, ¬ p `prefix_of` q).
  assert (wf_path (staged_path cfg book_path)) as Hst_wf
    by by apply joinpath_wf.
  pose proof (no_slash_name _ Hst_wf) as Hn.
  assert (ok (staged_path cfg book_path)) as Hst.
  { intros H. apply HT. etrans; [|done]. by apply joinpath_relative. }
  assert (ok (beets_config_file cfg (staged_path cfg book_path))) as Hcf.
  { unfold ok. rewrite beets_config_file_eq by done. by apply not_prefix_below. }
  assert (ok (beets_library cfg (staged_path cfg book_path))) as Hlib.
  { unfold ok. rewrite beets_library_eq by done. by apply not_prefix_below. }
  assert (ok (file_list_path cfg (staged_path cfg book_path))) as Hfl.
  { unfold ok. rewrite file_list_path_eq by done. by apply not_prefix_below. }
  assert (∀ md, ok (temp_dir cfg /: m4b_filename cfg md)) as Hsrc.
  { intros md. unfold ok.
    rewrite (joinpath_valid _ _ (m4b_filename_valid cfg md Hs)).
    by apply not_prefix_below. }
  assert (∀ md, output_dir cfg `prefix_of` output_book_dir cfg md) as Hobd.
  { intros md. unfold output_book_dir.
    rewrite !joinpath_no_slash by by apply sanitize_filename_no_slash.
    rewrite <-app_assoc. by apply prefix_app_r. }
  assert (∀ md r, ok ((output_book_dir cfg md /: m4b_filename cfg md) ++ r))
    as Hfinal.
  { intros md r. unfold ok.
    rewrite (joinpath_valid _ _ (m4b_filename_valid cfg md Hs)).
    destruct (Hobd md) as [k ->]. rewrite <-!app_assoc.
    by apply not_prefix_below. }
  unfold process_audiobook.
  apply respects_catch; [apply _| |intros _; apply respects_ret; apply _].
  apply respects_bind; [apply _|apply respects_get_fs; apply _|intros fs0].
  destruct (extract_metadata_from_files _ _ _ _) as [md|];
    [|apply respects_ret; apply _].
  apply (respects_bind_post _
           (λ r, r = (output_book_dir cfg md, m4b_filename cfg md))).
  { unfold create_output_structure.
    apply respects_bind; [apply _| |intros _; apply respects_ret; apply _].
    apply respects_fs_op; [apply _|]. intros fs fs' H.
    by apply (keeps_dir_mkdir_p q (output_book_dir cfg md)). }
  { intros fs [d f] fs' (_ & -> & ->)%create_output_structure_inv. done. }
  intros [d f] [= -> ->]. unfold skip_or_convert.
  apply respects_bind; [apply _|apply respects_get_fs; apply _|intros fs1].
  apply respects_if.
  { apply respects_bind; [apply _| |intros _; apply respects_ret; apply _].
    apply (respects_rmtree _ ok); eauto using keeps_dir_remove. }
  unfold stage_and_convert.
  apply respects_bind; [apply _| |intros _].
  { apply (respects_stage _ ok);
      eauto using keeps_dir_put, keeps_dir_remove, keeps_dir_mkdir_p. }
  apply respects_bind; [apply _| |intros enhanced].
  { apply (respects_enrich _ ok); eauto using keeps_dir_put, keeps_dir_remove. }
  intros fs. unfold convert_and_commit, mbind, M_bind.
  pose proof (respects_convert (keeps_dir q) ok
                ltac:(eauto using keeps_dir_put)
                ltac:(eauto using keeps_dir_remove)
                cfg subprocess_run Hrun
                (staged_path cfg book_path) enhanced (m4b_filename cfg md)
                Hfl fs) as Hconv.
  destruct (convert_to_m4b_ffmpeg712 _ _ _ _ _ fs) as [[[x|]|e] fs2] eqn:E;
    simpl in *; try done.
  apply convert_result in E as ->.
  destruct (FS.exists_ _ fs2); [|done].
  etrans; [done|]. unfold commit.
  apply respects_bind; [apply _| |intros _].
  { apply (respects_move _ ok); eauto using keeps_dir_put, keeps_dir_remove.
    rewrite <-(app_nil_r (_ /: _)). apply Hfinal. }
  apply respects_bind; [apply _| |intros _].
  { apply (respects_rmtree _ ok); eauto using keeps_dir_remove. }
  apply respects_bind; [apply _| |intros _; apply respects_ret; apply _].
  apply (respects_rmtree _ ok); eauto using keeps_dir_remove.
Qed.

Section Loop.
Context (R : node → node → Prop) `{!Reflexive R, !Transitive R}.
Context {A : Type} (Q : A → Prop) (P : path * job_end → Prop).
Context (body : A → M job_log).
Context (body_returns : ∀ a fs, ∃ r fs', body a fs = (Ok r, fs')).
Context (body_respects : ∀ a, Q a → respects R (body a)).
Context (body_log : ∀ a fs r fs', Q a → body a fs = (Ok r, fs') → Forall P r).

Lemma for_each_returns l fs : ∃ log fs', for_each body l fs = (Ok log, fs').
Proof.
  revert fs. induction l as [|a l IH]; intros fs; [by eexists _, _|].
  destruct (body_returns a fs) as (r & fs1 & E).
  destruct (IH fs1) as (rs & fs2 & E').
  simpl. unfold mbind, M_bind. rewrite E, E'. by eexists _, _.
Qed.

(** A loop whose body always returns goes through its whole list. *)
Lemma for_each_spec l fs :
  Forall Q l →
  ∃ log fs', for_each body l fs = (Ok log, fs') ∧ R fs fs' ∧ Forall P log.
Proof.
  intros Hl. revert fs. induction Hl as [|a l Ha Hl IH]; intros fs.
  - exists [], fs. by split.
  - destruct (body_returns a fs) as (r & fs1 & E).
    destruct (IH fs1) as (rs & fs2 & E' & HR & HP).
    exists (r ++ rs), fs2. simpl. unfold mbind, M_bind. rewrite E, E'.
    split; [done|]. split.
    + trans fs1; [|done]. pose proof (body_respects a Ha fs) as H.
      by rewrite E in H.
    + apply Forall_app. split; [by eapply body_log|done].
Qed.

End Loop.

Lemma if_book_returns p fs : ∃ r fs', if_book p fs = (Ok r, fs').
Proof.
  unfold process_if_book, process_if_audio, mbind, M_bind, get_fs.
  destruct (FS.is_dir p fs); [|by eexists _, _].
  destruct (found_audio fs p); [by eexists _, _|].
  destruct (process_returns p fs) as (o & fs' & ->). by eexists _, _.
Qed.

Lemma if_book_respects R `{!Reflexive R, !Transitive R} p :
  respects R (process p) → respects R (if_book p).
Proof.
  intros H. unfold process_if_book, process_if_audio.
  apply respects_bind; [apply _|by apply respects_get_fs|intros fs0].
  apply respects_if; [|by apply respects_ret].
  apply respects_bind; [apply _|by apply respects_get_fs|intros fs1].
  destruct (found_audio fs1 p); [by apply respects_ret|].
  apply respects_bind; [apply _|done|intros o; by apply respects_ret].
Qed.

Lemma if_book_log p fs r fs' :
  if_book p fs = (Ok r, fs') → Forall (λ e, e.1 = p) r.
Proof.
  unfold process_if_book, process_if_audio, mbind, M_bind, get_fs.
  destruct (FS.is_dir p fs); [|intros [= <- _]; constructor].
  destruct (found_audio fs p); [intros [= <- _]; constructor|].
  destruct (process p fs) as [[o|e] fs1]; [|done].
  intros [= <- _]. by repeat constructor.
Qed.

Lemma below_not_prefix (r : path) :
  r ≠ [] → ¬ input_dir cfg ++ r `prefix_of` input_dir cfg.
Proof. apply app_not_prefix. Qed.

Lemma iterdir_inv p fs l fs' :
  iterdir listing_order p fs = (Ok l, fs') →
  fs' = fs ∧ Forall (λ c, ∃ n, c = p ++ [n]) l.
Proof.
  unfold iterdir. destruct (FS.is_dir p fs); [|done]. intros [= <- <-].
  split; [done|]. apply Forall_fmap, Forall_forall. intros n _. by exists n.
Qed.

Lemma scan_author_eq a fs :
  scan_author cfg mutagen_File subprocess_run listing_order a fs
  = if FS.is_dir a fs
    then for_each if_book
           ((λ n, a ++ [n]) <$> listing_order (FS.listdir a fs)) fs
    else (Ok [], fs).
Proof.
  unfold scan_author, mbind, M_bind, get_fs, iterdir.
  destruct (FS.is_dir a fs) eqn:E; [|done]. cbv beta. by rewrite E.
Qed.

(** With sanitized names, a temp directory and an output directory that
    are not at or above the input directory, and tools that leave the input
    directory in place, a scan of an existing input directory always comes
    to its end: no job stops it, the input directory is still there, and the
    directories it handed to [process_audiobook] lie one or two levels below
    the input directory. *)
Theorem scan_for_books_returns fs :
  sanitize_names cfg = true → wf_path (temp_dir cfg) →
  ¬ temp_dir cfg `prefix_of` input_dir cfg →
  ¬ output_dir cfg `prefix_of` input_dir cfg →
  (∀ cmd, respects (keeps_dir (input_dir cfg)) (subprocess_run cmd)) →
  FS.is_dir (input_dir cfg) fs = true →
  ∃ log fs',
    scan fs = (Ok log, fs')
    ∧ FS.is_dir (input_dir cfg) fs' = true
    ∧ Forall (below_input cfg 1 2) log.
Proof.
  intros Hs Hwf HT HO Hrun Hd.
  set (K := keeps_dir (input_dir cfg)).
  assert (∀ r, r ≠ [] → respects K (if_book (input_dir cfg ++ r))) as Hbook.
  { intros r Hr. apply if_book_respects; [apply _..|].
    apply process_keeps_dir; try done. by apply below_not_prefix. }
  assert (∀ l fs0 (lo : nat),
            Forall (λ c, ∃ r, c = input_dir cfg ++ r ∧ length r = lo
                              ∧ (1 ≤ lo ≤ 2)%nat) l →
            ∃ log fs', for_each if_book l fs0 = (Ok log, fs') ∧ K fs0 fs'
                       ∧ Forall (below_input cfg 1 2) log) as Hloop.
  { intros l fs0 lo Hl.
    eapply (for_each_spec K _ _ if_book if_book_returns); [| |done].
    - intros c (r & -> & Hlen & Hlo). apply Hbook. intros ->. simpl in *. lia.
    - intros c fs1 r' fs2 (r & -> & Hlen & Hlo) E%if_book_log.
      eapply Forall_impl; [done|]. intros e He. exists r. split; [done|lia]. }
  unfold scan_for_books, scan_flat, scan_nested, mbind at 1, M_bind at 1.
  unfold mbind at 1, M_bind at 1, iterdir at 1. rewrite Hd.
  destruct (Hloop ((λ n, input_dir cfg ++ [n])
                     <$> listing_order (FS.listdir (input_dir cfg) fs)) fs 1%nat)
    as (log1 & fs1 & -> & K1 & L1).
  { apply Forall_fmap, Forall_forall. intros n _. exists [n]. simpl.
    repeat split; lia. }
  pose proof (K1 Hd) as Hd1.
  unfold mbind at 1, M_bind at 1. unfold mbind at 1, M_bind at 1, iterdir at 1.
  rewrite Hd1.
  set (authors := (λ n, input_dir cfg ++ [n])
                    <$> listing_order (FS.listdir (input_dir cfg) fs1)).
  destruct (for_each_spec K (λ c, ∃ n, c = input_dir cfg ++ [n])
              (below_input cfg 1 2)
              (scan_author cfg mutagen_File subprocess_run listing_order))
    with (l := authors) (fs := fs1) as (log2 & fs2 & -> & K2 & L2).
  - intros a fs0. rewrite scan_author_eq.
    destruct (FS.is_dir a fs0) eqn:Ea; [|by eexists _, _].
    apply (for_each_returns if_book if_book_returns).
  - intros a (n & ->) fs0. rewrite scan_author_eq.
    destruct (FS.is_dir _ fs0) eqn:Ea; [|done].
    destruct (Hloop ((λ m, (input_dir cfg ++ [n]) ++ [m])
                     <$> listing_order (FS.listdir (input_dir cfg ++ [n]) fs0))
                fs0 2%nat) as (lg & fs3 & -> & K3 & _); [|done].
    apply Forall_fmap, Forall_forall. intros m _. exists [n; m].
    rewrite <-app_assoc. simpl. repeat split; lia.
  - intros a fs0 r fs3 (n & ->). rewrite scan_author_eq.
    destruct (FS.is_dir _ fs0) eqn:Ea; [|intros [= <- _]; constructor].
    destruct (Hloop ((λ m, (input_dir cfg ++ [n]) ++ [m])
                     <$> listing_order (FS.listdir (input_dir cfg ++ [n]) fs0))
                fs0 2%nat) as (lg & fs4 & -> & _ & L).
    + apply Forall_fmap, Forall_forall. intros m _. exists [n; m].
      rewrite <-app_assoc. simpl. repeat split; lia.
    + by intros [= <- _].
  - apply Forall_fmap, Forall_forall. intros n _. by exists n.
  - exists (log1 ++ log2), fs2. split; [done|]. split; [by apply K2|].
    by apply Forall_app.
Qed.

End Scan.

Lemma scan_for_books_returns_witness :
  ∃ log fs',
    scan_for_books default_config Demo.mutagen_File Demo.run_timeout id
      Demo.fs_tagless = (Ok log, fs')
    ∧ FS.is_dir (input_dir default_config) fs' = true
    ∧ Forall (below_input default_config 1 2) log.
Proof.
  apply (scan_for_books_returns default_config Demo.mutagen_File
           Demo.run_timeout id Demo.fs_tagless).
  - reflexivity.
  - repeat constructor; done.
  - intros [k Hk]. discriminate Hk.
  - intros [k Hk]. discriminate Hk.
  - intros cmd. apply run_timeout_keeps_dirs.
  - by vm_compute.
Defined.

(** A scan of a flat book beside a structured one: both are converted, the
    flat one first. *)
Example scan_two_books :
  (scan_for_books default_config Demo.mutagen_File Demo.run_beet_fails id
     fs_two_books).1
  = Ok [(["input"; "Flat Book"], Converted);
        (["input"; "Jane Doe"; "My Book"], Converted)].
Proof. by vm_compute. Qed.

(** When the staged copy of a book goes where the input directory is, the
    job removes the input directory and the scan stops with an exception
    when its second loop starts. *)
Example scan_stops_without_input_dir :
  (scan_for_books cfg_input_in_temp Demo.mutagen_File Demo.run_timeout id
     fs_input_in_temp).1 = Raise OSError.
Proof. by vm_compute. Qed.

(** ** From an untagged folder to its place in the library *)
Section Untagged.
Import PyPath.
Context (cfg : config).
Context (mutagen_File : string → string → res (option audio)).

(** A folder [b] directly in the input directory whose first track has no
    tags is planned at [output/Unknown Author/b/b.m4b], when the name [b]
    needs no sanitizing. *)
Theorem flat_untagged_layout fs b f l a :
  sanitize_names cfg = true → 14 ≤ max_filename_length cfg →
  b ≠ "" → b ≠ "." →
  PyStr.all (λ c, negb (is_reserved c)) b = true →
  ws_normal false b = true → PyStr.strip b = b →
  Z.of_nat (String.length b) ≤ max_filename_length cfg →
  audio_files fs (input_dir cfg ++ [b]) = f :: l →
  open_audio mutagen_File fs f = Ok (Some a) → tagless a →
  ∃ md,
    extract_metadata_from_files cfg mutagen_File fs (input_dir cfg ++ [b])
    = Some md
    ∧ md = {| title := b; artist := "Unknown Author"; album := b;
              year := None |}
    ∧ output_book_dir cfg md /: m4b_filename cfg md
      = output_dir cfg ++ ["Unknown Author"; b; b +:+ ".m4b"].
Proof.
  intros Hs Hmax Hne Hdot Hr Hn Hst Hlen E Ho Ht.
  eexists. split; [|split; [reflexivity|]].
  - rewrite (extract_tagless_eq cfg mutagen_File fs _ f l a); try done.
    + unfold extract_except, detect_input_structure.
      rewrite parent_snoc, name_snoc.
      by rewrite bool_decide_eq_false_2 by (intros H; by apply H).
    + rewrite parent_snoc. intros H. by destruct H.
  - rewrite planned_layout_eq by done. cbn [artist album].
    rewrite (sanitize_clean_name cfg b) by done.
    rewrite (sanitize_clean_name cfg "Unknown Author");
      [|done|reflexivity|reflexivity|reflexivity|simpl; lia].
    rewrite !filter_cons_True by done. done.
Qed.

End Untagged.

Lemma flat_untagged_layout_witness :
  ∃ md,
    extract_metadata_from_files default_config Demo.mutagen_File fs_two_books
      (input_dir default_config ++ ["Flat Book"]) = Some md
    ∧ md = {| title := "Flat Book"; artist := "Unknown Author";
              album := "Flat Book"; year := None |}
    ∧ output_book_dir default_config md /: m4b_filename default_config md
      = output_dir default_config
        ++ ["Unknown Author"; "Flat Book"; "Flat Book" +:+ ".m4b"].
Proof.
  apply (flat_untagged_layout default_config Demo.mutagen_File fs_two_books
           "Flat Book" ["input"; "Flat Book"; "01.mp3"] [] (Audio None));
    try reflexivity; try done; simpl; try lia; by vm_compute.
Defined.

(** ** Configuration *)
Section Merge.

Lemma for_items_app {B} (body : yaml → B → res yaml) l1 l2 c :
  for_items body (l1 ++ l2) c
  = c' ← for_items body l1 c; for_items body l2 c'.
Proof.
  revert c. induction l1 as [|b l1 IH]; intros c; [done|].
  simpl. destruct (body c b); [apply IH|done].
Qed.

Lemma merge_subkey_map key m u sk sv :
  m !! key = Some (YMap u) →
  merge_subkey key (YMap m) (sk, sv)
  = Ok (YMap (if bool_decide (is_Some (u !! sk)) then m
              else <[key := YMap (<[sk:=sv]> u)]> m)).
Proof.
  intros Hk. unfold merge_subkey. cbn [py_getitem fst snd]. rewrite Hk.
  cbn [mbind res_bind py_in]. by case_bool_decide.
Qed.

(** The inner loop on a section that is a mapping. *)
Lemma fill_section key d u m :
  m !! key = Some (YMap u) →
  for_items (merge_subkey key) d (YMap m)
  = Ok (YMap (<[key := YMap (u ∪ list_to_map d)]> m)).
Proof.
  revert u m. induction d as [|[sk sv] d IH]; intros u m Hk.
  - cbn [for_items list_to_map foldr]. rewrite (right_id_L ∅ (∪)).
    by rewrite insert_id.
  - cbn [for_items]. rewrite (merge_subkey_map key m u sk sv Hk).
    cbn [mbind res_bind]. case_bool_decide as Hin.
    + replace (u ∪ list_to_map ((sk, sv) :: d)) with (u ∪ list_to_map d);
        [by apply IH|].
      apply map_eq. intros i. rewrite !lookup_union. destruct Hin as [x Hx].
      cbn [list_to_map foldr]. destruct (decide (i = sk)) as [->|Hne].
      * rewrite Hx, lookup_insert_eq. by destruct (list_to_map d !! sk).
      * by rewrite lookup_insert_ne.
    + apply eq_None_not_Some in Hin.
      replace (u ∪ list_to_map ((sk, sv) :: d))
        with (<[sk:=sv]> u ∪ list_to_map d).
      * rewrite (IH (<[sk:=sv]> u) (<[key:=YMap (<[sk:=sv]> u)]> m))
          by by rewrite lookup_insert_eq.
        by rewrite insert_insert_eq.
      * cbn [list_to_map foldr].
        by rewrite <-insert_union_l, <-insert_union_r.
Qed.

Lemma merge_key_map key d m :
  merge_key (YMap m) (key, d)
  = match m !! key with
    | Some _ => for_items (merge_subkey key) d (YMap m)
    | None => Ok (YMap (<[key := dict_of d]> m))
    end.
Proof.
  unfold merge_key. cbn [py_in fst snd mbind res_bind].
  case_bool_decide as Hin.
  - by destruct Hin as [v ->].
  - apply eq_None_not_Some in Hin. by rewrite Hin.
Qed.

(** The merge as a map: the document of the user completed by the
    defaults, one level deep.  It holds for a document that is a mapping
    whose sections, where present, are mappings; the values of the user are
    never replaced. *)
Lemma merge_with_entries defaults m :
  NoDup defaults.*1 →
  (∀ k v, k ∈ defaults.*1 → m !! k = Some v → ∃ u, v = YMap u) →
  ∃ r, merge_with defaults (YMap m) = Ok (YMap r)
       ∧ ∀ k, r !! k = merged_entry (m !! k) (section_defaults defaults k).
Proof.
  revert m. induction defaults as [|[key d] defaults IH]; intros m Hnd Hwf.
  - exists m. split; [done|]. intros k. unfold section_defaults.
    cbn [list_to_map foldr]. rewrite lookup_empty.
    unfold merged_entry. by destruct (m !! k) as [[]|].
  - apply NoDup_cons in Hnd as [Hkey Hnd]. cbn [fmap list_fmap fst] in *.
    unfold merge_with. cbn [for_items]. rewrite merge_key_map.
    assert (∀ m1, m1 !! key = merged_entry (m !! key) (Some d) →
                  (∀ k, k ≠ key → m1 !! k = m !! k) →
                  ∃ r, for_items merge_key defaults (YMap m1) = Ok (YMap r)
                       ∧ ∀ k, r !! k
                              = merged_entry (m !! k)
                                  (section_defaults ((key, d) :: defaults) k))
      as Hrest.
    { intros m1 H1 Hother. destruct (IH m1 Hnd) as (r & Hr & Hspec).
      - intros k v Hk Hv. assert (k ≠ key) as Hne by (by intros ->).
        rewrite (Hother k Hne) in Hv. apply (Hwf k v); [by right|done].
      - exists r. split; [done|]. intros k. rewrite Hspec.
        unfold section_defaults. cbn [list_to_map foldr].
        destruct (decide (k = key)) as [->|Hne].
        + rewrite lookup_insert_eq, H1.
          rewrite (not_elem_of_list_to_map_1 defaults key) by done.
          unfold merged_entry. by destruct (m !! key) as [[]|].
        + by rewrite lookup_insert_ne, (Hother k Hne). }
    destruct (m !! key) as [v|] eqn:Hv.
    + destruct (Hwf key v) as [u ->]; [by left|done|].
      rewrite (fill_section key d u m Hv). cbn [mbind res_bind].
      apply Hrest.
      * by rewrite lookup_insert_eq.
      * intros k Hne. by rewrite lookup_insert_ne.
    + cbn [mbind res_bind]. apply Hrest.
      * by rewrite lookup_insert_eq.
      * intros k Hne. by rewrite lookup_insert_ne.
Qed.

#[local] Instance grows_refl : Reflexive grows.
Proof. by intros c. Qed.

#[local] Instance grows_trans : Transitive grows.
Proof. intros c1 c2 c3 [H1 H2] [H3 H4]. split; eauto. Qed.

Lemma res_bind_inv {A B} (r : res A) (k : A → res B) b :
  r ≫= k = Ok b → ∃ a, r = Ok a ∧ k a = Ok b.
Proof. destruct r as [a|e]; [eauto|done]. Qed.

Lemma py_getitem_inv key c sec :
  py_getitem key c = Ok sec → ∃ m, c = YMap m ∧ m !! key = Some sec.
Proof.
  destruct c as [| | | | | |m]; try done. simpl.
  destruct (m !! key) as [v|] eqn:E; [|done]. intros [= <-]. eauto.
Qed.

Lemma py_setitem_inv key v c c' :
  py_setitem key v c = Ok c' → ∃ m, c = YMap m ∧ c' = YMap (<[key:=v]> m).
Proof. destruct c as [| | | | | |m]; try done. intros [= <-]. eauto. Qed.

Lemma py_in_map key m :
  py_in key (YMap m) = Ok true ↔ is_Some (m !! key).
Proof.
  simpl. split.
  - intros [= H]. by apply bool_decide_eq_true in H.
  - intros H. by rewrite bool_decide_eq_true_2.
Qed.

Lemma has_subkey_map m key sk :
  has_subkey (YMap m) key sk
  ↔ ∃ sec, m !! key = Some sec ∧ py_in sk sec = Ok true.
Proof.
  unfold has_subkey. simpl. split.
  - intros (sec & H & Hin). destruct (m !! key); [|done].
    injection H as ->. eauto.
  - intros (sec & -> & Hin). eauto.
Qed.

(** Replacing a section by one that holds as much makes the document
    grow. *)
Lemma grows_insert m key v :
  (∀ sec sk, m !! key = Some sec → py_in sk sec = Ok true →
             py_in sk v = Ok true) →
  grows (YMap m) (YMap (<[key:=v]> m)).
Proof.
  intros Hv. split.
  - intros k. rewrite !py_in_map. intros [x Hx].
    destruct (decide (k = key)) as [->|Hne].
    + rewrite lookup_insert_eq. eauto.
    + rewrite lookup_insert_ne by done. eauto.
  - intros k sk. rewrite !has_subkey_map. intros (sec & Hs & Hin).
    destruct (decide (k = key)) as [->|Hne].
    + exists v. rewrite lookup_insert_eq. eauto.
    + exists sec. by rewrite lookup_insert_ne.
Qed.

Lemma merge_subkey_grows key c item c' :
  merge_subkey key c item = Ok c' →
  grows c c' ∧ has_subkey c' key item.1.
Proof.
  unfold merge_subkey.
  intros (sec & Hg & H)%res_bind_inv.
  apply res_bind_inv in H as ([] & Hin & H).
  - injection H as <-. split; [done|]. by exists sec.
  - apply res_bind_inv in H as (sec' & Hset & H).
    apply py_getitem_inv in Hg as (m & -> & Hm).
    apply py_setitem_inv in Hset as (u & -> & ->).
    injection H as <-. split.
    + apply grows_insert. intros sec sk. rewrite Hm. intros [= <-].
      rewrite !py_in_map. intros [x Hx].
      destruct (decide (sk = item.1)) as [->|Hne].
      * rewrite lookup_insert_eq. eauto.
      * rewrite lookup_insert_ne by done. eauto.
    + apply has_subkey_map. eexists. rewrite lookup_insert_eq.
      split; [done|]. apply py_in_map. rewrite lookup_insert_eq. eauto.
Qed.

Lemma fill_grows key d c c' :
  for_items (merge_subkey key) d c = Ok c' →
  grows c c' ∧ ∀ sk sv, (sk, sv) ∈ d → has_subkey c' key sk.
Proof.
  revert c. induction d as [|item d IH]; intros c.
  - intros [= <-]. split; [done|]. intros sk sv H. by apply elem_of_nil in H.
  - cbn [for_items]. intros (c1 & H1 & H)%res_bind_inv.
    apply merge_subkey_grows in H1 as [G1 S1].
    apply IH in H as [G S]. split; [by etrans|].
    intros sk sv [<-|Hin]%elem_of_cons; [|by eapply S].
    by apply G.
Qed.

Lemma merge_key_grows c item c' :
  merge_key c item = Ok c' →
  grows c c' ∧ py_in item.1 c' = Ok true
  ∧ ∀ sk sv, (sk, sv) ∈ item.2 → has_subkey c' item.1 sk.
Proof.
  unfold merge_key. intros ([] & Hin & H)%res_bind_inv.
  - apply fill_grows in H as [G S]. split; [done|]. split; [by apply G|done].
  - apply py_setitem_inv in H as (m & -> & ->).
    assert (m !! item.1 = None) as Hm.
    { simpl in Hin. injection Hin as Hin.
      apply bool_decide_eq_false in Hin. by apply eq_None_not_Some. }
    split; [|split].
    + apply grows_insert. intros sec sk. by rewrite Hm.
    + apply py_in_map. rewrite lookup_insert_eq. eauto.
    + intros sk sv Hsk. apply has_subkey_map. eexists.
      rewrite lookup_insert_eq. split; [done|]. apply py_in_map.
      destruct (list_to_map item.2 !! sk) eqn:E; [eauto|].
      apply not_elem_of_list_to_map in E. destruct E.
      apply list_elem_of_fmap. by exists (sk, sv).
Qed.

Lemma merge_with_complete defaults c c' :
  merge_with defaults c = Ok c' → grows c c' ∧ complete defaults c'.
Proof.
  unfold merge_with. revert c. induction defaults as [|item l IH]; intros c.
  - intros [= <-]. split; [done|]. intros key d H. by apply elem_of_nil in H.
  - cbn [for_items]. intros (c1 & H1 & H)%res_bind_inv.
    apply merge_key_grows in H1 as (G1 & P1 & S1).
    apply IH in H as [G C]. split; [by etrans|].
    intros key d [<-|Hin]%elem_of_cons; [|by apply C].
    destruct G as [Gp Gs]. split; [by apply Gp|].
    intros sk sv Hsk. apply Gs. by eapply S1.
Qed.

Lemma merge_subkey_present key c sk sv :
  has_subkey c key sk → merge_subkey key c (sk, sv) = Ok c.
Proof.
  intros (sec & Hg & Hs). unfold merge_subkey. cbn [fst snd].
  rewrite Hg. cbn [mbind res_bind]. by rewrite Hs.
Qed.

(** The merge leaves a complete document as it is. *)
Lemma complete_fixed defaults c :
  complete defaults c → merge_with defaults c = Ok c.
Proof.
  unfold merge_with. intros Hc.
  assert (∀ l, l ⊆ defaults → for_items merge_key l c = Ok c) as H;
    [|by apply H].
  induction l as [|[key d] l IH]; intros Hl; [done|].
  cbn [for_items].
  destruct (Hc key d) as [Hin Hsub]; [apply Hl; by left|].
  assert (merge_key c (key, d) = Ok c) as ->.
  { unfold merge_key. cbn [fst snd]. rewrite Hin. cbn [mbind res_bind].
    clear Hl IH.
    assert (∀ l', l' ⊆ d → for_items (merge_subkey key) l' c = Ok c) as H;
      [|by apply H].
    induction l' as [|[sk sv] l' IH]; intros Hl'; [done|].
    cbn [for_items].
    rewrite merge_subkey_present by (apply (Hsub sk sv), Hl'; by left).
    cbn [mbind res_bind]. apply IH.
    intros x Hx. apply Hl'. by right. }
  cbn [mbind res_bind]. apply IH. intros x Hx. apply Hl. by right.
Qed.

(** Whenever the merge succeeds, merging its result again changes
    nothing. *)
Theorem merge_defaults_idempotent config merged :
  merge_defaults config = Ok merged → merge_defaults merged = Ok merged.
Proof.
  intros [_ H]%merge_with_complete. by apply complete_fixed.
Qed.

End Merge.

Lemma merge_defaults_idempotent_witness :
  merge_defaults doc_partial_merged = Ok doc_partial_merged.
Proof.
  apply (merge_defaults_idempotent doc_partial). by vm_compute.
Defined.

Section Load.
Import PyPath.
Context (yaml_safe_load : string → res yaml).
Context (yaml_dump : yaml → string).

Abbreviation load := (load_config yaml_safe_load yaml_dump).

Lemma default_sections_NoDup : NoDup default_sections.*1.
Proof.
  assert (H := bool_decide_unpack (NoDup default_sections.*1)). apply H.
  by vm_compute.
Qed.

Lemma load_config_file config_path data fs :
  FS.lookup config_path fs = Some (File data) →
  load config_path fs
  = (config ← yaml_safe_load data; merge_defaults config, fs).
Proof. intros H. unfold load_config. by rewrite H. Qed.

(** A configuration file that holds a mapping whose sections, where
    present, are mappings is read as that mapping completed by the defaults,
    one level deep: a missing section is the default one, a section of the
    file gets the default keys it lacks, and no value of the file is
    replaced; the file system is left alone. *)
Theorem load_config_merges config_path data m fs :
  FS.lookup config_path fs = Some (File data) →
  yaml_safe_load data = Ok (YMap m) →
  (∀ k v, k ∈ default_sections.*1 → m !! k = Some v → ∃ u, v = YMap u) →
  ∃ r, load config_path fs = (Ok (YMap r), fs)
       ∧ ∀ k, r !! k
              = merged_entry (m !! k) (section_defaults default_sections k).
Proof.
  intros Hf Hl Hwf. rewrite (load_config_file _ _ _ Hf), Hl.
  destruct (merge_with_entries default_sections m default_sections_NoDup Hwf)
    as (r & Hr & Hspec).
  exists r. split; [|done]. cbn [mbind res_bind]. unfold merge_defaults.
  by rewrite Hr.
Qed.

Lemma no_file_above T x fs :
  FS.not_a_directory (T ++ [x]) fs = false → file_in_the_way T fs = false.
Proof.
  revert fs. induction T as [|c T IH]; intros fs.
  - by destruct fs.
  - destruct fs as [d|es]; [done|]. unfold file_in_the_way, FS.is_file in *.
    simpl. destruct (es !! c) as [n|]; [|done]. apply IH.
Qed.

Lemma put_in_dir T x t fs :
  FS.is_dir T fs = true → is_Some (FS.put (T ++ [x]) t fs).
Proof.
  revert fs. induction T as [|c T IH]; intros fs H.
  - apply is_dir_nil in H as [es ->]. by eexists.
  - destruct fs as [d|es]; [done|]. rewrite is_dir_cons in H.
    rewrite <-app_comm_cons, put_cons by by destruct T.
    destruct (es !! c) as [n|]; [|done]. simpl.
    destruct (IH n H) as [n' ->]. by eexists.
Qed.

Lemma is_dir_above (p r : path) fs :
  is_Some (FS.lookup (p ++ r) fs) → r ≠ [] → FS.is_dir p fs = true.
Proof.
  rewrite lookup_app. unfold FS.is_dir.
  destruct (FS.lookup p fs) as [[d|es]|]; simpl; [|done|by intros []].
  intros [n Hn] Hr. by rewrite lookup_file in Hn.
Qed.

(** What the first start does, when no configuration file is there. *)
Lemma load_config_missing config_path fs :
  FS.lookup config_path fs = None →
  FS.not_a_directory config_path fs = false →
  ∃ fs', load config_path fs = (Ok default_config_dict, fs')
    ∧ FS.lookup config_path fs' = Some (File (yaml_dump default_config_dict))
    ∧ (∀ q d, FS.lookup q fs = Some (File d) → FS.lookup q fs' = Some (File d))
    ∧ keeps_dirs fs fs'.
Proof.
  intros Hl Hn.
  assert (config_path ≠ []) as Hne by (by intros ->).
  pose proof (app_removelast_last "" Hne) as Hp.
  fold (parent config_path) in Hp. set (T := parent config_path) in *.
  set (x := List.last config_path "") in *.
  unfold load_config. rewrite Hl, Hn. fold T.
  destruct (FS.mkdir_p T fs) as [fs1|] eqn:Hmk.
  2:{ apply mkdir_p_None in Hmk. rewrite Hp in Hn.
      by rewrite (no_file_above _ _ _ Hn) in Hmk. }
  assert (FS.lookup config_path fs1 = None) as Hl1.
  { rewrite (mkdir_p_frame _ _ _ _ Hmk); [done|].
    rewrite Hp. apply prefix_snoc_not. }
  assert (FS.is_dir T fs1 = true) as HT by by eapply mkdir_p_dirs.
  destruct (put_in_dir T x (File (yaml_dump default_config_dict)) fs1 HT)
    as [fs2 Hput].
  rewrite <-Hp in Hput.
  assert (∀ q, is_Some (FS.lookup q fs1) → ¬ config_path `prefix_of` q)
    as Hbelow.
  { intros q Hq [r ->]. rewrite lookup_app, Hl1 in Hq. by destruct Hq. }
  exists fs2. unfold mbind, M_bind, fs_op, FS.write_file, FS.is_dir.
  rewrite Hmk, Hl1, Hput. split; [done|].
  split; [by eapply put_lookup|]. split.
  - intros q d Hq. pose proof (mkdir_p_keeps_files _ _ _ _ _ Hmk Hq) as Hq1.
    rewrite (put_frame _ _ _ _ q Hput); [done|]. split.
    + apply Hbelow. by rewrite Hq1.
    + intros [r Hr]. destruct (decide (r = [])) as [->|Hr'].
      * rewrite app_nil_r in Hr. subst q. by rewrite Hl1 in Hq1.
      * destruct (exists_last Hr') as (r0 & y & ->).
        rewrite Hp, app_assoc in Hr. apply app_inj_tail in Hr as [HT' _].
        assert (FS.is_dir q fs1 = true) as Hd.
        { eapply mkdir_p_dirs; [done|]. rewrite HT'. by apply prefix_app_r. }
        unfold FS.is_dir in Hd. by rewrite Hq1 in Hd.
  - intros q Hq. apply (mkdir_p_keeps_dirs _ _ _ Hmk) in Hq.
    eapply keeps_dir_put; [|done..].
    apply Hbelow. unfold FS.is_dir in Hq. by destruct (FS.lookup q fs1).
Qed.

(** On the first start, with no configuration file (and no regular file
    on the way to it), [load_config] returns the defaults and writes them
    to the configuration file, making the directories above it; it keeps
    every directory and every regular file that was there. *)
Theorem load_config_first_start config_path fs :
  FS.lookup config_path fs = None →
  FS.not_a_directory config_path fs = false →
  ∃ fs', load config_path fs = (Ok default_config_dict, fs')
    ∧ FS.lookup config_path fs' = Some (File (yaml_dump default_config_dict))
    ∧ (∀ q d, FS.lookup q fs = Some (File d) → FS.lookup q fs' = Some (File d))
    ∧ keeps_dirs fs fs'.
Proof. apply load_config_missing. Qed.

Lemma merge_defaults_default :
  merge_defaults default_config_dict = Ok default_config_dict.
Proof. by vm_compute. Qed.

(** The next start reads the file the first start wrote, and gets the same
    configuration without touching the file system, provided the YAML
    library reads back the defaults it wrote. *)
Theorem load_config_restart config_path fs :
  yaml_safe_load (yaml_dump default_config_dict) = Ok default_config_dict →
  FS.lookup config_path fs = None →
  FS.not_a_directory config_path fs = false →
  ∃ fs', load config_path fs = (Ok default_config_dict, fs')
    ∧ load config_path fs' = (Ok default_config_dict, fs').
Proof.
  intros Hrt Hl Hn.
  destruct (load_config_missing config_path fs Hl Hn) as (fs' & H1 & Hf & _).
  exists fs'. split; [done|].
  rewrite (load_config_file _ _ _ Hf), Hrt. cbn [mbind res_bind].
  by rewrite merge_defaults_default.
Qed.

End Load.

Lemma load_config_merges_witness :
  ∃ r, load_config (λ _, Ok doc_partial) toy_dump ["config"; "converter.yaml"]
         (Demo.dir_of [("config", Demo.dir_of [("converter.yaml", File "x")])])
       = (Ok (YMap r),
          Demo.dir_of [("config", Demo.dir_of [("converter.yaml", File "x")])])
       ∧ ∀ k, r !! k
              = merged_entry
                  ((list_to_map
                      [("directories", dict_of [("input", YStr "/books")]);
                       ("custom", YInt 1)] : gmap string yaml) !! k)
                  (section_defaults default_sections k).
Proof.
  apply (load_config_merges (λ _, Ok doc_partial) toy_dump
           ["config"; "converter.yaml"] "x").
  - by vm_compute.
  - reflexivity.
  - intros k v Hk Hv. cbn [default_sections fmap list_fmap fst] in Hk.
    repeat (apply elem_of_cons in Hk as [->|Hk]);
      [vm_compute in Hv; injection Hv as <-; by eexists
      |vm_compute in Hv; discriminate Hv..|by apply elem_of_nil in Hk].
Defined.

Lemma load_config_first_start_witness :
  ∃ fs', load_config toy_safe_load toy_dump ["config"; "converter.yaml"]
           fs_no_config = (Ok default_config_dict, fs')
    ∧ FS.lookup ["config"; "converter.yaml"] fs'
      = Some (File (toy_dump default_config_dict))
    ∧ (∀ q d, FS.lookup q fs_no_config = Some (File d) →
              FS.lookup q fs' = Some (File d))
    ∧ keeps_dirs fs_no_config fs'.
Proof.
  apply (load_config_first_start toy_safe_load toy_dump
           ["config"; "converter.yaml"] fs_no_config); by vm_compute.
Defined.

Lemma load_config_restart_witness :
  ∃ fs', load_config toy_safe_load toy_dump ["config"; "converter.yaml"]
           fs_no_config = (Ok default_config_dict, fs')
    ∧ load_config toy_safe_load toy_dump ["config"; "converter.yaml"] fs'
      = (Ok default_config_dict, fs').
Proof.
  apply (load_config_restart toy_safe_load toy_dump
           ["config"; "converter.yaml"] fs_no_config); by vm_compute.
Defined.

(** The merged document of a file that sets one directory and a key of its
    own: the other directories and the other sections are the defaults. *)
Example merge_partial_document :
  merge_defaults doc_partial = Ok doc_partial_merged.
Proof. by vm_compute. Qed.

(** An empty document, and a section left empty, stop the start-up with a
    [TypeError]; a section that is a string naming every default key passes
    as it is. *)
Example merge_type_errors :
  merge_defaults YNull = Raise OtherException
  ∧ merge_defaults doc_null_section = Raise OtherException
  ∧ (r ← merge_defaults (dict_of [("logging", YStr "level, file")]);
     py_getitem "logging" r) = Ok (YStr "level, file").
Proof. repeat split; by vm_compute. Qed.

(** ** What a failed conversion leaves behind *)
Section Leftovers.
Import PyPath.
Context (cfg : config).
Context (subprocess_run : list string → node → res Z * node).

(** When the conversion of a directory with audio files returns no output
    file, the concat list it wrote is still in the temp directory, with one
    line for each audio file (for a tool that does not touch the list): the
    list is removed after a successful conversion only. *)
Theorem convert_failure_leaves_list p md f fs fs' :
  has_audio fs p →
  (∀ cmd fs0, FS.lookup (file_list_path cfg p) (subprocess_run cmd fs0).2
              = FS.lookup (file_list_path cfg p) fs0) →
  convert_to_m4b_ffmpeg712 cfg subprocess_run p md f fs = (Ok None, fs') →
  FS.lookup (file_list_path cfg p) fs'
  = Some (File (PyStr.join "" (file_list_line <$> audio_files fs p))).
Proof.
  intros Ha Hrun.
  assert (audio_files fs p ≠ []) as Hne
    by (intros H%audio_files_nil; by apply H).
  revert Hne.
  unfold convert_to_m4b_ffmpeg712, mbind, M_bind, get_fs, catch, fs_op, ret.
  destruct (audio_files fs p) as [|a l] eqn:E; [done|]. intros _.
  destruct (FS.write_file _ _ fs) as [fs1|] eqn:Hw; [|done].
  assert (FS.lookup (file_list_path cfg p) fs1
          = Some (File (PyStr.join "" (file_list_line <$> a :: l)))) as Hl.
  { unfold FS.write_file in Hw. destruct (FS.is_dir _ fs); [done|].
    by eapply put_lookup. }
  match goal with
  | |- context [subprocess_run ?c fs1] =>
      pose proof (Hrun c fs1) as Hr; destruct (subprocess_run c fs1) as [[rc|e1] fs2]
  end; simpl in Hr; rewrite Hl in Hr.
  - destruct (_ && _); [|by intros [= <-]].
    destruct (FS.unlink_missing_ok _ fs2); [done|by intros [= <-]].
  - by intros [= <-].
Qed.

End Leftovers.

Lemma convert_failure_leaves_list_witness :
  FS.lookup (file_list_path default_config (staged_path default_config Demo.jane))
    Demo.fs_failed
  = Some (File (PyStr.join ""
                  (file_list_line
                     <$> audio_files Demo.fs_tagged
                           (staged_path default_config Demo.jane)))).
Proof.
  apply (convert_failure_leaves_list default_config Demo.run_timeout
           (staged_path default_config Demo.jane) Demo.md_jane "My Book.m4b"
           Demo.fs_tagged Demo.fs_failed).
  - exists "01.mp3". split; [reflexivity|].
    apply (bool_decide_unpack _). by vm_compute.
  - done.
  - by vm_compute.
Defined.
